(** * torchreid/data/sampler.py: index samplers

    A shallow embedding of the samplers of [torchreid/data/sampler.py]
    ([RandomIdentitySampler], [RandomDomainSampler], [RandomDatasetSampler],
    [IterDistributedSampler], [InferenceSampler]) and the properties of the
    index sequences they emit.

    Conventions.
    - Python [int]s are [Z]; [//] is [Z.div] and [%] is [Z.modulo] (both
      floor, sign of the divisor), with the [ZeroDivisionError] written out.
    - Positions produced by [enumerate] are [nat].
    - A computation is a function of the process-wide random state to an
      [outcome]: a value with the next random state, a raised exception, or
      [OutOfFuel] when the bound given to a [while] loop is used up.
    - [random] and [numpy.random] are not part of the module: their draws
      are read from a tape of naturals, so that a statement quantified over
      the tape covers every behaviour of the generator. *)

From Stdlib Require Import String ZArith List Lia Bool Permutation Arith.
Import ListNotations.

(** ** Exceptions and outcomes *)

Inductive exn : Type :=
| ValueError
| AssertionError
| ZeroDivisionError
| IndexError
| RuntimeError
| NameError (name : string).

Inductive outcome (A : Type) : Type :=
| Ok (a : A)
| Raise (e : exn)
| OutOfFuel.

Arguments Ok {A} a.
Arguments Raise {A} e.
Arguments OutOfFuel {A}.

(** The random state shared by [random] and [numpy.random]. *)
Definition Rng : Type := list nat.

Definition M (A : Type) : Type := Rng -> outcome (A * Rng).

Definition ret {A} (a : A) : M A := fun g => Ok (a, g).

Definition bind {A B} (m : M A) (k : A -> M B) : M B :=
  fun g =>
    match m g with
    | Ok (a, g') => k a g'
    | Raise e => Raise e
    | OutOfFuel => OutOfFuel
    end.

Definition raise {A} (e : exn) : M A := fun _ => Raise e.

Definition out_of_fuel {A} : M A := fun _ => OutOfFuel.

Declare Scope py_scope.
Delimit Scope py_scope with py.

Notation "x <- c1 ;; c2" := (bind c1 (fun x => c2))
  (at level 100, c1 at next level, right associativity) : py_scope.
Notation "' pat <- c1 ;; c2" := (bind c1 (fun x => match x with pat => c2 end))
  (at level 100, pat pattern, c1 at next level, right associativity) : py_scope.
Notation "c1 ;;; c2" := (bind c1 (fun _ => c2))
  (at level 100, right associativity) : py_scope.

Open Scope py_scope.

(** [assert c] *)
Definition py_assert (c : bool) : M unit :=
  if c then ret tt else raise AssertionError.

(** [a // b] and [a % b] *)
Definition floordiv (a b : Z) : M Z :=
  if (b =? 0)%Z then raise ZeroDivisionError else ret (a / b)%Z.

Definition pymod (a b : Z) : M Z :=
  if (b =? 0)%Z then raise ZeroDivisionError else ret (a mod b)%Z.

Definition len {A} (l : list A) : Z := Z.of_nat (length l).

(** ** The random generators *)

(** One draw below [n] (callers have [0 < n]); an exhausted tape reads 0. *)
Definition randbelow (n : nat) : M nat :=
  fun g =>
    match g with
    | [] => Ok (0, [])
    | r :: g' => Ok (r mod n, g')
    end.

Definition drop_nth {A} (j : nat) (l : list A) : list A :=
  firstn j l ++ skipn (S j) l.

(** [k] draws without replacement: a drawn position leaves the pool. *)
Fixpoint sample_loop {A} (k : nat) (pool : list A) : M (list A) :=
  match k with
  | O => ret []
  | S k' =>
      j <- randbelow (length pool) ;;
      match nth_error pool j with
      | None => raise ValueError
      | Some x =>
          rest <- sample_loop k' (drop_nth j pool) ;;
          ret (x :: rest)
      end
  end.

(** [random.sample(population, k)]: [ValueError] unless [0 <= k <= n]. *)
Definition random_sample {A} (population : list A) (k : Z) : M (list A) :=
  if ((k <? 0) || (len population <? k))%Z
  then raise ValueError
  else sample_loop (Z.to_nat k) population.

(** [random.shuffle(x)]: a uniform permutation of [x]. *)
Definition random_shuffle {A} (x : list A) : M (list A) :=
  sample_loop (length x) x.

Fixpoint choice_loop {A} (size : nat) (a : list A) (d : A) : M (list A) :=
  match size with
  | O => ret []
  | S size' =>
      j <- randbelow (length a) ;;
      rest <- choice_loop size' a d ;;
      ret (nth j a d :: rest)
  end.

(** [np.random.choice(a, size=size, replace=True)]: [ValueError] on a
    negative size, and on an empty [a] unless no sample is taken. *)
Definition np_random_choice {A} (a : list A) (size : Z) : M (list A) :=
  if (size <? 0)%Z then raise ValueError
  else
    match a with
    | [] => if (size =? 0)%Z then ret [] else raise ValueError
    | d :: _ => choice_loop (Z.to_nat size) a d
    end.

(** ** Lists and [defaultdict(list)] *)

(** [l.remove(x)]: the first occurrence goes; [ValueError] when absent. *)
Fixpoint list_remove {A} (eqb : A -> A -> bool) (x : A) (l : list A)
  : option (list A) :=
  match l with
  | [] => None
  | y :: l' =>
      if eqb y x then Some l'
      else match list_remove eqb x l' with
           | Some r => Some (y :: r)
           | None => None
           end
  end.

(** A dict keeps its keys in insertion order. *)
Definition dict (V : Type) : Type := list (Z * V).

Definition keys {V} (d : dict V) : list Z := map fst d.

(** [d[k]] on a [defaultdict(list)]: a missing key reads as [[]]. *)
Fixpoint dict_get {A} (d : dict (list A)) (k : Z) : list A :=
  match d with
  | [] => []
  | (k', v) :: d' => if (k' =? k)%Z then v else dict_get d' k
  end.

(** [d[k] = v] *)
Fixpoint dict_set {V} (d : dict V) (k : Z) (v : V) : dict V :=
  match d with
  | [] => [(k, v)]
  | (k', v') :: d' =>
      if (k' =? k)%Z then (k', v) :: d' else (k', v') :: dict_set d' k v
  end.

(** [d[k].append(x)] *)
Definition dict_append {A} (d : dict (list A)) (k : Z) (x : A)
  : dict (list A) :=
  dict_set d k (dict_get d k ++ [x]).

(** ** Items *)

(** [(img_path, pid, camid, dsetid)] *)
Record Item : Type := mkItem {
  img_path : string;
  pid : Z;
  camid : Z;
  dsetid : Z
}.

Definition enumerate {A} (l : list A) : list (nat * A) :=
  combine (seq 0 (length l)) l.

(** [for i, items in enumerate(data_source): d[label(items)].append(i)] *)
Definition index_by (label : Item -> Z) (data_source : list Item)
  : dict (list nat) :=
  fold_left (fun d '(i, items) => dict_append d (label items) i)
            (enumerate data_source) [].

(** The loop body of [index_by], named. *)
Definition index_step (label : Item -> Z) (d : dict (list nat))
           (p : nat * Item) : dict (list nat) :=
  let '(i, items) := p in dict_append d (label items) i.

Definition has_label (label : Item -> Z) (k : Z) (p : nat * Item) : bool :=
  (label (snd p) =? k)%Z.

(** How many items carry the label [k]. *)
Definition count_label (label : Item -> Z) (data_source : list Item) (k : Z)
  : nat :=
  List.length (filter (fun it => (label it =? k)%Z) data_source).

(** [for x in l: body] over a loop state *)
Fixpoint for_each {A S} (l : list A) (body : A -> S -> M S) (s : S) : M S :=
  match l with
  | [] => ret s
  | x :: l' => s' <- body x s ;; for_each l' body s'
  end.

(** ** RandomIdentitySampler *)

Module RandomIdentitySampler.

Record t : Type := mk {
  data_source : list Item;
  batch_size : Z;
  num_instances : Z;
  num_pids_per_batch : Z;
  index_dic : dict (list nat);
  pids : list Z;
  length : Z
}.

(** One turn of the estimate loop of [__init__].  [num_instances] is not
    zero there: [batch_size // num_instances] has been computed. *)
Definition estimate_step (index_dic : dict (list nat)) (num_instances : Z)
           (length : Z) (pid : Z) : Z :=
  let idxs := dict_get index_dic pid in
  let num := len idxs in
  let num := if (num <? num_instances)%Z then num_instances else num in
  (length + (num - num mod num_instances))%Z.

Definition init (data_source : list Item) (batch_size num_instances : Z)
  : M t :=
  if (batch_size <? num_instances)%Z then raise ValueError
  else
    num_pids_per_batch <- floordiv batch_size num_instances ;;
    let index_dic := index_by pid data_source in
    let pids := keys index_dic in
    py_assert (num_pids_per_batch <=? len pids)%Z ;;;
    let length := fold_left (estimate_step index_dic num_instances) pids 0%Z in
    ret (mk data_source batch_size num_instances num_pids_per_batch
            index_dic pids length).

(** [for idx in idxs]: fill [batch_idxs]; a full one goes to the dict. *)
Definition chunk_step (num_instances : Z) (pid : Z)
           (st : list nat * dict (list (list nat))) (idx : nat)
  : list nat * dict (list (list nat)) :=
  let '(batch_idxs, batch_idxs_dict) := st in
  let batch_idxs := batch_idxs ++ [idx] in
  if (len batch_idxs =? num_instances)%Z
  then ([], dict_append batch_idxs_dict pid batch_idxs)
  else (batch_idxs, batch_idxs_dict).

(** [for pid in self.pids]: pad, shuffle, cut into chunks. *)
Definition prepare_pid (s : t) (pid : Z)
           (batch_idxs_dict : dict (list (list nat)))
  : M (dict (list (list nat))) :=
  let idxs := dict_get (index_dic s) pid in
  idxs <- (if (len idxs <? num_instances s)%Z
           then np_random_choice idxs (num_instances s)
           else ret idxs) ;;
  idxs <- random_shuffle idxs ;;
  ret (snd (fold_left (chunk_step (num_instances s) pid) idxs
                      ([], batch_idxs_dict))).

Record loop_state : Type := mkLoop {
  batch_idxs_dict : dict (list (list nat));
  avai_pids : list Z;
  final_idxs : list nat
}.

(** [for pid in selected_pids]: pop the oldest chunk of [pid]. *)
Definition take_chunk (pid : Z) (st : loop_state) : M loop_state :=
  match dict_get (batch_idxs_dict st) pid with
  | [] => raise IndexError
  | batch_idxs :: rest =>
      let d := dict_set (batch_idxs_dict st) pid rest in
      let final := final_idxs st ++ batch_idxs in
      if (len rest =? 0)%Z
      then match list_remove Z.eqb pid (avai_pids st) with
           | None => raise ValueError
           | Some avai => ret (mkLoop d avai final)
           end
      else ret (mkLoop d (avai_pids st) final)
  end.

(** [while len(avai_pids) >= self.num_pids_per_batch] *)
Fixpoint while_loop (fuel : nat) (num_pids_per_batch : Z) (st : loop_state)
  : M (list nat) :=
  match fuel with
  | O => out_of_fuel
  | S fuel' =>
      if (num_pids_per_batch <=? len (avai_pids st))%Z
      then
        selected_pids <- random_sample (avai_pids st) num_pids_per_batch ;;
        st' <- for_each selected_pids take_chunk st ;;
        while_loop fuel' num_pids_per_batch st'
      else ret (final_idxs st)
  end.

Definition iter (s : t) (fuel : nat) : M (list nat) :=
  batch_idxs_dict <- for_each (pids s) (prepare_pid s) [] ;;
  while_loop fuel (num_pids_per_batch s) (mkLoop batch_idxs_dict (pids s) []).

Definition __len__ (s : t) : Z := length s.

End RandomIdentitySampler.

(** ** RandomDomainSampler and RandomDatasetSampler

    The two classes are the same code up to the tuple position they read
    ([items[2]] or [items[3]]) and the names of their fields.  The section
    is that code with the position as a variable, under the names of
    [RandomDomainSampler]; the two modules after it fix the position. *)

(** What one turn of [for domain in selected_domains] did: a record kept
    beside the loop state for the statements, never read by the code. *)
Record Draw : Type := mkDraw {
  drawn_label : Z;
  pool_before : list nat;
  selected_idxs : list nat;
  pool_after : list nat
}.

Section BalancedSampler.

Variable label : Item -> Z.

Record sampler : Type := mkSampler {
  data_source : list Item;
  domain_dict : dict (list nat);
  domains : list Z;
  n_img_per_domain : Z;
  batch_size : Z;
  n_domain : Z;
  length : Z
}.

Record pass_state : Type := mkPass {
  cur_dict : dict (list nat);
  final_idxs : list nat;
  stop_sampling : bool
}.

(** [for idx in selected_idxs: domain_dict[domain].remove(idx)] *)
Fixpoint remove_all (selected : list nat) (idxs : list nat)
  : option (list nat) :=
  match selected with
  | [] => Some idxs
  | idx :: selected' =>
      match list_remove Nat.eqb idx idxs with
      | Some idxs' => remove_all selected' idxs'
      | None => None
      end
  end.

(** The body of [for domain in selected_domains]. *)
Definition draw_domain (n_img_per_domain : Z) (domain : Z) (st : pass_state)
  : M (pass_state * Draw) :=
  let idxs := dict_get (cur_dict st) domain in
  selected_idxs <- random_sample idxs n_img_per_domain ;;
  let final := final_idxs st ++ selected_idxs in
  match remove_all selected_idxs idxs with
  | None => raise ValueError
  | Some rest =>
      let d := dict_set (cur_dict st) domain rest in
      let remaining := len rest in
      let stop := if (remaining <? n_img_per_domain)%Z
                  then true else stop_sampling st in
      ret (mkPass d final stop, mkDraw domain idxs selected_idxs rest)
  end.

Fixpoint sample_round (n_img_per_domain : Z) (selected_domains : list Z)
         (st : pass_state) : M (pass_state * list Draw) :=
  match selected_domains with
  | [] => ret (st, [])
  | domain :: rest =>
      '(st1, dr) <- draw_domain n_img_per_domain domain st ;;
      '(st2, drs) <- sample_round n_img_per_domain rest st1 ;;
      ret (st2, dr :: drs)
  end.

(** [while not stop_sampling] *)
Fixpoint while_loop (fuel : nat) (domains : list Z)
         (n_domain n_img_per_domain : Z) (st : pass_state)
  : M (pass_state * list (list Draw)) :=
  match fuel with
  | O => out_of_fuel
  | S fuel' =>
      if negb (stop_sampling st)
      then
        selected_domains <- random_sample domains n_domain ;;
        '(st', round) <- sample_round n_img_per_domain selected_domains st ;;
        '(st'', rounds) <- while_loop fuel' domains n_domain
                                      n_img_per_domain st' ;;
        ret (st'', round :: rounds)
      else ret (st, [])
  end.

(** One pass, with the record of its rounds. *)
Definition run_pass (domain_dict : dict (list nat)) (domains : list Z)
           (n_domain n_img_per_domain : Z) (fuel : nat)
  : M (pass_state * list (list Draw)) :=
  while_loop fuel domains n_domain n_img_per_domain
             (mkPass domain_dict [] false).

Definition iter_of (domain_dict : dict (list nat)) (domains : list Z)
           (n_domain n_img_per_domain : Z) (fuel : nat) : M (list nat) :=
  '(st, _) <- run_pass domain_dict domains n_domain n_img_per_domain fuel ;;
  ret (final_idxs st).

Definition iter (s : sampler) (fuel : nat) : M (list nat) :=
  iter_of (domain_dict s) (domains s) (n_domain s) (n_img_per_domain s) fuel.

Definition rounds_of (s : sampler) (fuel : nat) : M (list (list Draw)) :=
  '(_, rounds) <- run_pass (domain_dict s) (domains s) (n_domain s)
                           (n_img_per_domain s) fuel ;;
  ret rounds.

(** [n_domain is None or n_domain <= 0] *)
Definition effective_n_domain (domains : list Z) (n_domain : option Z) : Z :=
  match n_domain with
  | None => len domains
  | Some n => if (n <=? 0)%Z then len domains else n
  end.

(** [__init__]; [fuel] bounds the pass that measures [self.length]. *)
Definition init (data_source : list Item) (batch_size : Z)
           (n_domain : option Z) (fuel : nat) : M sampler :=
  let domain_dict := index_by label data_source in
  let domains := keys domain_dict in
  let n_domain := effective_n_domain domains n_domain in
  r <- pymod batch_size n_domain ;;
  py_assert (r =? 0)%Z ;;;
  n_img_per_domain <- floordiv batch_size n_domain ;;
  out <- iter_of domain_dict domains n_domain n_img_per_domain fuel ;;
  ret (mkSampler data_source domain_dict domains n_img_per_domain
                 batch_size n_domain (len out)).

Definition __len__ (s : sampler) : Z := length s.

End BalancedSampler.

Module RandomDomainSampler.
Definition t : Type := sampler.
Definition init := init camid.
Definition iter := iter.
Definition rounds_of := rounds_of.
Definition __len__ := __len__.
End RandomDomainSampler.

Module RandomDatasetSampler.
Definition t : Type := sampler.
Definition dataset_dict := domain_dict.
Definition datasets := domains.
Definition n_img_per_dset := n_img_per_domain.
Definition n_dataset := n_domain.
Definition init := init dsetid.
Definition iter := iter.
Definition rounds_of := rounds_of.
Definition __len__ := __len__.
End RandomDatasetSampler.

(** ** The names the module can resolve

    Lines 1-6 of the file bind [copy], [np], [random], [defaultdict],
    [Sampler], [RandomSampler] and [SequentialSampler].
    [from torch.utils.data.sampler import ...] binds neither [torch] nor
    [dist]; the two classes below read both as globals.  [Globals] says
    what the two names resolve to when the code runs. *)

(** [torch]: [randperm n seed] is
    [torch.randperm(n, generator=g).tolist()] for a fresh generator [g]
    after [g.manual_seed(seed)]. *)
Record Torch : Type := mkTorch {
  randperm : nat -> Z -> list Z
}.

(** [dist]: [torch.distributed] *)
Record Dist : Type := mkDist {
  is_available : bool;
  get_world_size : Z;
  get_rank : Z
}.

Record Globals : Type := mkGlobals {
  torch : option Torch;
  dist : option Dist
}.

(** The module as it is written. *)
Definition module_globals : Globals := mkGlobals None None.

Definition global_torch (G : Globals) : M Torch :=
  match torch G with
  | Some t => ret t
  | None => raise (NameError "torch")
  end.

Definition global_dist (G : Globals) : M Dist :=
  match dist G with
  | Some d => ret d
  | None => raise (NameError "dist")
  end.

(** [if num_replicas is None: ... num_replicas = dist.get_world_size()] *)
Definition default_num_replicas (G : Globals) (num_replicas : option Z)
  : M Z :=
  match num_replicas with
  | Some n => ret n
  | None =>
      d <- global_dist G ;;
      if negb (is_available d) then raise RuntimeError
      else ret (get_world_size d)
  end.

(** [if rank is None: ... rank = dist.get_rank()] *)
Definition default_rank (G : Globals) (rank : option Z) : M Z :=
  match rank with
  | Some r => ret r
  | None =>
      d <- global_dist G ;;
      if negb (is_available d) then raise RuntimeError
      else ret (get_rank d)
  end.

(** ** Slices and ranges *)

(** A given bound of [l[start:stop:step]], clipped as CPython does. *)
Definition adjust_bound (length step i : Z) : Z :=
  if (i <? 0)%Z then
    let i' := (i + length)%Z in
    if (i' <? 0)%Z then (if (step <? 0)%Z then -1 else 0)%Z else i'
  else if (length <=? i)%Z then
    (if (step <? 0)%Z then length - 1 else length)%Z
  else i.

(** First position and number of positions of [l[start:stop:step]]. *)
Definition slice_indices (length : Z) (start stop : option Z) (step : Z)
  : Z * Z :=
  let start := match start with
               | Some i => adjust_bound length step i
               | None => if (step <? 0)%Z then (length - 1)%Z else 0%Z
               end in
  let stop := match stop with
              | Some i => adjust_bound length step i
              | None => if (step <? 0)%Z then (-1)%Z else length
              end in
  let n := if (step <? 0)%Z
           then (if (stop <? start)%Z
                 then (start - stop - 1) / (- step) + 1 else 0)%Z
           else (if (start <? stop)%Z
                 then (stop - start - 1) / step + 1 else 0)%Z in
  (start, n).

(** [l[start:stop:step]]; a zero step is a [ValueError]. *)
Definition py_slice {A} (l : list A) (start stop : option Z) (step : Z)
  : M (list A) :=
  if (step =? 0)%Z then raise ValueError
  else
    let '(start, n) := slice_indices (len l) start stop step in
    ret (flat_map
           (fun i => match nth_error l (Z.to_nat (start + Z.of_nat i * step))
                     with
                     | Some x => [x]
                     | None => []
                     end)
           (seq 0 (Z.to_nat n))).

(** [range(start, stop)] *)
Definition py_range (start stop : Z) : list Z :=
  map (fun i => (start + Z.of_nat i)%Z) (seq 0 (Z.to_nat (stop - start))).

(** ** IterDistributedSampler *)

Module IterDistributedSampler.

Record t : Type := mk {
  dataset : list Item;
  batch_size : Z;
  num_replicas : Z;
  rank : Z;
  epoch : Z;
  shuffle : bool;
  effect_bs : Z;
  total_size : Z;
  num_samples : Z;
  indices : list Z
}.

(** The permutation of epoch [ep], cut to [total_size]. *)
Definition epoch_indices (G : Globals) (dataset : list Item) (shuffle : bool)
           (total_size : Z) (ep : Z) : M (list Z) :=
  g <- global_torch G ;;
  indices <- (if shuffle
              then py_slice (randperm g (List.length dataset) ep)
                            None (Some total_size) 1
              else ret (py_range 0 (len dataset))) ;;
  py_slice indices None (Some total_size) 1.

(** [indices[self.rank:self.total_size:self.num_replicas]] *)
Definition subsample (indices : list Z) (rank total_size num_replicas : Z)
  : M (list Z) :=
  py_slice indices (Some rank) (Some total_size) num_replicas.

(** The body of [for ep in range(total_epochs)]. *)
Definition epoch_step (G : Globals) (dataset : list Item) (shuffle : bool)
           (total_size rank num_replicas : Z) (ep : Z) (acc : list Z)
  : M (list Z) :=
  indices <- epoch_indices G dataset shuffle total_size ep ;;
  shard <- subsample indices rank total_size num_replicas ;;
  ret (acc ++ shard).

Definition build_indices (G : Globals) (dataset : list Item) (shuffle : bool)
           (total_size rank num_replicas : Z) (total_epochs : Z)
  : M (list Z) :=
  for_each (py_range 0 total_epochs)
           (epoch_step G dataset shuffle total_size rank num_replicas) [].

Definition init (G : Globals) (dataset : list Item) (total_epochs : Z)
           (batch_size : Z) (num_replicas rank : option Z) (shuffle : bool)
  : M t :=
  num_replicas <- default_num_replicas G num_replicas ;;
  rank <- default_rank G rank ;;
  py_assert (1 <=? total_epochs)%Z ;;;
  let effect_bs := (num_replicas * batch_size)%Z in
  q <- floordiv (len dataset) effect_bs ;;
  let total_size := (q * effect_bs)%Z in
  num_samples <- floordiv total_size num_replicas ;;
  indices <- build_indices G dataset shuffle total_size rank num_replicas
                           total_epochs ;;
  let num_samples := (num_samples * total_epochs)%Z in
  py_assert (len indices =? num_samples)%Z ;;;
  ret (mk dataset batch_size num_replicas rank 0 shuffle effect_bs
          total_size num_samples indices).

Definition iter (s : t) : list Z := indices s.

Definition __len__ (s : t) : Z := num_samples s.

Definition set_epoch (s : t) (e : Z) : t :=
  mk (dataset s) (batch_size s) (num_replicas s) (rank s) e (shuffle s)
     (effect_bs s) (total_size s) (num_samples s) (indices s).

End IterDistributedSampler.

(** ** InferenceSampler *)

Module InferenceSampler.

Record t : Type := mk {
  data_num : Z;
  common_size : Z;
  begin_ : Z;
  end_ : Z;
  indices : list Z
}.

Definition init (G : Globals) (data_num : Z) (num_replicas rank : option Z)
  : M t :=
  py_assert (0 <? data_num)%Z ;;;
  num_replicas <- default_num_replicas G num_replicas ;;
  rank <- default_rank G rank ;;
  q <- floordiv (data_num + num_replicas - 1) num_replicas ;;
  let common_size := q in
  let begin_ := (common_size * rank)%Z in
  let end_ := Z.min (common_size * (rank + 1)) data_num in
  ret (mk data_num common_size begin_ end_ (py_range begin_ end_)).

Definition iter (s : t) : list Z := indices s.

Definition __len__ (s : t) : Z := len (indices s).

End InferenceSampler.

(** ** Predicates of the statements *)

Section IdentityPredicates.
Import RandomIdentitySampler.

(** A chunk queued for [p]: [num_instances] positions of the group of [p]. *)
Definition chunk_ok (s : t) (p : Z) (c : list nat) : Prop :=
  len c = num_instances s /\ incl c (dict_get (index_dic s) p).

Definition chunks_ok (s : t) (d : dict (list (list nat))) : Prop :=
  forall p, Forall (chunk_ok s p) (dict_get d p).

(** The chunks queued for [p] and the blocks [p] has emitted fit in what
    its padded group holds. *)
Definition within_budget (s : t) (emitted : Z -> nat)
           (d : dict (list (list nat))) : Prop :=
  forall p,
    (num_instances s * (Z.of_nat (emitted p) + len (dict_get d p))
     <= Z.max (len (dict_get (index_dic s) p)) (num_instances s))%Z.

(** A block of the output: the identity it was popped for, and its chunk. *)
Definition block_ok (s : t) (b : Z * list nat) : Prop :=
  chunk_ok s (fst b) (snd b).

Definition emitted_by (blocks : list (Z * list nat)) (p : Z) : nat :=
  count_occ Z.eq_dec (map fst blocks) p.

Definition loop_inv (s : t) (st : loop_state) (blocks : list (Z * list nat))
  : Prop :=
  final_idxs st = concat (map snd blocks) /\
  Forall (block_ok s) blocks /\
  chunks_ok s (batch_idxs_dict st) /\
  ((0 < num_instances s)%Z ->
   within_budget s (emitted_by blocks) (batch_idxs_dict st)).

End IdentityPredicates.

(** A block as the data source sees it: [num_instances] positions, every
    one of an item whose [pid] is the block's identity. *)
Definition identity_block (data_source : list Item) (num_instances : Z)
           (b : Z * list nat) : Prop :=
  len (snd b) = num_instances /\
  forall i, In i (snd b) ->
    exists it, nth_error data_source i = Some it /\ pid it = fst b.

(** The chunk budget of an identity:
    [floor(max(count, num_instances) / num_instances)]. *)
Definition chunk_budget (data_source : list Item) (num_instances : Z) (p : Z)
  : Z :=
  (Z.max (Z.of_nat (count_label pid data_source p)) num_instances
   / num_instances)%Z.

(** ** Data to run the code on *)

(** Identities [{0: [0, 1, 2], 1: [3], 2: [4, 5]}]. *)
Definition ex_items : list Item :=
  map (fun p => mkItem "" p 0 0) [0; 0; 0; 1; 2; 2]%Z.

(** *** Rounds of a balanced pass *)

(** A draw took [n_img] distinct positions out of the pool it found. *)
Definition draw_ok (n_img : Z) (dr : Draw) : Prop :=
  len (selected_idxs dr) = n_img /\
  NoDup (selected_idxs dr) /\
  (forall i, In i (selected_idxs dr) ->
     In i (pool_before dr) /\ ~ In i (pool_after dr)) /\
  Permutation (pool_before dr) (selected_idxs dr ++ pool_after dr).

(** A round drew once from each of [n_domain] distinct labels. *)
Definition round_ok (domains : list Z) (n_domain n_img : Z)
           (round : list Draw) : Prop :=
  len round = n_domain /\
  NoDup (map drawn_label round) /\
  incl (map drawn_label round) domains /\
  Forall (draw_ok n_img) round.

(** The pools after a sequence of draws. *)
Definition apply_draws (d : dict (list nat)) (draws : list Draw)
  : dict (list nat) :=
  fold_left (fun d dr => dict_set d (drawn_label dr) (pool_after dr)) draws d.

(** Every draw found the pool that the draws before it had left. *)
Fixpoint pools_follow (d : dict (list nat)) (draws : list Draw) : Prop :=
  match draws with
  | [] => True
  | dr :: rest =>
      pool_before dr = dict_get d (drawn_label dr) /\
      pools_follow (dict_set d (drawn_label dr) (pool_after dr)) rest
  end.

(** Some draw of the round left fewer than [n_img] positions. *)
Definition round_stops (n_img : Z) (round : list Draw) : bool :=
  existsb (fun dr => (len (pool_after dr) <? n_img)%Z) round.

(** Only the last round of a pass sets the stop flag. *)
Fixpoint stops_at_last (n_img : Z) (rounds : list (list Draw)) : Prop :=
  match rounds with
  | [] => False
  | [round] => round_stops n_img round = true
  | round :: rest =>
      round_stops n_img round = false /\ stops_at_last n_img rest
  end.

Definition pools_nodup (d : dict (list nat)) : Prop :=
  forall k, NoDup (dict_get d k).

(** A pass and the rounds it is made of. *)
Definition pass_in_rounds (s : sampler) (out : list nat)
           (rounds : list (list Draw)) : Prop :=
  out = concat (map selected_idxs (concat rounds)) /\
  len out = (len rounds * (n_img_per_domain s * n_domain s))%Z /\
  Forall (round_ok (domains s) (n_domain s) (n_img_per_domain s)) rounds /\
  pools_follow (domain_dict s) (concat rounds).

(** Cameras [{0: [0, 1, 2, 3], 1: [4, 5]}]. *)
Definition ex_cams : list Item :=
  map (fun c => mkItem "" 0 c 0) [0; 0; 0; 0; 1; 1]%Z.

(** [RandomDomainSampler(ex_cams, 2, 1)], its length measured on a pass
    that drew from camera 0 twice. *)
Definition ex_domain_sampler : sampler :=
  mkSampler ex_cams [(0%Z, [0; 1; 2; 3]); (1%Z, [4; 5])] [0; 1]%Z 2 2 1 4.

(** Cameras [{0: [0 .. 5], 1: [6]}]: camera 1 cannot give two images. *)
Definition ex_cams_short : list Item :=
  map (fun c => mkItem "" 0 c 0) [0; 0; 0; 0; 0; 0; 1]%Z.

Definition ex_short_sampler : sampler :=
  mkSampler ex_cams_short [(0%Z, [0; 1; 2; 3; 4; 5]); (1%Z, [6])] [0; 1]%Z
            2 2 1 6.

(** *** Shards of the inference sampler *)

(** The half-open range [[shard_size * rank, min(shard_size * (rank + 1),
    data_num))] with [shard_size = ceil(data_num / num_replicas)], as the
    specification words it. *)
Definition inference_shard (data_num num_replicas rank : Z) : list Z :=
  let shard_size := ((data_num + num_replicas - 1) / num_replicas)%Z in
  py_range (shard_size * rank) (Z.min (shard_size * (rank + 1)) data_num).

(** *** Shards of the distributed sampler *)

(** [torch.randperm(n)] is a permutation of [range(n)]. *)
Definition torch_ok (t : Torch) : Prop :=
  forall n seed, Permutation (randperm t n seed) (py_range 0 (Z.of_nat n)).

(** How many of [r], [r + R], [r + 2 R], ... lie below [L]. *)
Definition stride_count (r R L : Z) : Z :=
  if (r <? L)%Z then ((L - r - 1) / R + 1)%Z else 0%Z.

Definition item_at {A} (l : list A) (i : Z) : list A :=
  match nth_error l (Z.to_nat i) with
  | Some x => [x]
  | None => []
  end.

(** The elements of [l] at the positions congruent to [r] modulo [R]. *)
Definition residue_class {A} (R r : Z) (l : list A) : list A :=
  flat_map (item_at l)
           (filter (fun i => (i mod R =? r)%Z)
                   (map Z.of_nat (seq 0 (List.length l)))).

(** A computation that neither reads nor advances the random state. *)
Definition rng_free {A} (m : M A) : Prop :=
  exists r : outcome A,
    forall g, m g = match r with
                    | Ok a => Ok (a, g)
                    | Raise e => Raise e
                    | OutOfFuel => OutOfFuel
                    end.

(** The permutation of an epoch before the cut: [randperm] seeded by the
    epoch number, or [range(len(dataset))] without shuffling. *)
Definition epoch_permutation (t : Torch) (dataset : list Item)
           (shuffle : bool) (ep : Z) : list Z :=
  if shuffle then randperm t (List.length dataset) ep
  else py_range 0 (len dataset).

(** [total_size] as [__init__] computes it. *)
Definition total_size_of (dataset : list Item) (batch_size num_replicas : Z)
  : Z :=
  (len dataset / (num_replicas * batch_size) * (num_replicas * batch_size))%Z.

(** The shard of [rank] in epoch [ep]: the positions congruent to [rank]
    modulo [num_replicas] of the epoch's permutation cut to [total_size]. *)
Definition epoch_shard (t : Torch) (dataset : list Item) (shuffle : bool)
           (total_size num_replicas rank : Z) (ep : Z) : list Z :=
  residue_class num_replicas rank
    (firstn (Z.to_nat total_size) (epoch_permutation t dataset shuffle ep)).

(** A [torch] whose permutation reverses [range(n)] and then rotates it by
    the seed, and a module in which [torch] and [dist] are bound to it: a
    stand-in to run the distributed sampler on. *)
Definition rotate {A} (k : nat) (l : list A) : list A :=
  skipn (k mod List.length l) l ++ firstn (k mod List.length l) l.

Definition demo_torch : Torch :=
  mkTorch (fun n seed => rotate (Z.to_nat seed) (rev (py_range 0 (Z.of_nat n)))).

Definition demo_globals : Globals :=
  mkGlobals (Some demo_torch) (Some (mkDist true 2 0)).

Definition ex_items10 : list Item :=
  map (fun p => mkItem "" p 0 0) [0; 0; 0; 1; 2; 2; 3; 3; 3; 3]%Z.

(** [IterDistributedSampler(ex_items10, 2, 2, 2, 0)] under [demo_globals]. *)
Definition ex_distributed_sampler : IterDistributedSampler.t :=
  IterDistributedSampler.mk ex_items10 2 2 0 0 true 4 8 8
                            [9; 7; 5; 3; 8; 6; 4; 2]%Z.

(** *** Lengths *)

Definition zsum (l : list Z) : Z := fold_right Z.add 0%Z l.

(** The term of an identity in the length estimate of
    [RandomIdentitySampler]:
    [max(count, num_instances) - max(count, num_instances) % num_instances]. *)
Definition estimate_term (data_source : list Item) (num_instances : Z) (p : Z)
  : Z :=
  let num := Z.max (Z.of_nat (count_label pid data_source p)) num_instances in
  (num - num mod num_instances)%Z.

(** Two pass states whose pools have the same sizes. *)
Definition sizes_agree (domains : list Z) (st1 st2 : pass_state) : Prop :=
  forall k, In k domains ->
    len (dict_get (cur_dict st1) k) = len (dict_get (cur_dict st2) k).

(** [InferenceSampler(10, 3, 2)]. *)
Definition ex_inference_sampler : InferenceSampler.t :=
  InferenceSampler.mk 10 4 8 10 [8; 9]%Z.

(** [RandomIdentitySampler(ex_items, 4, 2)]. *)
Definition ex_identity_sampler : RandomIdentitySampler.t :=
  RandomIdentitySampler.mk ex_items 4 2 2
    [(0%Z, [0; 1; 2]); (1%Z, [3]); (2%Z, [4; 5])] [0; 1; 2]%Z 6.

(** [RandomDomainSampler(ex_cams, 2, None)]: both cameras in every round. *)
Definition ex_all_domains_sampler : sampler :=
  mkSampler ex_cams [(0%Z, [0; 1; 2; 3]); (1%Z, [4; 5])] [0; 1]%Z 1 2 2 4.

(** *** Progress of the identity loop *)

(** The chunks queued for the identities still available. *)
Definition queued (st : RandomIdentitySampler.loop_state) : nat :=
  list_sum (map (fun p => List.length
                            (dict_get (RandomIdentitySampler.batch_idxs_dict st)
                                      p))
                (RandomIdentitySampler.avai_pids st)).

(** The available identities are distinct and each has a chunk queued. *)
Definition loop_wf (st : RandomIdentitySampler.loop_state) : Prop :=
  NoDup (RandomIdentitySampler.avai_pids st) /\
  forall p, In p (RandomIdentitySampler.avai_pids st) ->
    dict_get (RandomIdentitySampler.batch_idxs_dict st) p <> [].

(** ** build_train_sampler

    [SequentialSampler] and [RandomSampler] come from
    [torch.utils.data.sampler]; the factory only hands them the data
    source, which is all that is kept of them here. *)








(** ** Further predicates *)

(** All the positions a dict of groups holds, group after group. *)
Definition pooled (d : dict (list nat)) : list nat := concat (map snd d).

(** ** Batches of an identity pass *)

(** A batch of a pass of [RandomIdentitySampler]: one block for each of
    [num_pids_per_batch] pairwise distinct identities. *)
Definition identity_batch (data_source : list Item)
           (num_pids_per_batch num_instances : Z)
           (batch : list (Z * list nat)) : Prop :=
  len batch = num_pids_per_batch /\
  NoDup (map fst batch) /\
  Forall (identity_block data_source num_instances) batch.

(** The chunks that the blocks of identity [p] carry, in the order of the
    pass. *)
Definition blocks_of (p : Z) (blocks : list (Z * list nat))
  : list (list nat) :=
  map snd (filter (fun b => (fst b =? p)%Z) blocks).


(** [IterDistributedSampler(ex_items10, 2, 2, 2, 1, shuffle=False)] under
    [demo_globals]. *)
Definition ex_unshuffled_sampler : IterDistributedSampler.t :=
  IterDistributedSampler.mk ex_items10 2 2 1 0 false 4 8 8
                            [1; 3; 5; 7; 1; 3; 5; 7]%Z.

(** * Properties *)

(** ** Outcomes *)

Lemma bind_Ok {A B} (m : M A) (k : A -> M B) g r :
  bind m k g = Ok r ->
  exists a g', m g = Ok (a, g') /\ k a g' = Ok r.
Proof.
  unfold bind. destruct (m g) as [[a g']| |]; try discriminate.
  intros H. exists a, g'. split; [reflexivity|exact H].
Qed.

Lemma bind_eq_Ok {A B} {m : M A} (k : A -> M B) {g a g'} :
  m g = Ok (a, g') -> bind m k g = k a g'.
Proof. unfold bind. intros ->. reflexivity. Qed.

Lemma bind_eq_Raise {A B} {m : M A} (k : A -> M B) {g e} :
  m g = Raise e -> bind m k g = Raise e.
Proof. unfold bind. intros ->. reflexivity. Qed.

Lemma ret_Ok {A} (a : A) g r : ret a g = Ok r -> r = (a, g).
Proof. unfold ret. congruence. Qed.

Lemma py_assert_Ok c g r : py_assert c g = Ok r -> c = true /\ r = (tt, g).
Proof.
  unfold py_assert. destruct c; cbn; [|discriminate].
  intros H. split; [reflexivity|]. now apply ret_Ok in H.
Qed.

Lemma floordiv_Ok a b g r :
  floordiv a b g = Ok r -> b <> 0%Z /\ r = ((a / b)%Z, g).
Proof.
  unfold floordiv. destruct (Z.eqb_spec b 0); cbn; [discriminate|].
  intros H. split; [assumption|]. now apply ret_Ok in H.
Qed.

Lemma pymod_Ok a b g r :
  pymod a b g = Ok r -> b <> 0%Z /\ r = ((a mod b)%Z, g).
Proof.
  unfold pymod. destruct (Z.eqb_spec b 0); cbn; [discriminate|].
  intros H. split; [assumption|]. now apply ret_Ok in H.
Qed.

(** Take a successful computation apart, one step at a time. *)
Ltac inv_ok :=
  repeat match goal with
    | H : bind _ _ _ = Ok _ |- _ =>
        let a := fresh "a" in let g := fresh "g" in
        let H1 := fresh "Hm" in let H2 := fresh "Hk" in
        apply bind_Ok in H; destruct H as (a & g & H1 & H2)
    | H : ret _ _ = Ok _ |- _ => apply ret_Ok in H
    | H : py_assert _ _ = Ok _ |- _ =>
        let Hc := fresh "Hc" in
        apply py_assert_Ok in H; destruct H as [Hc H]
    | H : floordiv _ _ _ = Ok _ |- _ =>
        let Hc := fresh "Hnz" in
        apply floordiv_Ok in H; destruct H as [Hc H]
    | H : pymod _ _ _ = Ok _ |- _ =>
        let Hc := fresh "Hnz" in
        apply pymod_Ok in H; destruct H as [Hc H]
    | H : raise _ _ = Ok _ |- _ => discriminate H
    | H : out_of_fuel _ = Ok _ |- _ => discriminate H
    | H : (_, _) = (_, _) |- _ => inversion H; subst; clear H
    end.

(** ** Draws *)

Lemma randbelow_Ok n g : exists j g', randbelow n g = Ok (j, g').
Proof. destruct g as [|r g]; cbn; eauto. Qed.

Lemma drop_nth_perm {A} {l : list A} {j x} :
  nth_error l j = Some x -> Permutation l (x :: drop_nth j l).
Proof.
  revert j. induction l as [|y l IH]; intros [|j] H; cbn in *; try discriminate.
  - inversion H; subst. unfold drop_nth. cbn. reflexivity.
  - unfold drop_nth in *. cbn. rewrite perm_swap. constructor. now apply IH.
Qed.

Lemma drop_nth_length {A} {l : list A} {j x} :
  nth_error l j = Some x -> S (List.length (drop_nth j l)) = List.length l.
Proof.
  intros H. apply drop_nth_perm in H. apply Permutation_length in H.
  cbn in H. symmetry. exact H.
Qed.

(** A successful draw of [k] splits the pool: the [k] drawn, and a rest. *)
Lemma sample_loop_Ok {A} k : forall (pool : list A) g res g',
  sample_loop k pool g = Ok (res, g') ->
  List.length res = k /\ exists rest, Permutation pool (res ++ rest).
Proof.
  induction k as [|k IH]; intros pool g res g' H; cbn in H.
  - inv_ok. split; [reflexivity|]. exists pool. reflexivity.
  - inv_ok. destruct (nth_error pool a) as [x|] eqn:Hn; [|discriminate].
    inv_ok. apply IH in Hm0. destruct Hm0 as [Hl [rest Hp]].
    split; [cbn; congruence|]. exists rest. cbn.
    rewrite (drop_nth_perm Hn). constructor. exact Hp.
Qed.

Lemma randbelow_lt n g j g' :
  0 < n -> randbelow n g = Ok (j, g') -> j < n.
Proof.
  intros Hn. destruct g as [|r g]; cbn; intros H; inversion H; subst.
  - exact Hn.
  - apply Nat.mod_upper_bound. lia.
Qed.

(** Drawing no more than the pool holds never fails. *)
Lemma sample_loop_total {A} k : forall (pool : list A) g,
  k <= List.length pool -> exists res g', sample_loop k pool g = Ok (res, g').
Proof.
  induction k as [|k IH]; intros pool g Hk; cbn.
  - eexists _, _. reflexivity.
  - destruct (randbelow_Ok (List.length pool) g) as (j & g1 & Hj).
    rewrite (bind_eq_Ok _ Hj).
    assert (Hlt : j < List.length pool) by (eapply randbelow_lt; [lia|eassumption]).
    destruct (nth_error pool j) as [x|] eqn:Hn.
    2:{ apply nth_error_None in Hn. lia. }
    pose proof (drop_nth_length Hn) as Hl.
    destruct (IH (drop_nth j pool) g1) as (res & g2 & Hr); [lia|].
    rewrite (bind_eq_Ok _ Hr). eexists _, _. reflexivity.
Qed.

(** Drawing more than the pool holds fails. *)
Lemma sample_loop_short {A} k : forall (pool : list A) g,
  List.length pool < k -> sample_loop k pool g = Raise ValueError.
Proof.
  induction k as [|k IH]; intros pool g Hk; [lia|]. cbn.
  destruct (randbelow_Ok (List.length pool) g) as (j & g1 & Hj).
  rewrite (bind_eq_Ok _ Hj).
  destruct (nth_error pool j) as [x|] eqn:Hn; [|reflexivity].
  pose proof (drop_nth_length Hn) as Hl.
  rewrite (bind_eq_Raise _ (IH (drop_nth j pool) g1 ltac:(lia))).
  reflexivity.
Qed.

Lemma random_sample_Ok {A} (population : list A) k g res g' :
  random_sample population k g = Ok (res, g') ->
  (0 <= k <= len population)%Z /\ len res = k /\
  exists rest, Permutation population (res ++ rest).
Proof.
  unfold random_sample.
  destruct (Z.ltb_spec k 0); cbn; [discriminate|].
  destruct (Z.ltb_spec (len population) k); cbn; [discriminate|].
  intros Hs. apply sample_loop_Ok in Hs. destruct Hs as [Hl Hp].
  unfold len in *. split; [lia|]. split; [lia|exact Hp].
Qed.

Lemma random_sample_total {A} (population : list A) k g :
  (0 <= k <= len population)%Z ->
  exists res g', random_sample population k g = Ok (res, g').
Proof.
  intros Hk. unfold random_sample.
  destruct (Z.ltb_spec k 0); [lia|].
  destruct (Z.ltb_spec (len population) k); [lia|]. cbn.
  apply sample_loop_total. unfold len in *. lia.
Qed.

Lemma random_sample_Raise {A} (population : list A) k g :
  (k < 0 \/ len population < k)%Z ->
  random_sample population k g = Raise ValueError.
Proof.
  intros Hk. unfold random_sample.
  destruct (Z.ltb_spec k 0); [reflexivity|].
  destruct (Z.ltb_spec (len population) k); [reflexivity|]. lia.
Qed.

Lemma random_shuffle_Ok {A} (x : list A) g res g' :
  random_shuffle x g = Ok (res, g') -> Permutation x res.
Proof.
  unfold random_shuffle. intros H. apply sample_loop_Ok in H.
  destruct H as [Hl [rest Hp]].
  assert (rest = []).
  { apply Permutation_length in Hp. rewrite length_app in Hp.
    destruct rest; [reflexivity|]. cbn in Hp. lia. }
  subst. now rewrite app_nil_r in Hp.
Qed.

Lemma random_shuffle_total {A} (x : list A) g :
  exists res g', random_shuffle x g = Ok (res, g').
Proof. apply sample_loop_total. lia. Qed.

Lemma choice_loop_Ok {A} size : forall (a : list A) d g res g',
  a <> [] ->
  choice_loop size a d g = Ok (res, g') ->
  List.length res = size /\ incl res a.
Proof.
  induction size as [|n IH]; intros a d g res g' Hne H; cbn in H.
  - inv_ok. split; [reflexivity|]. intros x [].
  - inv_ok. apply IH in Hm0; [|assumption]. destruct Hm0 as [Hl Hi].
    split; [cbn; congruence|].
    intros x [<-|Hx]; [|now apply Hi].
    apply nth_In. eapply randbelow_lt; [|eassumption].
    destruct a; [congruence|cbn; lia].
Qed.

Lemma choice_loop_total {A} size : forall (a : list A) d g,
  exists res g', choice_loop size a d g = Ok (res, g').
Proof.
  induction size as [|n IH]; intros a d g; cbn.
  - eexists _, _. reflexivity.
  - destruct (randbelow_Ok (List.length a) g) as (j & g1 & Hj).
    rewrite (bind_eq_Ok _ Hj).
    destruct (IH a d g1) as (res & g2 & Hr).
    rewrite (bind_eq_Ok _ Hr). eexists _, _. reflexivity.
Qed.

Lemma np_random_choice_Ok {A} (a : list A) size g res g' :
  np_random_choice a size g = Ok (res, g') ->
  len res = size /\ incl res a.
Proof.
  unfold np_random_choice. destruct (Z.ltb_spec size 0); [discriminate|].
  destruct a as [|d a].
  - destruct (Z.eqb_spec size 0); [|discriminate].
    intros Hr. inv_ok. split; [subst; reflexivity|]. intros x [].
  - intros Hc. apply choice_loop_Ok in Hc; [|discriminate].
    destruct Hc as [Hl Hi]. split; [unfold len; lia|exact Hi].
Qed.

(** ** Dicts and the index *)

Lemma dict_get_set {A} (d : dict (list A)) k v k' :
  dict_get (dict_set d k v) k' = if (k =? k')%Z then v else dict_get d k'.
Proof.
  induction d as [|[k0 v0] d IH]; cbn.
  - destruct (Z.eqb_spec k k'); reflexivity.
  - destruct (Z.eqb_spec k0 k) as [->|Hne]; cbn.
    + destruct (Z.eqb_spec k k'); reflexivity.
    + rewrite IH. destruct (Z.eqb_spec k0 k') as [->|Hne'].
      * destruct (Z.eqb_spec k k'); [congruence|reflexivity].
      * reflexivity.
Qed.

Lemma dict_get_set_same {A} (d : dict (list A)) k v :
  dict_get (dict_set d k v) k = v.
Proof. rewrite dict_get_set, Z.eqb_refl. reflexivity. Qed.

Lemma dict_get_set_other {A} (d : dict (list A)) k v k' :
  k <> k' -> dict_get (dict_set d k v) k' = dict_get d k'.
Proof.
  intros H. rewrite dict_get_set. destruct (Z.eqb_spec k k'); congruence.
Qed.

Lemma dict_get_append {A} (d : dict (list A)) k x k' :
  dict_get (dict_append d k x) k' =
  if (k =? k')%Z then dict_get d k ++ [x] else dict_get d k'.
Proof. unfold dict_append. apply dict_get_set. Qed.

Lemma keys_set_in {V} (d : dict V) k v :
  In k (keys d) -> keys (dict_set d k v) = keys d.
Proof.
  induction d as [|[k0 v0] d IH]; cbn; [intros []|].
  destruct (Z.eqb_spec k0 k) as [->|Hne]; cbn; [reflexivity|].
  intros [H|H]; [congruence|]. f_equal. now apply IH.
Qed.

Lemma keys_set_new {V} (d : dict V) k v :
  ~ In k (keys d) -> keys (dict_set d k v) = keys d ++ [k].
Proof.
  induction d as [|[k0 v0] d IH]; cbn; [reflexivity|].
  intros Hn. destruct (Z.eqb_spec k0 k) as [->|Hne]; cbn.
  - exfalso. apply Hn. now left.
  - f_equal. apply IH. intros H. apply Hn. now right.
Qed.

Lemma keys_set_NoDup {V} (d : dict V) k v :
  NoDup (keys d) -> NoDup (keys (dict_set d k v)).
Proof.
  intros Hd. destruct (in_dec Z.eq_dec k (keys d)) as [Hin|Hout].
  - now rewrite keys_set_in.
  - rewrite keys_set_new by assumption.
    apply NoDup_app; [assumption|repeat constructor; intros []|].
    intros x Hx [<-|[]]. contradiction.
Qed.

Lemma keys_set_In {V} (d : dict V) k v k' :
  In k' (keys (dict_set d k v)) <-> In k' (keys d) \/ k' = k.
Proof.
  destruct (in_dec Z.eq_dec k (keys d)) as [Hin|Hout].
  - rewrite keys_set_in by assumption. split; [tauto|].
    intros [H| ->]; assumption.
  - rewrite keys_set_new by assumption. rewrite in_app_iff. cbn.
    split; intros [H|H]; auto; try (destruct H as [H|[]]; auto).
Qed.

Section Index.

Variable label : Item -> Z.

Lemma index_by_unfold data_source :
  index_by label data_source = fold_left (index_step label) (enumerate data_source) [].
Proof. reflexivity. Qed.

Lemma fold_index_get l : forall d k,
  dict_get (fold_left (index_step label) l d) k =
  dict_get d k ++ map fst (filter (has_label label k) l).
Proof.
  induction l as [|[i it] l IH]; intros d k; cbn.
  - now rewrite app_nil_r.
  - rewrite IH, dict_get_append. unfold has_label at 2. cbn.
    destruct (Z.eqb_spec (label it) k) as [->|Hne]; cbn.
    + now rewrite <- app_assoc.
    + reflexivity.
Qed.

Lemma fold_index_keys l : forall d k,
  In k (keys (fold_left (index_step label) l d)) <->
  In k (keys d) \/ exists p, In p l /\ label (snd p) = k.
Proof.
  induction l as [|[i it] l IH]; intros d k.
  - cbn. split; [tauto|]. intros [H|(p & [] & _)]. exact H.
  - simpl fold_left. rewrite IH. unfold index_step, dict_append.
    rewrite keys_set_In. split.
    + intros [[H| ->]|(p & Hp & Hl)]; eauto.
      * right. exists (i, it). split; [now left|reflexivity].
      * right. exists p. split; [now right|assumption].
    + intros [H|(p & [<-|Hp] & Hl)]; eauto.
Qed.

Lemma fold_index_NoDup l : forall d,
  NoDup (keys d) -> NoDup (keys (fold_left (index_step label) l d)).
Proof.
  induction l as [|[i it] l IH]; intros d Hd; [assumption|].
  simpl fold_left. apply IH. unfold index_step, dict_append.
  now apply keys_set_NoDup.
Qed.

(** The group of [k]: the positions of the items labelled [k], in order. *)
Lemma index_by_get data_source k :
  dict_get (index_by label data_source) k =
  map fst (filter (has_label label k) (enumerate data_source)).
Proof. rewrite index_by_unfold, fold_index_get. reflexivity. Qed.

Lemma index_by_keys_NoDup data_source :
  NoDup (keys (index_by label data_source)).
Proof. rewrite index_by_unfold. apply fold_index_NoDup. constructor. Qed.

Lemma in_enumerate_aux (l : list Item) : forall a i it,
  In (i, it) (combine (seq a (List.length l)) l) <->
  a <= i /\ nth_error l (i - a) = Some it.
Proof.
  induction l as [|x l IH]; intros a i it; cbn.
  - split; [intros []|]. intros [_ H]. destruct (i - a); discriminate.
  - rewrite IH. split.
    + intros [H|[Hle Hn]].
      * inversion H; subst. rewrite Nat.sub_diag. auto.
      * split; [lia|]. replace (i - a) with (S (i - S a)) by lia. exact Hn.
    + intros [Hle Hn]. destruct (i - a) as [|m] eqn:E; cbn in Hn.
      * left. inversion Hn. f_equal. lia.
      * right. split; [lia|]. replace (i - S a) with m by lia. exact Hn.
Qed.

Lemma in_enumerate (l : list Item) i it :
  In (i, it) (enumerate l) <-> nth_error l i = Some it.
Proof.
  unfold enumerate. rewrite in_enumerate_aux, Nat.sub_0_r.
  split; [tauto|]. intros H. split; [lia|exact H].
Qed.

Lemma enumerate_fst (l : list Item) : map fst (enumerate l) = seq 0 (List.length l).
Proof.
  unfold enumerate. generalize 0. induction l as [|x l IH]; intros a; cbn.
  - reflexivity.
  - f_equal. apply IH.
Qed.

Lemma NoDup_map_fst_filter {A B} (P : A * B -> bool) (l : list (A * B)) :
  NoDup (map fst l) -> NoDup (map fst (filter P l)).
Proof.
  induction l as [|x l IH]; cbn; intros H; [constructor|].
  inversion H; subst. destruct (P x); cbn; [|now apply IH].
  constructor; [|now apply IH].
  intros Hin. apply H2. apply in_map_iff in Hin.
  destruct Hin as (y & Hy & Hf). apply filter_In in Hf.
  apply in_map_iff. exists y. tauto.
Qed.

(** A position is in the group of [k] exactly when its item is labelled
    [k]. *)
Lemma index_by_In data_source k i :
  In i (dict_get (index_by label data_source) k) <->
  exists it, nth_error data_source i = Some it /\ label it = k.
Proof.
  rewrite index_by_get, in_map_iff. split.
  - intros ([j it] & Hj & Hf). cbn in Hj. subst j.
    apply filter_In in Hf. destruct Hf as [Hin Hl].
    apply in_enumerate in Hin. unfold has_label in Hl. cbn in Hl.
    exists it. split; [assumption|]. now apply Z.eqb_eq.
  - intros (it & Hn & Hl). exists (i, it). split; [reflexivity|].
    apply filter_In. split; [now apply in_enumerate|].
    unfold has_label. cbn. now apply Z.eqb_eq.
Qed.

Lemma index_by_group_NoDup data_source k :
  NoDup (dict_get (index_by label data_source) k).
Proof.
  rewrite index_by_get. apply NoDup_map_fst_filter.
  rewrite enumerate_fst. apply seq_NoDup.
Qed.

Lemma index_by_count_aux (l : list Item) k : forall a,
  List.length (filter (has_label label k) (combine (seq a (List.length l)) l)) =
  List.length (filter (fun it => (label it =? k)%Z) l).
Proof.
  induction l as [|x l IH]; intros a; cbn; [reflexivity|].
  unfold has_label at 1. cbn. destruct (label x =? k)%Z; cbn; now rewrite IH.
Qed.

Lemma index_by_count data_source k :
  List.length (dict_get (index_by label data_source) k) =
  count_label label data_source k.
Proof.
  rewrite index_by_get, length_map. apply index_by_count_aux.
Qed.

Lemma index_by_keys data_source k :
  In k (keys (index_by label data_source)) <->
  exists it, In it data_source /\ label it = k.
Proof.
  rewrite index_by_unfold, fold_index_keys. cbn. split.
  - intros [[]|([i it] & Hp & Hl)]. apply in_enumerate in Hp.
    exists it. split; [eapply nth_error_In; eassumption|assumption].
  - intros (it & Hin & Hl). right. apply In_nth_error in Hin.
    destruct Hin as [i Hi]. exists (i, it). split; [|assumption].
    now apply in_enumerate.
Qed.

End Index.

(** ** RandomIdentitySampler: the chunks and the blocks of a pass *)

Section IdentityFacts.
Import RandomIdentitySampler.

Lemma chunk_fold ni p idxs : forall acc d acc' d',
  fold_left (chunk_step ni p) idxs (acc, d) = (acc', d') ->
  (forall q, q <> p -> dict_get d' q = dict_get d q) /\
  exists new,
    dict_get d' p = dict_get d p ++ new /\
    Forall (fun c => len c = ni /\ incl c (acc ++ idxs)) new /\
    ((0 < ni)%Z -> (len acc < ni)%Z ->
     (ni * len new + len acc' = len acc + len idxs)%Z /\ (len acc' < ni)%Z).
Proof.
  induction idxs as [|idx idxs IH]; intros acc d acc' d' H.
  - cbn in H. inversion H; subst. split; [reflexivity|].
    exists []. rewrite app_nil_r. split; [reflexivity|].
    split; [constructor|]. intros Hni Hacc. unfold len in *. cbn. lia.
  - cbn [fold_left] in H. unfold chunk_step at 2 in H.
    destruct (Z.eqb_spec (len (acc ++ [idx])) ni) as [Heq|Hne].
    + apply IH in H. destruct H as [Hoth (new & Hget & Hall & Hcnt)].
      split.
      * intros q Hq. rewrite (Hoth q Hq), dict_get_append.
        destruct (Z.eqb_spec p q); congruence.
      * exists ((acc ++ [idx]) :: new). rewrite Hget, dict_get_append.
        rewrite Z.eqb_refl, <- app_assoc. split; [reflexivity|]. split.
        -- constructor.
           ++ split; [assumption|]. intros x Hx. apply in_app_iff.
              apply in_app_iff in Hx. destruct Hx as [Hx|[<-|[]]]; [now left|].
              right. now left.
           ++ eapply Forall_impl; [|exact Hall]. intros c [Hc Hi].
              split; [assumption|]. intros x Hx. apply Hi in Hx. cbn in Hx.
              apply in_app_iff. right. now right.
        -- intros Hni Hacc. destruct (Hcnt Hni) as [Hc1 Hc2].
           { unfold len. cbn. lia. }
           unfold len in *. rewrite length_app in Heq. cbn in *. lia.
    + apply IH in H. destruct H as [Hoth (new & Hget & Hall & Hcnt)].
      split; [assumption|]. exists new. split; [assumption|]. split.
      * eapply Forall_impl; [|exact Hall]. intros c [Hc Hi].
        split; [assumption|]. intros x Hx. apply Hi in Hx.
        rewrite <- app_assoc in Hx. exact Hx.
      * intros Hni Hacc. unfold len in *. rewrite length_app in *. cbn in *.
        destruct (Hcnt Hni) as [Hc1 Hc2]; lia.
Qed.

(** What [prepare_pid] adds to the dict: chunks of [pid] only, no more
    than the padded group holds. *)
Lemma prepare_pid_Ok s p d g d' g' :
  prepare_pid s p d g = Ok (d', g') ->
  (forall q, q <> p -> dict_get d' q = dict_get d q) /\
  exists new,
    dict_get d' p = dict_get d p ++ new /\
    Forall (chunk_ok s p) new /\
    ((0 < num_instances s)%Z ->
     (num_instances s * len new
      <= Z.max (len (dict_get (index_dic s) p)) (num_instances s))%Z).
Proof.
  unfold prepare_pid. intros H. inv_ok.
  rename a into idxs1, a0 into idxs2.
  assert (Hpad : incl idxs1 (dict_get (index_dic s) p) /\
                 len idxs1 = Z.max (len (dict_get (index_dic s) p))
                                   (num_instances s)).
  { destruct (Z.ltb_spec (len (dict_get (index_dic s) p)) (num_instances s)).
    - apply np_random_choice_Ok in Hm. destruct Hm as [Hl Hi].
      split; [assumption|lia].
    - inv_ok. split; [apply incl_refl|lia]. }
  destruct Hpad as [Hincl Hlen].
  apply random_shuffle_Ok in Hm0.
  destruct (fold_left (chunk_step (num_instances s) p) idxs2 ([], d))
    as [acc' d''] eqn:Hf.
  cbn. apply chunk_fold in Hf. destruct Hf as [Hoth (new & Hget & Hall & Hcnt)].
  split; [assumption|]. exists new. split; [assumption|]. split.
  - eapply Forall_impl; [|exact Hall]. intros c [Hc Hi].
    split; [assumption|]. intros x Hx. apply Hi in Hx. cbn in Hx.
    apply Hincl. eapply Permutation_in; [symmetry; eassumption|assumption].
  - intros Hni. destruct (Hcnt Hni) as [Hc1 Hc2]; [unfold len; cbn; lia|].
    apply Permutation_length in Hm0. unfold len in *. cbn in *. lia.
Qed.

Lemma prepare_all_Ok s l : forall d g d' g',
  for_each l (prepare_pid s) d g = Ok (d', g') ->
  NoDup l ->
  (forall p, In p l -> dict_get d p = []) ->
  chunks_ok s d ->
  ((0 < num_instances s)%Z -> within_budget s (fun _ => 0) d) ->
  chunks_ok s d' /\
  ((0 < num_instances s)%Z -> within_budget s (fun _ => 0) d').
Proof.
  induction l as [|p l IH]; intros d g d' g' H Hnd Hempty Hok Hb.
  - cbn in H. inv_ok. split; assumption.
  - cbn in H. inv_ok. rename a into d1.
    apply prepare_pid_Ok in Hm. destruct Hm as [Hoth (new & Hget & Hall & Hcnt)].
    inversion Hnd; subst.
    rewrite (Hempty p (or_introl eq_refl)) in Hget. cbn in Hget.
    eapply IH; [eassumption|assumption| | |].
    + intros q Hq. rewrite Hoth; [apply Hempty; now right|].
      intros ->. contradiction.
    + intros q. destruct (Z.eq_dec q p) as [->|Hne].
      * rewrite Hget. exact Hall.
      * rewrite Hoth by assumption. apply Hok.
    + intros Hni q. destruct (Z.eq_dec q p) as [->|Hne].
      * rewrite Hget. cbn. specialize (Hcnt Hni). lia.
      * rewrite Hoth by assumption. apply (Hb Hni).
Qed.

Lemma emitted_by_snoc blocks p c q :
  emitted_by (blocks ++ [(p, c)]) q =
  emitted_by blocks q + (if Z.eq_dec p q then 1 else 0).
Proof.
  unfold emitted_by. rewrite map_app, count_occ_app. cbn.
  destruct (Z.eq_dec p q); reflexivity.
Qed.

Lemma take_chunk_inv s p st g st' g' blocks :
  take_chunk p st g = Ok (st', g') ->
  loop_inv s st blocks ->
  exists c, loop_inv s st' (blocks ++ [(p, c)]).
Proof.
  unfold take_chunk. intros H (Hfin & Hblocks & Hchunks & Hbud).
  destruct (dict_get (batch_idxs_dict st) p) as [|c rest] eqn:Hq;
    [discriminate|].
  assert (Hst : batch_idxs_dict st' = dict_set (batch_idxs_dict st) p rest /\
                final_idxs st' = final_idxs st ++ c).
  { destruct (len rest =? 0)%Z.
    - destruct (list_remove Z.eqb p (avai_pids st)); [|discriminate].
      inv_ok. cbn. auto.
    - inv_ok. cbn. auto. }
  destruct Hst as [Hd Hf]. exists c.
  pose proof (Hchunks p) as Hcp. rewrite Hq in Hcp. inversion Hcp; subst.
  split; [|split; [|split]].
  - rewrite Hf, Hfin, map_app, concat_app. cbn. now rewrite app_nil_r.
  - apply Forall_app. split; [assumption|].
    constructor; [exact H2|constructor].
  - intros q. rewrite Hd, dict_get_set.
    destruct (Z.eqb_spec p q) as [<-|Hne]; [assumption|apply Hchunks].
  - intros Hni q. rewrite Hd, dict_get_set, emitted_by_snoc.
    specialize (Hbud Hni q).
    destruct (Z.eqb_spec p q) as [Heq|Hne]; destruct (Z.eq_dec p q);
      try congruence.
    + subst q. rewrite Hq in Hbud. unfold len in *.
      cbn [List.length] in Hbud. lia.
    + rewrite Nat.add_0_r. exact Hbud.
Qed.

Lemma take_chunks_inv s selected : forall st g st' g',
  for_each selected take_chunk st g = Ok (st', g') ->
  (exists blocks, loop_inv s st blocks) ->
  exists blocks, loop_inv s st' blocks.
Proof.
  induction selected as [|p selected IH]; intros st g st' g' H [blocks Hinv].
  - cbn in H. inv_ok. eauto.
  - cbn in H. inv_ok.
    destruct (take_chunk_inv _ _ _ _ _ _ _ Hm Hinv) as [c Hc].
    eapply IH; [eassumption|eauto].
Qed.

Lemma while_loop_inv s fuel : forall st g out g',
  while_loop fuel (num_pids_per_batch s) st g = Ok (out, g') ->
  (exists blocks, loop_inv s st blocks) ->
  exists st' blocks, out = final_idxs st' /\ loop_inv s st' blocks.
Proof.
  induction fuel as [|fuel IH]; intros st g out g' H Hinv; cbn in H.
  - discriminate.
  - destruct (num_pids_per_batch s <=? len (avai_pids st))%Z.
    + inv_ok. eapply IH; [eassumption|].
      eapply take_chunks_inv; eassumption.
    + inv_ok. destruct Hinv as [blocks Hinv]. eauto.
Qed.

(** What a successful construction has checked and stored. *)
Lemma init_Ok data_source batch_size num_instances g s g' :
  init data_source batch_size num_instances g = Ok (s, g') ->
  g' = g /\
  (num_instances <= batch_size)%Z /\ num_instances <> 0%Z /\
  (batch_size / num_instances <= len (keys (index_by pid data_source)))%Z /\
  s = mk data_source batch_size num_instances (batch_size / num_instances)
         (index_by pid data_source) (keys (index_by pid data_source))
         (fold_left (estimate_step (index_by pid data_source) num_instances)
                    (keys (index_by pid data_source)) 0%Z).
Proof.
  unfold init. destruct (Z.ltb_spec batch_size num_instances); [discriminate|].
  intros H0. inv_ok. apply Z.leb_le in Hc.
  split; [reflexivity|]. split; [lia|]. split; [assumption|].
  split; [assumption|reflexivity].
Qed.

(** With a negative [num_instances] no chunk is ever queued... *)
Lemma chunks_ok_negative s d p :
  (num_instances s < 0)%Z -> chunks_ok s d -> dict_get d p = [].
Proof.
  intros Hni Hok. specialize (Hok p).
  destruct (dict_get d p) as [|c rest]; [reflexivity|].
  inversion Hok; subst. destruct H1 as [Hl _]. unfold len in Hl. lia.
Qed.

(** ... and the loop, which starts with enough identities, cannot leave. *)
Lemma while_loop_empty npb fuel : forall st g r,
  (forall p, dict_get (batch_idxs_dict st) p = []) ->
  (npb <= len (avai_pids st))%Z ->
  while_loop fuel npb st g <> Ok r.
Proof.
  induction fuel as [|fuel IH]; intros st g r Hempty Hle H; cbn in H.
  - discriminate.
  - destruct (Z.leb_spec npb (len (avai_pids st))); [|lia].
    inv_ok. destruct a as [|p selected].
    + cbn in Hm0. inv_ok. eapply IH; eassumption.
    + cbn in Hm0. inv_ok. unfold take_chunk in Hm1.
      rewrite Hempty in Hm1. discriminate.
Qed.

Lemma iter_inv s fuel g out g' :
  NoDup (pids s) ->
  iter s fuel g = Ok (out, g') ->
  exists st blocks, out = final_idxs st /\ loop_inv s st blocks.
Proof.
  unfold iter. intros Hnd H. inv_ok.
  apply prepare_all_Ok in Hm; try assumption.
  - destruct Hm as [Hok Hb]. eapply while_loop_inv; [eassumption|].
    exists []. split; [reflexivity|]. split; [constructor|].
    split; [assumption|]. exact Hb.
  - reflexivity.
  - intros p. constructor.
  - intros Hni p. cbn. lia.
Qed.

Lemma iter_negative s fuel g r :
  NoDup (pids s) ->
  (num_instances s < 0)%Z ->
  (num_pids_per_batch s <= len (pids s))%Z ->
  iter s fuel g <> Ok r.
Proof.
  unfold iter. intros Hnd Hni Hle H. inv_ok.
  apply prepare_all_Ok in Hm; try assumption.
  - destruct Hm as [Hok _]. revert Hk. apply while_loop_empty.
    + intros p. cbn. eapply chunks_ok_negative; eassumption.
    + exact Hle.
  - reflexivity.
  - intros p. constructor.
  - intros Hpos. lia.
Qed.

Lemma block_ok_identity data_source batch_size num_instances g s g' b :
  init data_source batch_size num_instances g = Ok (s, g') ->
  block_ok s b -> identity_block data_source num_instances b.
Proof.
  intros Hi [Hl Hin]. apply init_Ok in Hi.
  destruct Hi as (_ & _ & _ & _ & ->). cbn in *.
  split; [assumption|]. intros i Hi. apply Hin in Hi.
  now apply index_by_In in Hi.
Qed.

End IdentityFacts.


(** ** RandomDomainSampler and RandomDatasetSampler: draws and rounds *)

Section ListRemove.
Variable A : Type.
Variable eqb : A -> A -> bool.
Hypothesis eqb_eq : forall a b, eqb a b = true <-> a = b.

Lemma list_remove_perm x l : forall l',
  list_remove eqb x l = Some l' -> Permutation l (x :: l').
Proof.
  induction l as [|y l IH]; intros l' H; cbn in H; [discriminate|].
  destruct (eqb y x) eqn:E.
  - apply eqb_eq in E. inversion H; subst. reflexivity.
  - destruct (list_remove eqb x l) as [r|]; [|discriminate].
    inversion H; subst. rewrite perm_swap. constructor. now apply IH.
Qed.

Lemma list_remove_In x l :
  In x l -> exists l', list_remove eqb x l = Some l'.
Proof.
  induction l as [|y l IH]; intros H; [destruct H|]. cbn.
  destruct (eqb y x) eqn:E; [eauto|].
  destruct H as [H|H].
  - subst. rewrite (proj2 (eqb_eq x x) eq_refl) in E. discriminate.
  - destruct (IH H) as [l' ->]. eauto.
Qed.

End ListRemove.

Lemma remove_all_perm selected : forall idxs rest,
  remove_all selected idxs = Some rest ->
  Permutation idxs (selected ++ rest).
Proof.
  induction selected as [|x selected IH]; intros idxs rest H; cbn in H.
  - inversion H; subst. reflexivity.
  - destruct (list_remove Nat.eqb x idxs) as [idxs'|] eqn:Hr; [|discriminate].
    apply (list_remove_perm _ _ Nat.eqb_eq) in Hr. apply IH in H.
    rewrite Hr. cbn. now constructor.
Qed.

(** What was drawn from a list can be removed from it. *)
Lemma remove_all_total selected : forall idxs rest0,
  Permutation idxs (selected ++ rest0) ->
  exists rest, remove_all selected idxs = Some rest.
Proof.
  induction selected as [|x selected IH]; intros idxs rest0 Hp; cbn.
  - eauto.
  - assert (Hin : In x idxs).
    { eapply Permutation_in; [symmetry; exact Hp|]. now left. }
    destruct (list_remove_In _ _ Nat.eqb_eq _ _ Hin) as [idxs' Hr]. rewrite Hr.
    apply (list_remove_perm _ _ Nat.eqb_eq) in Hr. apply (IH idxs' rest0).
    rewrite Hr in Hp. cbn in Hp. eapply Permutation_cons_inv. exact Hp.
Qed.

Lemma NoDup_app_parts {A} (l1 l2 : list A) :
  NoDup (l1 ++ l2) ->
  NoDup l1 /\ NoDup l2 /\ forall x, In x l1 -> ~ In x l2.
Proof.
  intros H. split; [eapply NoDup_app_remove_r; eassumption|].
  split; [eapply NoDup_app_remove_l; eassumption|].
  induction l1 as [|a l1 IH]; intros x Hx; [destruct Hx|].
  cbn in H. inversion H; subst. destruct Hx as [<-|Hx].
  - intros Hin. apply H2. apply in_app_iff. now right.
  - now apply IH.
Qed.

Lemma draw_domain_Ok n_img k st g st' dr g' :
  draw_domain n_img k st g = Ok ((st', dr), g') ->
  exists sel rest,
    dr = mkDraw k (dict_get (cur_dict st) k) sel rest /\
    st' = mkPass (dict_set (cur_dict st) k rest) (final_idxs st ++ sel)
                 ((len rest <? n_img)%Z || stop_sampling st) /\
    len sel = n_img /\
    Permutation (dict_get (cur_dict st) k) (sel ++ rest).
Proof.
  unfold draw_domain. intros H. inv_ok. rename a into sel.
  destruct (remove_all sel (dict_get (cur_dict st) k)) as [rest|] eqn:Hr;
    [|discriminate].
  inv_ok. exists sel, rest. apply random_sample_Ok in Hm.
  destruct Hm as (_ & Hl & _). apply remove_all_perm in Hr.
  split; [reflexivity|]. split; [|split; assumption].
  destruct (len rest <? n_img)%Z; reflexivity.
Qed.

Lemma draw_domain_draw_ok n_img k st g st' dr g' :
  draw_domain n_img k st g = Ok ((st', dr), g') ->
  pools_nodup (cur_dict st) ->
  draw_ok n_img dr /\ pools_nodup (cur_dict st').
Proof.
  intros H Hnd. apply draw_domain_Ok in H.
  destruct H as (sel & rest & -> & -> & Hl & Hp). cbn.
  pose proof (Hnd k) as Hk.
  assert (Hsr : NoDup (sel ++ rest)).
  { eapply Permutation_NoDup; eassumption. }
  apply NoDup_app_parts in Hsr. destruct Hsr as (Hs & Hr & Hdis).
  split.
  - unfold draw_ok. cbn. split; [assumption|]. split; [assumption|].
    split; [|assumption]. intros i Hi. split; [|now apply Hdis].
    eapply Permutation_in; [symmetry; exact Hp|]. apply in_app_iff. now left.
  - intros q. rewrite dict_get_set. destruct (k =? q)%Z; [assumption|apply Hnd].
Qed.

(** As [inv_ok], and open the pairs a step returns. *)
Ltac inv_ok_pairs :=
  repeat (inv_ok;
          match goal with
          | H : (match ?a with (_, _) => _ end) _ = Ok _ |- _ => destruct a
          | H : (let '(_, _) := ?a in _) _ = Ok _ |- _ => destruct a
          end);
  inv_ok.

Lemma pools_follow_app d draws1 : forall draws2,
  pools_follow d draws1 ->
  pools_follow (apply_draws d draws1) draws2 ->
  pools_follow d (draws1 ++ draws2).
Proof.
  revert d. induction draws1 as [|dr draws1 IH]; intros d draws2 H1 H2.
  - exact H2.
  - cbn in *. destruct H1 as [Hb H1]. split; [assumption|]. now apply IH.
Qed.

Lemma sample_round_Ok n_img selected : forall st g st' drs g',
  sample_round n_img selected st g = Ok ((st', drs), g') ->
  pools_nodup (cur_dict st) ->
  map drawn_label drs = selected /\
  Forall (draw_ok n_img) drs /\
  pools_follow (cur_dict st) drs /\
  cur_dict st' = apply_draws (cur_dict st) drs /\
  final_idxs st' = final_idxs st ++ concat (map selected_idxs drs) /\
  stop_sampling st' = round_stops n_img drs || stop_sampling st /\
  pools_nodup (cur_dict st').
Proof.
  induction selected as [|k selected IH]; intros st g st' drs g' H Hnd.
  - cbn in H. inv_ok. cbn. rewrite app_nil_r.
    repeat (split; [first [reflexivity|constructor]|]). assumption.
  - cbn [sample_round] in H. inv_ok_pairs.
    pose proof (draw_domain_draw_ok _ _ _ _ _ _ _ Hm Hnd) as [Hdr Hnd1].
    apply draw_domain_Ok in Hm.
    destruct Hm as (sel & rest & -> & -> & Hl & Hp).
    apply IH in Hm0; [|assumption].
    destruct Hm0 as (Hlab & Hall & Hfol & Hd & Hf & Hs & Hnd2).
    cbn in *. split; [congruence|]. split; [now constructor|].
    split; [split; [reflexivity|assumption]|]. split; [assumption|].
    split; [rewrite Hf, <- app_assoc; reflexivity|].
    split; [|assumption]. rewrite Hs.
    destruct (len rest <? n_img)%Z; cbn;
      [now rewrite orb_true_r|reflexivity].
Qed.

Lemma sample_Ok_NoDup (population : list Z) k g res g' :
  random_sample population k g = Ok (res, g') ->
  NoDup population ->
  len res = k /\ NoDup res /\ incl res population.
Proof.
  intros H Hnd. apply random_sample_Ok in H.
  destruct H as (_ & Hl & rest & Hp). split; [assumption|].
  assert (Hrr : NoDup (res ++ rest)) by (eapply Permutation_NoDup; eassumption).
  apply NoDup_app_parts in Hrr. split; [tauto|].
  intros x Hx. eapply Permutation_in; [symmetry; exact Hp|].
  apply in_app_iff. now left.
Qed.

Lemma while_loop_stopped domains n_domain n_img fuel st g st' rounds g' :
  stop_sampling st = true ->
  while_loop fuel domains n_domain n_img st g = Ok ((st', rounds), g') ->
  st' = st /\ rounds = [].
Proof.
  intros Hs H. destruct fuel as [|fuel]; [discriminate|].
  cbn in H. rewrite Hs in H. cbn in H. inv_ok. auto.
Qed.

Lemma while_loop_Ok domains n_domain n_img fuel : forall st g st' rounds g',
  while_loop fuel domains n_domain n_img st g = Ok ((st', rounds), g') ->
  NoDup domains ->
  pools_nodup (cur_dict st) ->
  Forall (round_ok domains n_domain n_img) rounds /\
  pools_follow (cur_dict st) (concat rounds) /\
  final_idxs st' =
    final_idxs st ++ concat (map selected_idxs (concat rounds)) /\
  (stop_sampling st = false -> stops_at_last n_img rounds) /\
  stop_sampling st' = true.
Proof.
  induction fuel as [|fuel IH]; intros st g st' rounds g' H Hdom Hnd.
  - discriminate.
  - cbn [while_loop] in H. destruct (stop_sampling st) eqn:Hstop; cbn in H.
    + inv_ok. cbn. rewrite app_nil_r.
      repeat (split; [first [reflexivity|constructor]|]).
      split; [discriminate|assumption].
    + inv_ok_pairs. rename a into selected, l into round, l0 into rounds'.
      apply sample_Ok_NoDup in Hm; [|assumption].
      destruct Hm as (Hlen & Hsnd & Hincl).
      apply sample_round_Ok in Hm0; [|assumption].
      destruct Hm0 as (Hlab & Hall & Hfol & Hd & Hf & Hs & Hnd1).
      pose proof Hm1 as Hrec. apply IH in Hm1; try assumption.
      destruct Hm1 as (Hrs & Hfol' & Hf' & Hlast & Hstop').
      split.
      { constructor; [|assumption]. unfold round_ok.
        rewrite Hlab. split; [|tauto].
        rewrite <- Hlen, <- Hlab. unfold len. now rewrite length_map. }
      split.
      { cbn. apply pools_follow_app; [assumption|]. now rewrite <- Hd. }
      split.
      { cbn. rewrite Hf', Hf, map_app, concat_app, <- app_assoc.
        reflexivity. }
      split; [|assumption]. intros _.
      rewrite Hstop, orb_false_r in Hs. cbv zeta in Hs.
      destruct (round_stops n_img round) eqn:Hrst.
      * apply while_loop_stopped in Hrec; [|assumption].
        destruct Hrec as [_ ->]. exact Hrst.
      * specialize (Hlast Hs). destruct rounds' as [|r rounds'];
          [destruct Hlast|]. split; assumption.
Qed.

Lemma round_length n_img round :
  Forall (draw_ok n_img) round ->
  len (concat (map selected_idxs round)) = (len round * n_img)%Z.
Proof.
  induction 1 as [|dr round Hdr _ IH]; [reflexivity|].
  destruct Hdr as [Hl _]. unfold len in *. cbn [map concat List.length].
  rewrite length_app, Nat2Z.inj_add, Nat2Z.inj_succ, IH, Hl. ring.
Qed.

Lemma rounds_length domains n_domain n_img rounds :
  Forall (round_ok domains n_domain n_img) rounds ->
  len (concat (map selected_idxs (concat rounds)))
  = (len rounds * (n_img * n_domain))%Z.
Proof.
  induction 1 as [|round rounds Hr _ IH]; [reflexivity|].
  destruct Hr as (Hl & _ & _ & Hall). apply round_length in Hall.
  unfold len in *. cbn [concat List.length].
  rewrite map_app, concat_app, length_app, Nat2Z.inj_add, Nat2Z.inj_succ.
  rewrite IH, Hall, Hl. ring.
Qed.

(** What a successful construction has checked and stored. *)
Lemma balanced_init_Ok label data_source batch_size n_domain fuel g s g' :
  init label data_source batch_size n_domain fuel g = Ok (s, g') ->
  let dd := index_by label data_source in
  let n := effective_n_domain (keys dd) n_domain in
  n <> 0%Z /\ (batch_size mod n = 0)%Z /\
  exists out,
    iter_of dd (keys dd) n (batch_size / n)%Z fuel g = Ok (out, g') /\
    s = mkSampler data_source dd (keys dd) (batch_size / n)%Z batch_size n
                  (len out).
Proof.
  unfold init. intros H. inv_ok. apply Z.eqb_eq in Hc.
  cbv zeta. split; [assumption|]. split; [assumption|].
  exists a2. split; [assumption|reflexivity].
Qed.

Lemma balanced_init_wf label data_source batch_size n_domain fuel g s g' :
  init label data_source batch_size n_domain fuel g = Ok (s, g') ->
  NoDup (domains s) /\ pools_nodup (domain_dict s).
Proof.
  intros H. apply balanced_init_Ok in H.
  destruct H as (_ & _ & out & _ & ->). cbn. split.
  - apply index_by_keys_NoDup.
  - intros k. apply index_by_group_NoDup.
Qed.

Lemma run_pass_rounds s fuel g st rounds g' :
  NoDup (domains s) ->
  pools_nodup (domain_dict s) ->
  run_pass (domain_dict s) (domains s) (n_domain s) (n_img_per_domain s)
           fuel g = Ok ((st, rounds), g') ->
  pass_in_rounds s (final_idxs st) rounds /\
  stops_at_last (n_img_per_domain s) rounds.
Proof.
  unfold run_pass. intros Hdom Hnd H.
  apply while_loop_Ok in H; try assumption.
  destruct H as (Hrs & Hfol & Hf & Hlast & _). cbn in *.
  split; [|now apply Hlast].
  unfold pass_in_rounds. split; [assumption|].
  split; [|split; assumption].
  rewrite Hf. eapply rounds_length. eassumption.
Qed.

Lemma iter_rounds_of s fuel g out g' :
  iter s fuel g = Ok (out, g') ->
  exists st rounds,
    run_pass (domain_dict s) (domains s) (n_domain s) (n_img_per_domain s)
             fuel g = Ok ((st, rounds), g') /\
    out = final_idxs st /\
    rounds_of s fuel g = Ok (rounds, g').
Proof.
  unfold iter, iter_of, rounds_of. intros H. inv_ok_pairs.
  exists p, l. split; [assumption|]. split; [reflexivity|].
  unfold bind. rewrite Hm. reflexivity.
Qed.

(** C2.  Every pass of [RandomDomainSampler] and of [RandomDatasetSampler]
    (the sampler built by [init label], for [camid] and for [dsetid]) that
    completes without error is made of rounds: its length is a multiple of
    [n_img_per_domain * n_domain]; in each round each of the [n_domain]
    selected labels gives exactly [n_img_per_domain] pairwise distinct
    positions, each of them in that label's remaining pool when it is drawn
    and out of the pool afterwards. *)
Theorem balanced_pass_rounds :
  forall label data_source batch_size n_domain0 fuel0 g0 s g1,
    init label data_source batch_size n_domain0 fuel0 g0 = Ok (s, g1) ->
    forall fuel g out g',
      iter s fuel g = Ok (out, g') ->
      (n_img_per_domain s * n_domain s | len out)%Z /\
      exists rounds,
        rounds_of s fuel g = Ok (rounds, g') /\
        pass_in_rounds s out rounds.
Proof.
  intros label ds bs nd fuel0 g0 s g1 Hinit fuel g out g' Hiter.
  apply balanced_init_wf in Hinit. destruct Hinit as [Hdom Hnd].
  apply iter_rounds_of in Hiter.
  destruct Hiter as (st & rounds & Hrun & -> & Hrounds).
  apply run_pass_rounds in Hrun; try assumption.
  destruct Hrun as [Hpass _]. split.
  - destruct Hpass as (_ & Hlen & _). exists (len rounds). exact Hlen.
  - exists rounds. split; assumption.
Qed.

Lemma balanced_pass_rounds_witness :
  (n_img_per_domain ex_domain_sampler * n_domain ex_domain_sampler
   | len [0; 1; 2; 3])%Z /\
  exists rounds,
    rounds_of ex_domain_sampler 10 [] = Ok (rounds, []) /\
    pass_in_rounds ex_domain_sampler [0; 1; 2; 3] rounds.
Proof.
  refine (balanced_pass_rounds camid ex_cams 2 (Some 1%Z) 10 []
            ex_domain_sampler [] _ 10 [] [0; 1; 2; 3] [] _);
    vm_compute; reflexivity.
Defined.

(** A draw either succeeds or raises [ValueError]. *)
Lemma random_sample_cases {A} (population : list A) k g :
  (exists res g', random_sample population k g = Ok (res, g')) \/
  random_sample population k g = Raise ValueError.
Proof.
  destruct (Z_lt_dec k 0) as [Hneg|Hpos].
  - right. apply random_sample_Raise. now left.
  - destruct (Z_lt_dec (len population) k) as [Hbig|Hfit].
    + right. apply random_sample_Raise. now right.
    + left. apply random_sample_total. lia.
Qed.

Lemma draw_domain_cases n_img k st g :
  (exists st' dr g', draw_domain n_img k st g = Ok ((st', dr), g')) \/
  draw_domain n_img k st g = Raise ValueError.
Proof.
  unfold draw_domain.
  destruct (random_sample_cases (dict_get (cur_dict st) k) n_img g)
    as [(sel & g1 & Hs)|Hs].
  - rewrite (bind_eq_Ok _ Hs).
    destruct (remove_all sel (dict_get (cur_dict st) k)); [|now right].
    left. eexists _, _, _. reflexivity.
  - right. now rewrite (bind_eq_Raise _ Hs).
Qed.

(** Drawing from a pool that holds fewer than [n_img] positions raises. *)
Lemma draw_domain_short n_img k st g :
  (len (dict_get (cur_dict st) k) < n_img)%Z ->
  draw_domain n_img k st g = Raise ValueError.
Proof.
  intros Hshort. unfold draw_domain.
  rewrite (bind_eq_Raise _ (random_sample_Raise _ _ g (or_intror Hshort))).
  reflexivity.
Qed.

(** A round that has selected such a label raises. *)
Lemma sample_round_short n_img k selected : forall st g,
  In k selected ->
  (len (dict_get (cur_dict st) k) < n_img)%Z ->
  sample_round n_img selected st g = Raise ValueError.
Proof.
  induction selected as [|k0 selected IH]; intros st g Hin Hshort;
    [destruct Hin|].
  cbn [sample_round].
  destruct (draw_domain_cases n_img k0 st g) as [(st1 & dr & g1 & Hd)|Hd].
  - rewrite (bind_eq_Ok _ Hd).
    assert (Hne : k0 <> k).
    { intros ->. rewrite draw_domain_short in Hd by assumption.
      discriminate. }
    destruct Hin as [Heq|Hin]; [contradiction|].
    apply draw_domain_Ok in Hd. destruct Hd as (sel & rest & _ & -> & _).
    assert (Hshort1 : (len (dict_get (dict_set (cur_dict st) k0 rest) k)
                       < n_img)%Z).
    { rewrite dict_get_set_other by assumption. exact Hshort. }
    rewrite (bind_eq_Raise _ (IH (mkPass _ _ _) g1 Hin Hshort1)).
    reflexivity.
  - now rewrite (bind_eq_Raise _ Hd).
Qed.

Lemma sample_round_labels n_img selected : forall st g st' drs g',
  sample_round n_img selected st g = Ok ((st', drs), g') ->
  map drawn_label drs = selected.
Proof.
  induction selected as [|k selected IH]; intros st g st' drs g' H.
  - cbn in H. inv_ok. reflexivity.
  - cbn [sample_round] in H. inv_ok_pairs.
    apply draw_domain_Ok in Hm. destruct Hm as (sel & rest & -> & _).
    apply IH in Hm0. cbn. congruence.
Qed.

(** C3.  Each round of a balanced pass selects [n_domain] distinct labels
    by a draw without replacement from the full list of labels, whatever
    the pools hold; the stop flag is looked at between rounds only, so all
    the selected labels of a round draw, the round that sets the flag
    included, and only the last round sets it; and when a selected label's
    remaining pool holds fewer than [n_img_per_domain] positions, its draw
    raises and the pass with it. *)
Theorem balanced_selection_and_stop :
  forall label data_source batch_size n_domain0 fuel0 g0 s g1,
    init label data_source batch_size n_domain0 fuel0 g0 = Ok (s, g1) ->
    (forall fuel st g st' round rounds g',
        stop_sampling st = false ->
        while_loop (S fuel) (domains s) (n_domain s) (n_img_per_domain s)
                   st g = Ok ((st', round :: rounds), g') ->
        exists g2,
          random_sample (domains s) (n_domain s) g
          = Ok (map drawn_label round, g2)) /\
    (forall fuel g rounds g',
        rounds_of s fuel g = Ok (rounds, g') ->
        Forall (round_ok (domains s) (n_domain s) (n_img_per_domain s))
               rounds /\
        stops_at_last (n_img_per_domain s) rounds) /\
    (forall st k g,
        (len (dict_get (cur_dict st) k) < n_img_per_domain s)%Z ->
        draw_domain (n_img_per_domain s) k st g = Raise ValueError) /\
    (forall fuel st g selected g2 k,
        stop_sampling st = false ->
        random_sample (domains s) (n_domain s) g = Ok (selected, g2) ->
        In k selected ->
        (len (dict_get (cur_dict st) k) < n_img_per_domain s)%Z ->
        while_loop (S fuel) (domains s) (n_domain s) (n_img_per_domain s)
                   st g = Raise ValueError).
Proof.
  intros label ds bs nd fuel0 g0 s g1 Hinit.
  apply balanced_init_wf in Hinit. destruct Hinit as [Hdom Hnd].
  split; [|split; [|split]].
  - intros fuel st g st' round rounds g' Hstop H.
    cbn [while_loop] in H. rewrite Hstop in H. cbn [negb] in H.
    inv_ok_pairs. apply sample_round_labels in Hm0.
    exists g2. now rewrite Hm0.
  - intros fuel g rounds g' H. unfold rounds_of in H. inv_ok_pairs.
    apply run_pass_rounds in Hm; try assumption.
    destruct Hm as [(_ & _ & Hrs & _) Hlast]. split; assumption.
  - intros st k g Hshort. now apply draw_domain_short.
  - intros fuel st g selected g2 k Hstop Hsel Hin Hshort.
    cbn [while_loop]. rewrite Hstop. cbn [negb].
    rewrite (bind_eq_Ok _ Hsel).
    rewrite (bind_eq_Raise _ (sample_round_short _ k _ st g2 Hin Hshort)).
    reflexivity.
Qed.

Lemma balanced_selection_and_stop_witness :
  (exists round g2,
      random_sample (domains ex_short_sampler) (n_domain ex_short_sampler) []
      = Ok (map drawn_label round, g2)) /\
  (exists rounds,
      rounds_of ex_short_sampler 10 [] = Ok (rounds, []) /\
      Forall (round_ok (domains ex_short_sampler) (n_domain ex_short_sampler)
                       (n_img_per_domain ex_short_sampler)) rounds /\
      stops_at_last (n_img_per_domain ex_short_sampler) rounds) /\
  draw_domain (n_img_per_domain ex_short_sampler) 1
              (mkPass (domain_dict ex_short_sampler) [] false) []
  = Raise ValueError /\
  while_loop 10 (domains ex_short_sampler) (n_domain ex_short_sampler)
             (n_img_per_domain ex_short_sampler)
             (mkPass (domain_dict ex_short_sampler) [] false) [1]
  = Raise ValueError.
Proof.
  destruct (balanced_selection_and_stop camid ex_cams_short 2 (Some 1%Z) 10 []
              ex_short_sampler [] ltac:(vm_compute; reflexivity))
    as (Hsel & Hrounds & Hdraw & Hpass).
  split; [|split; [|split]].
  - eassert (Hrun : while_loop 10 (domains ex_short_sampler)
                       (n_domain ex_short_sampler)
                       (n_img_per_domain ex_short_sampler)
                       (mkPass (domain_dict ex_short_sampler) [] false) []
                     = Ok ((_, _ :: _), _)) by (vm_compute; reflexivity).
    destruct (Hsel 9 (mkPass (domain_dict ex_short_sampler) [] false)
                   _ _ _ _ _ eq_refl Hrun) as [g2 Hg2].
    eexists _, g2. exact Hg2.
  - eexists. split; [vm_compute; reflexivity|].
    apply (Hrounds 10 [] _ []). vm_compute. reflexivity.
  - apply Hdraw. vm_compute. reflexivity.
  - apply (Hpass 9 _ [1] [1%Z] [] 1%Z); vm_compute; try reflexivity.
    now left.
Defined.

(** The sampler of [ex_cams_short] on two tapes: one pass draws from
    camera 0 until it is empty; the other selects camera 1 in its second
    round, with one image left where two are asked for, and raises. *)
Example exhausted_label_selected :
  iter ex_short_sampler 10 [] = Ok ([0; 1; 2; 3; 4; 5], []) /\
  iter ex_short_sampler 10 [0; 0; 0; 1] = Raise ValueError.
Proof. split; vm_compute; reflexivity. Qed.

(** The round that sets the stop flag still draws from the labels after
    the one that set it: camera 1 is drawn first and left empty, which sets
    the flag, and camera 0 draws all the same. *)
Example stopping_round_completes :
  exists s g1 rounds g2,
    init camid [mkItem "" 0 1 0; mkItem "" 0 0 0; mkItem "" 0 0 0]
         2 None 10 [] = Ok (s, g1) /\
    rounds_of s 10 [] = Ok (rounds, g2) /\
    map (map (fun dr => (drawn_label dr, selected_idxs dr, pool_after dr)))
        rounds
    = [[(1%Z, [0], []); (0%Z, [1], [2])]].
Proof. do 4 eexists. repeat split; vm_compute; reflexivity. Qed.

(** ** Ranges *)

Lemma py_range_In a b i : In i (py_range a b) <-> (a <= i < b)%Z.
Proof.
  unfold py_range. rewrite in_map_iff. split.
  - intros (n & <- & Hn). apply in_seq in Hn. lia.
  - intros H. exists (Z.to_nat (i - a)). split; [lia|].
    apply in_seq. lia.
Qed.

Lemma py_range_length a b : len (py_range a b) = Z.max 0 (b - a).
Proof. unfold py_range, len. rewrite length_map, length_seq. lia. Qed.

Lemma py_range_empty a b : (b <= a)%Z -> py_range a b = [].
Proof.
  intros H. unfold py_range. replace (Z.to_nat (b - a)) with 0 by lia.
  reflexivity.
Qed.

Lemma map_seq_from {A} (f : nat -> A) m : forall n,
  map f (seq n m) = map (fun i => f (n + i)) (seq 0 m).
Proof.
  induction m as [|m IH]; intros n; [reflexivity|]. cbn.
  rewrite Nat.add_0_r. f_equal.
  rewrite IH, <- seq_shift, map_map. apply map_ext.
  intros i. f_equal. lia.
Qed.

Lemma py_range_app a b c :
  (a <= b <= c)%Z -> py_range a b ++ py_range b c = py_range a c.
Proof.
  intros H. unfold py_range.
  replace (Z.to_nat (c - a)) with (Z.to_nat (b - a) + Z.to_nat (c - b)) by lia.
  rewrite seq_app, map_app. f_equal. cbn [Nat.add].
  rewrite (map_seq_from _ _ (Z.to_nat (b - a))).
  apply map_ext. intros n. lia.
Qed.

Lemma py_range_NoDup a b : NoDup (py_range a b).
Proof.
  unfold py_range. generalize (Z.to_nat (b - a)) 0.
  intros m. induction m as [|m IH]; intros n; cbn; constructor.
  - rewrite in_map_iff. intros (i & Hi & Hin). apply in_seq in Hin. lia.
  - apply IH.
Qed.

Lemma py_range_succ a b :
  (a <= b)%Z -> py_range a (b + 1) = py_range a b ++ [b].
Proof.
  intros H. rewrite <- (py_range_app a b (b + 1)) by lia. f_equal.
  unfold py_range. replace (Z.to_nat (b + 1 - b)) with 1 by lia. cbn.
  f_equal. lia.
Qed.

(** ** InferenceSampler *)

Lemma ceil_div_bounds d r :
  (0 < r)%Z ->
  (r * ((d + r - 1) / r - 1) < d <= r * ((d + r - 1) / r))%Z.
Proof.
  intros Hr. pose proof (Z.div_mod (d + r - 1) r ltac:(lia)) as Hdm.
  pose proof (Z.mod_pos_bound (d + r - 1) r Hr) as Hb. lia.
Qed.

Lemma inference_init_Ok G data_num num_replicas rank g :
  (0 < data_num)%Z -> num_replicas <> 0%Z ->
  InferenceSampler.init G data_num (Some num_replicas) (Some rank) g
  = Ok (InferenceSampler.mk data_num
          ((data_num + num_replicas - 1) / num_replicas)
          ((data_num + num_replicas - 1) / num_replicas * rank)
          (Z.min ((data_num + num_replicas - 1) / num_replicas * (rank + 1))
                 data_num)
          (inference_shard data_num num_replicas rank), g).
Proof.
  intros Hd Hr. unfold InferenceSampler.init, py_assert, floordiv, bind, ret.
  cbn. destruct (Z.ltb_spec 0 data_num); [|lia].
  destruct (Z.eqb_spec num_replicas 0); [contradiction|]. reflexivity.
Qed.

Lemma concat_shards data_num num_replicas (n : nat) :
  (0 <= (data_num + num_replicas - 1) / num_replicas)%Z ->
  (0 <= data_num)%Z ->
  concat (map (inference_shard data_num num_replicas)
              (py_range 0 (Z.of_nat n)))
  = py_range 0 (Z.min ((data_num + num_replicas - 1) / num_replicas
                       * Z.of_nat n) data_num).
Proof.
  intros Hs Hd. induction n as [|n IH].
  - cbn. rewrite Z.mul_0_r. symmetry. apply py_range_empty. lia.
  - rewrite Nat2Z.inj_succ, <- Z.add_1_r, py_range_succ by lia.
    rewrite map_app, concat_app, IH. cbn [map concat].
    rewrite app_nil_r. unfold inference_shard.
    set (S := ((data_num + num_replicas - 1) / num_replicas)%Z) in *.
    destruct (Z_le_gt_dec (S * Z.of_nat n) data_num) as [Hle|Hgt].
    + rewrite (Z.min_l (S * Z.of_nat n)) by assumption.
      apply py_range_app. nia.
    + rewrite (Z.min_r (S * Z.of_nat n)) by lia.
      rewrite (py_range_empty (S * Z.of_nat n)) by lia.
      rewrite app_nil_r. f_equal. nia.
Qed.

Lemma inference_shard_In data_num num_replicas rank i :
  In i (inference_shard data_num num_replicas rank) <->
  ((data_num + num_replicas - 1) / num_replicas * rank <= i
   < (data_num + num_replicas - 1) / num_replicas * (rank + 1)
   /\ i < data_num)%Z.
Proof. unfold inference_shard. rewrite py_range_In. lia. Qed.

(** C7.  With [data_num > 0] and [num_replicas] workers, the sampler of
    [rank] emits the half-open range
    [[shard_size * rank, min(shard_size * (rank + 1), data_num))] with
    [shard_size = ceil(data_num / num_replicas)]; the shards of the ranks
    [0 .. num_replicas - 1] are pairwise disjoint and make up
    [range(0, data_num)]; shards can differ in size and can be empty
    ([data_num = 10], [num_replicas = 3]: [[0, 4)], [[4, 8)], [[8, 10)]). *)
Theorem inference_shards :
  forall G : Globals,
    (forall data_num num_replicas,
        (0 < data_num)%Z -> (0 < num_replicas)%Z ->
        let shard_size := ((data_num + num_replicas - 1) / num_replicas)%Z in
        (num_replicas * (shard_size - 1) < data_num
         <= num_replicas * shard_size)%Z /\
        (forall rank g,
            exists s,
              InferenceSampler.init G data_num (Some num_replicas)
                                    (Some rank) g = Ok (s, g) /\
              InferenceSampler.begin_ s = (shard_size * rank)%Z /\
              InferenceSampler.end_ s
              = Z.min (shard_size * (rank + 1)) data_num /\
              InferenceSampler.iter s
              = py_range (InferenceSampler.begin_ s)
                         (InferenceSampler.end_ s) /\
              InferenceSampler.iter s
              = inference_shard data_num num_replicas rank) /\
        concat (map (inference_shard data_num num_replicas)
                    (py_range 0 num_replicas))
        = py_range 0 data_num /\
        (forall r1 r2 i,
            r1 <> r2 ->
            In i (inference_shard data_num num_replicas r1) ->
            ~ In i (inference_shard data_num num_replicas r2))) /\
    map (inference_shard 10 3) [0; 1; 2]%Z
    = [py_range 0 4; py_range 4 8; py_range 8 10] /\
    (exists s,
        InferenceSampler.init G 5 (Some 4%Z) (Some 3%Z) [] = Ok (s, []) /\
        InferenceSampler.iter s = []).
Proof.
  intros G. split; [|split].
  - intros data_num num_replicas Hd Hr shard_size.
    pose proof (ceil_div_bounds data_num num_replicas Hr) as Hceil.
    fold shard_size in Hceil.
    split; [exact Hceil|]. split; [|split].
    + intros rank g. eexists. split.
      * apply inference_init_Ok; lia.
      * cbn. repeat split; reflexivity.
    + replace num_replicas with (Z.of_nat (Z.to_nat num_replicas)) at 2 by lia.
      rewrite concat_shards by (fold shard_size; nia || lia).
      fold shard_size. f_equal. rewrite Z2Nat.id by lia. nia.
    + intros r1 r2 i Hne H1 H2. apply inference_shard_In in H1, H2.
      fold shard_size in H1, H2.
      assert (Hpos : (0 < shard_size)%Z) by nia.
      destruct (Z.lt_trichotomy r1 r2) as [Hlt|[Heq|Hgt]];
        [|contradiction|]; nia.
  - vm_compute. reflexivity.
  - eexists. split; vm_compute; reflexivity.
Qed.

Lemma inference_shards_witness :
  (3 * ((10 + 3 - 1) / 3 - 1) < 10 <= 3 * ((10 + 3 - 1) / 3))%Z /\
  concat (map (inference_shard 10 3) (py_range 0 3)) = py_range 0 10.
Proof.
  destruct (proj1 (inference_shards module_globals) 10%Z 3%Z
              ltac:(lia) ltac:(lia)) as (Hceil & _ & Hcat & _).
  split; [exact Hceil|exact Hcat].
Defined.

(** ** IterDistributedSampler: [set_epoch] *)

(** C9.  [set_epoch(e)] changes the [epoch] field and nothing else: what
    [__iter__] and [__len__] return after the call is what they returned
    before it, for every sampler and every [e]. *)
Theorem set_epoch_only_epoch :
  forall (s : IterDistributedSampler.t) (e : Z),
    let s' := IterDistributedSampler.set_epoch s e in
    IterDistributedSampler.iter s' = IterDistributedSampler.iter s /\
    IterDistributedSampler.__len__ s' = IterDistributedSampler.__len__ s /\
    IterDistributedSampler.epoch s' = e /\
    s' = IterDistributedSampler.mk
           (IterDistributedSampler.dataset s)
           (IterDistributedSampler.batch_size s)
           (IterDistributedSampler.num_replicas s)
           (IterDistributedSampler.rank s)
           e
           (IterDistributedSampler.shuffle s)
           (IterDistributedSampler.effect_bs s)
           (IterDistributedSampler.total_size s)
           (IterDistributedSampler.num_samples s)
           (IterDistributedSampler.indices s).
Proof. intros s e. cbn. repeat split; reflexivity. Qed.

(** ** The unbound names *)

Lemma epoch_step_unbound dataset shuffle total_size rank num_replicas ep acc g :
  IterDistributedSampler.epoch_step module_globals dataset shuffle total_size
    rank num_replicas ep acc g = Raise (NameError "torch").
Proof. reflexivity. Qed.

Lemma build_indices_unbound dataset shuffle total_size rank num_replicas
      total_epochs g :
  (1 <= total_epochs)%Z ->
  IterDistributedSampler.build_indices module_globals dataset shuffle
    total_size rank num_replicas total_epochs g = Raise (NameError "torch").
Proof.
  intros H. unfold IterDistributedSampler.build_indices, py_range.
  destruct (Z.to_nat (total_epochs - 0)) as [|n] eqn:E; [lia|].
  reflexivity.
Qed.

Lemma iter_distributed_unbound dataset total_epochs batch_size num_replicas
      rank shuffle g :
  IterDistributedSampler.init module_globals dataset total_epochs batch_size
    num_replicas rank shuffle g
  = match num_replicas, rank with
    | Some n, Some _ =>
        if (1 <=? total_epochs)%Z then
          if (n * batch_size =? 0)%Z then Raise ZeroDivisionError
          else Raise (NameError "torch")
        else Raise AssertionError
    | _, _ => Raise (NameError "dist")
    end.
Proof.
  unfold IterDistributedSampler.init.
  destruct num_replicas as [n|]; [|reflexivity].
  destruct rank as [r|]; [|reflexivity].
  cbn [default_num_replicas default_rank]. unfold bind at 1. cbn [ret].
  unfold bind at 1. cbn [ret]. unfold py_assert.
  destruct (Z.leb_spec 1 total_epochs) as [Hep|Hep]; [|reflexivity].
  unfold bind at 1. cbn [ret]. unfold floordiv at 1.
  destruct (Z.eqb_spec (n * batch_size) 0) as [Hz|Hnz]; [reflexivity|].
  unfold bind at 1. cbn [ret]. unfold floordiv.
  destruct (Z.eqb_spec n 0) as [->|Hn]; [lia|].
  unfold bind at 1. cbn [ret].
  rewrite (bind_eq_Raise _ (build_indices_unbound _ _ _ _ _ _ _ Hep)).
  reflexivity.
Qed.

(** C10.  The module binds neither [torch] nor [dist].  Constructing an
    [IterDistributedSampler] never succeeds: with [num_replicas] and [rank]
    given it raises the unbound-name error on [torch] when it reaches
    [torch.Generator()], whatever [shuffle] is; and with [num_replicas] or
    [rank] left unset, [IterDistributedSampler] and [InferenceSampler] raise
    the unbound-name error on [dist] where the distributed runtime was to
    be asked. *)
Theorem unbound_torch_and_dist :
  (forall dataset total_epochs batch_size num_replicas rank shuffle g,
      (1 <= total_epochs)%Z -> (num_replicas * batch_size <> 0)%Z ->
      IterDistributedSampler.init module_globals dataset total_epochs
        batch_size (Some num_replicas) (Some rank) shuffle g
      = Raise (NameError "torch")) /\
  (forall dataset total_epochs batch_size num_replicas rank shuffle g,
      exists e,
        IterDistributedSampler.init module_globals dataset total_epochs
          batch_size num_replicas rank shuffle g = Raise e) /\
  (forall dataset total_epochs batch_size num_replicas rank shuffle g,
      num_replicas = None \/ rank = None ->
      IterDistributedSampler.init module_globals dataset total_epochs
        batch_size num_replicas rank shuffle g = Raise (NameError "dist")) /\
  (forall data_num num_replicas rank g,
      (0 < data_num)%Z ->
      num_replicas = None \/ rank = None ->
      InferenceSampler.init module_globals data_num num_replicas rank g
      = Raise (NameError "dist")).
Proof.
  split; [|split; [|split]].
  - intros dataset total_epochs batch_size n r shuffle g Hep Hnz.
    rewrite iter_distributed_unbound.
    destruct (Z.leb_spec 1 total_epochs); [|lia].
    destruct (Z.eqb_spec (n * batch_size) 0); [contradiction|reflexivity].
  - intros dataset total_epochs batch_size n r shuffle g.
    rewrite iter_distributed_unbound.
    destruct n, r; try (eexists; reflexivity).
    destruct (1 <=? total_epochs)%Z; [|eexists; reflexivity].
    destruct (_ =? 0)%Z; eexists; reflexivity.
  - intros dataset total_epochs batch_size n r shuffle g H.
    rewrite iter_distributed_unbound.
    destruct H as [-> | ->]; [reflexivity|]. destruct n; reflexivity.
  - intros data_num n r g Hd H. unfold InferenceSampler.init, py_assert.
    destruct (Z.ltb_spec 0 data_num); [|lia].
    destruct H as [-> | ->]; [reflexivity|]. destruct n; reflexivity.
Qed.

Lemma unbound_torch_and_dist_witness :
  IterDistributedSampler.init module_globals ex_items 2 2 (Some 2%Z)
    (Some 0%Z) false [] = Raise (NameError "torch") /\
  IterDistributedSampler.init module_globals ex_items 2 2 None
    (Some 0%Z) true [] = Raise (NameError "dist") /\
  InferenceSampler.init module_globals 10 (Some 3%Z) None []
  = Raise (NameError "dist").
Proof.
  destruct unbound_torch_and_dist as (Htorch & _ & Hdist & Hinf).
  split; [|split].
  - apply Htorch; lia.
  - apply Hdist. now left.
  - apply Hinf; [lia|now right].
Defined.

(** ** Configurations refused at construction *)

Lemma identity_init_small_batch data_source batch_size num_instances g :
  (batch_size < num_instances)%Z ->
  RandomIdentitySampler.init data_source batch_size num_instances g
  = Raise ValueError.
Proof.
  intros H. unfold RandomIdentitySampler.init.
  destruct (Z.ltb_spec batch_size num_instances); [reflexivity|lia].
Qed.

Lemma identity_init_few_pids data_source batch_size num_instances g :
  (num_instances <= batch_size)%Z ->
  (len (keys (index_by pid data_source)) < batch_size / num_instances)%Z ->
  RandomIdentitySampler.init data_source batch_size num_instances g
  = Raise (if (num_instances =? 0)%Z then ZeroDivisionError
           else AssertionError).
Proof.
  intros Hle Hfew. unfold RandomIdentitySampler.init.
  destruct (Z.ltb_spec batch_size num_instances); [lia|].
  unfold floordiv. destruct (num_instances =? 0)%Z; [reflexivity|].
  unfold bind at 1. cbn [ret]. unfold py_assert.
  destruct (Z.leb_spec (batch_size / num_instances)
                       (len (keys (index_by pid data_source)))); [lia|].
  reflexivity.
Qed.

Lemma balanced_init_indivisible label data_source batch_size n_domain fuel g :
  let n := effective_n_domain (keys (index_by label data_source)) n_domain in
  (n = 0 \/ batch_size mod n <> 0)%Z ->
  init label data_source batch_size n_domain fuel g
  = Raise (if (n =? 0)%Z then ZeroDivisionError else AssertionError).
Proof.
  intros n H. unfold init. fold n. unfold pymod.
  destruct (Z.eqb_spec n 0) as [Hz|Hnz]; [reflexivity|].
  unfold bind at 1. cbn [ret]. unfold py_assert.
  destruct (Z.eqb_spec (batch_size mod n) 0) as [Hm|Hm]; [|reflexivity].
  destruct H; contradiction.
Qed.

Lemma inference_init_empty G data_num num_replicas rank g :
  (data_num <= 0)%Z ->
  InferenceSampler.init G data_num num_replicas rank g = Raise AssertionError.
Proof.
  intros H. unfold InferenceSampler.init, py_assert.
  destruct (Z.ltb_spec 0 data_num); [lia|reflexivity].
Qed.

(** No label at all: the construction-time pass cannot select. *)
Lemma balanced_init_no_items label batch_size n_domain fuel g :
  0 < fuel ->
  exists e, init label [] batch_size n_domain fuel g = Raise e.
Proof.
  intros Hfuel. unfold init. cbn [index_by enumerate List.length seq combine
                                  fold_left keys map].
  set (n := effective_n_domain [] n_domain).
  unfold pymod. destruct (Z.eqb_spec n 0) as [Hz|Hnz]; [eexists; reflexivity|].
  unfold bind at 1. cbn [ret]. unfold py_assert.
  destruct (batch_size mod n =? 0)%Z; [|eexists; reflexivity].
  unfold bind at 1. cbn [ret]. unfold floordiv.
  destruct (Z.eqb_spec n 0); [contradiction|].
  unfold bind at 1. cbn [ret].
  assert (Hn : (0 < n)%Z).
  { subst n. unfold effective_n_domain in *. destruct n_domain as [m|].
    - destruct (Z.leb_spec m 0); [contradiction|assumption].
    - contradiction. }
  destruct fuel as [|fuel]; [lia|].
  exists ValueError. unfold iter_of, run_pass. cbn [while_loop stop_sampling negb].
  assert (Hs : random_sample (@nil Z) n g = Raise ValueError).
  { apply random_sample_Raise. right. cbn. lia. }
  unfold bind at 1. unfold bind at 1. unfold bind at 1. rewrite Hs.
  reflexivity.
Qed.

Lemma identity_init_no_items batch_size num_instances g :
  (0 < num_instances)%Z ->
  exists e, RandomIdentitySampler.init [] batch_size num_instances g = Raise e.
Proof.
  intros Hni. destruct (Z_lt_dec batch_size num_instances) as [Hlt|Hge].
  - exists ValueError. now apply identity_init_small_batch.
  - eexists. apply identity_init_few_pids; [lia|]. cbn.
    apply Z.div_str_pos. lia.
Qed.

(** C8, as the code has it.  Invalid configurations make the constructor
    raise, before any index is produced: [RandomIdentitySampler] when
    [batch_size < num_instances] or when there are fewer distinct
    identities than [batch_size // num_instances]; [RandomDomainSampler]
    and [RandomDatasetSampler] when [batch_size] is not divisible by the
    (possibly defaulted) group count; [InferenceSampler] when [data_num] is
    0.  An empty item collection makes the constructor of the domain and
    dataset samplers raise, and that of [RandomIdentitySampler] when
    [num_instances] is positive. *)
Theorem invalid_configurations_raise :
  (forall data_source batch_size num_instances g,
      (batch_size < num_instances)%Z ->
      RandomIdentitySampler.init data_source batch_size num_instances g
      = Raise ValueError) /\
  (forall data_source batch_size num_instances g,
      (num_instances <= batch_size)%Z ->
      (len (keys (index_by pid data_source)) < batch_size / num_instances)%Z ->
      exists e,
        RandomIdentitySampler.init data_source batch_size num_instances g
        = Raise e) /\
  (forall label data_source batch_size n_domain fuel g,
      let n := effective_n_domain (keys (index_by label data_source))
                                  n_domain in
      (n = 0 \/ batch_size mod n <> 0)%Z ->
      exists e,
        init label data_source batch_size n_domain fuel g = Raise e) /\
  (forall G num_replicas rank g,
      InferenceSampler.init G 0 num_replicas rank g = Raise AssertionError) /\
  (forall label batch_size n_domain fuel g,
      0 < fuel ->
      exists e, init label [] batch_size n_domain fuel g = Raise e) /\
  (forall batch_size num_instances g,
      (0 < num_instances)%Z ->
      exists e,
        RandomIdentitySampler.init [] batch_size num_instances g = Raise e).
Proof.
  split; [|split; [|split; [|split; [|split]]]].
  - apply identity_init_small_batch.
  - intros. eexists. now apply identity_init_few_pids.
  - intros. eexists. now apply balanced_init_indivisible.
  - intros. apply inference_init_empty. lia.
  - apply balanced_init_no_items.
  - apply identity_init_no_items.
Qed.

Lemma invalid_configurations_raise_witness :
  RandomIdentitySampler.init ex_items 2 4 [] = Raise ValueError /\
  (exists e, RandomIdentitySampler.init ex_items 8 2 [] = Raise e) /\
  (exists e, init camid ex_cams 3 None 10 [] = Raise e) /\
  (exists e, init dsetid [] 2 (Some 1%Z) 10 [] = Raise e) /\
  (exists e, RandomIdentitySampler.init [] 4 2 [] = Raise e).
Proof.
  destruct invalid_configurations_raise
    as (Hsmall & Hfew & Hdiv & _ & Hempty & Hempty_id).
  split; [|split; [|split; [|split]]].
  - apply Hsmall. lia.
  - apply Hfew; [lia|]. vm_compute. reflexivity.
  - apply Hdiv. right. vm_compute. discriminate.
  - apply Hempty. lia.
  - apply Hempty_id. lia.
Defined.

(** C8 as stated fails: an empty collection, 32 for the batch size and -4
    instances per identity construct a [RandomIdentitySampler]. *)
Lemma empty_collection_accepted :
  exists s,
    RandomIdentitySampler.init [] 32 (-4) [] = Ok (s, []) /\
    RandomIdentitySampler.data_source s = [] /\
    RandomIdentitySampler.__len__ s = 0%Z.
Proof. eexists. repeat split; vm_compute; reflexivity. Qed.

(** ** Slices *)

Lemma div_pred (d R : Z) :
  (0 < R)%Z -> (1 <= d)%Z ->
  (d / R = (d - 1) / R + (if d mod R =? 0 then 1 else 0))%Z.
Proof.
  intros HR Hd.
  destruct (Z.eqb_spec (d mod R) 0);
    Z.to_euclidean_division_equations; nia.
Qed.

Lemma mod_shift (L r R : Z) :
  (0 <= r < R)%Z -> (L mod R = r <-> (L - r) mod R = 0)%Z.
Proof.
  intros Hr. split; intros H.
  - pose proof (Z.div_mod L R ltac:(lia)) as E. rewrite H in E.
    replace (L - r)%Z with (L / R * R)%Z by lia. apply Z_mod_mult.
  - pose proof (Z.div_mod (L - r) R ltac:(lia)) as E. rewrite H in E.
    replace L with (r + (L - r) / R * R)%Z by lia.
    rewrite Z_mod_plus_full. apply Z.mod_small. lia.
Qed.

Lemma stride_count_succ r R L :
  (0 <= r < R)%Z -> (0 <= L)%Z ->
  stride_count r R (L + 1)
  = (stride_count r R L + (if L mod R =? r then 1 else 0))%Z.
Proof.
  intros Hr HL. unfold stride_count.
  destruct (Z.ltb_spec r (L + 1)); destruct (Z.ltb_spec r L); try lia.
  - replace (L + 1 - r - 1)%Z with (L - r)%Z by lia.
    rewrite (div_pred (L - r) R) by lia.
    destruct (Z.eqb_spec ((L - r) mod R) 0) as [E|E];
      destruct (Z.eqb_spec (L mod R) r) as [E'|E']; try lia.
    + apply mod_shift in E; [contradiction|lia].
    + apply mod_shift in E'; [contradiction|lia].
  - assert (r = L) by lia. subst. rewrite Z.mod_small by lia.
    rewrite Z.eqb_refl. replace (L + 1 - L - 1)%Z with 0%Z by lia.
    rewrite Z.div_0_l by lia. reflexivity.
  - destruct (Z.eqb_spec (L mod R) r) as [He|He]; [|reflexivity].
    rewrite Z.mod_small in He by lia. lia.
Qed.

Lemma stride_count_nonneg r R L :
  (0 < R)%Z -> (0 <= r)%Z -> (0 <= stride_count r R L)%Z.
Proof.
  intros. unfold stride_count. destruct (Z.ltb_spec r L); [|lia].
  pose proof (Z.div_pos (L - r - 1) R ltac:(lia) ltac:(lia)). lia.
Qed.

(** The positions of a stride are the positions of a residue class. *)
Lemma stride_positions r R (L : nat) :
  (0 <= r < R)%Z ->
  map (fun j => (r + Z.of_nat j * R)%Z)
      (seq 0 (Z.to_nat (stride_count r R (Z.of_nat L))))
  = filter (fun i => (i mod R =? r)%Z) (map Z.of_nat (seq 0 L)).
Proof.
  intros Hr. induction L as [|L IH].
  - unfold stride_count. cbn. destruct (Z.ltb_spec r 0); [lia|reflexivity].
  - rewrite Nat2Z.inj_succ, <- Z.add_1_r, stride_count_succ by lia.
    rewrite seq_S, map_app, filter_app, <- IH. cbn [map filter Nat.add].
    pose proof (stride_count_nonneg r R (Z.of_nat L) ltac:(lia) ltac:(lia))
      as Hn.
    destruct (Z.eqb_spec (Z.of_nat L mod R) r) as [E|E].
    + rewrite Z2Nat.inj_add by lia. change (Z.to_nat 1) with 1.
      rewrite seq_app, map_app. cbn [seq map Nat.add]. f_equal. f_equal.
      rewrite Z2Nat.id by lia.
      unfold stride_count. destruct (Z.ltb_spec r (Z.of_nat L)).
      * apply mod_shift in E; [|lia].
        pose proof (div_pred (Z.of_nat L - r) R ltac:(lia) ltac:(lia)) as Hd.
        rewrite E in Hd. cbn in Hd. rewrite <- Hd.
        pose proof (Z.div_mod (Z.of_nat L - r) R ltac:(lia)) as Hm.
        rewrite E in Hm. lia.
      * assert (Z.of_nat L = r).
        { rewrite Z.mod_small in E by lia. exact E. }
        lia.
    + rewrite Z.add_0_r, app_nil_r. reflexivity.
Qed.

Lemma flat_map_map {A B C} (f : B -> list C) (h : A -> B) (l : list A) :
  flat_map f (map h l) = flat_map (fun x => f (h x)) l.
Proof.
  induction l as [|x l IH]; cbn; [reflexivity|]. now rewrite IH.
Qed.

(** Reading a list position by position gives the list back. *)
Lemma items_prefix {A} (l : list A) : forall n,
  n <= List.length l ->
  flat_map (item_at l) (map Z.of_nat (seq 0 n)) = firstn n l.
Proof.
  induction n as [|n IH]; intros Hn; [reflexivity|].
  rewrite seq_S, map_app, flat_map_app, IH by lia. cbn [map flat_map Nat.add].
  unfold item_at at 1. rewrite Nat2Z.id, app_nil_r.
  destruct (nth_error l n) as [x|] eqn:E.
  - clear IH. revert l Hn E. induction n as [|n IHn]; intros [|y l] Hn E;
      cbn in *; try discriminate.
    + congruence.
    + f_equal. apply IHn; [lia|assumption].
  - apply nth_error_None in E. lia.
Qed.

Lemma items_all {A} (l : list A) :
  flat_map (item_at l) (map Z.of_nat (seq 0 (List.length l))) = l.
Proof. rewrite items_prefix by lia. apply firstn_all. Qed.

(** [l[:T]] for a [T] that is not negative. *)
Lemma py_slice_prefix {A} (l : list A) T g :
  (0 <= T)%Z ->
  py_slice l None (Some T) 1 g = Ok (firstn (Z.to_nat T) l, g).
Proof.
  intros HT. unfold py_slice, slice_indices, adjust_bound. cbn [Z.eqb Z.ltb].
  change (1 <? 0)%Z with false. cbv iota.
  destruct (Z.ltb_spec T 0); [lia|].
  set (stop := if (len l <=? T)%Z then len l else T).
  assert (Hstop : stop = Z.min T (len l)).
  { subst stop. destruct (Z.leb_spec (len l) T); lia. }
  assert (Hn : Z.to_nat (if (0 <? stop)%Z then (stop - 0 - 1) / 1 + 1 else 0)
               = Nat.min (Z.to_nat T) (List.length l)).
  { destruct (Z.ltb_spec 0 stop); unfold len in *;
      [rewrite Z.div_1_r|]; lia. }
  unfold ret. rewrite Hn. f_equal. f_equal.
  assert (Hf : firstn (Z.to_nat T) l
               = firstn (Nat.min (Z.to_nat T) (List.length l)) l).
  { destruct (Nat.le_ge_cases (Z.to_nat T) (List.length l)).
    - rewrite Nat.min_l by lia. reflexivity.
    - rewrite Nat.min_r by lia. rewrite firstn_all, firstn_all2 by lia.
      reflexivity. }
  rewrite Hf, <- (items_prefix l) by lia.
  rewrite flat_map_map. apply flat_map_ext. intros i.
  unfold item_at. rewrite Nat2Z.id.
  replace (Z.to_nat (0 + Z.of_nat i * 1)) with i by lia. reflexivity.
Qed.

(** [l[r:T:R]] for [0 <= r < R] and a list no longer than [T]. *)
Lemma py_slice_stride {A} (l : list A) r T R g :
  (0 <= r < R)%Z -> (len l <= T)%Z ->
  py_slice l (Some r) (Some T) R g = Ok (residue_class R r l, g).
Proof.
  intros Hr HT. unfold py_slice, slice_indices, adjust_bound, residue_class.
  assert (HL : (0 <= len l)%Z) by (unfold len; lia).
  destruct (Z.eqb_spec R 0); [lia|].
  destruct (Z.ltb_spec R 0); [lia|].
  destruct (Z.ltb_spec r 0); [lia|].
  destruct (Z.ltb_spec T 0); [lia|].
  destruct (Z.leb_spec (len l) T); [|lia].
  rewrite <- stride_positions by assumption. fold (len l).
  unfold ret. f_equal. f_equal. rewrite flat_map_map.
  destruct (Z.leb_spec (len l) r) as [Hout|Hin].
  - unfold stride_count. rewrite Z.ltb_irrefl.
    destruct (Z.ltb_spec r (len l)); [lia|]. reflexivity.
  - unfold stride_count. destruct (Z.ltb_spec r (len l)); [|lia].
    reflexivity.
Qed.

Lemma concat_insert {A} (c : Z) (X : list A) (F : Z -> list A) ranks :
  NoDup ranks -> In c ranks ->
  Permutation
    (concat (map (fun r => (if (c =? r)%Z then X else []) ++ F r) ranks))
    (X ++ concat (map F ranks)).
Proof.
  induction ranks as [|r0 ranks IH]; intros Hnd Hin; [destruct Hin|].
  inversion Hnd; subst. cbn [map concat].
  destruct (Z.eqb_spec c r0) as [->|Hne].
  - rewrite <- app_assoc. apply Permutation_app_head.
    apply Permutation_app_head.
    erewrite map_ext_in; [reflexivity|].
    intros r Hr. destruct (Z.eqb_spec r0 r); [congruence|reflexivity].
  - destruct Hin as [Heq|Hin]; [congruence|]. cbn [app].
    rewrite (IH H2 Hin). apply Permutation_app_swap_app.
Qed.

(** The residue classes of the positions split a list. *)
Lemma residue_classes_partition {A} (g : Z -> list A) R (pos : list Z) :
  (0 < R)%Z ->
  Permutation
    (concat (map (fun r => flat_map g (filter (fun i => (i mod R =? r)%Z) pos))
                 (py_range 0 R)))
    (flat_map g pos).
Proof.
  intros HR. induction pos as [|i pos IH].
  - cbn. induction (py_range 0 R) as [|r rs IHr]; [reflexivity|exact IHr].
  - cbn [flat_map]. rewrite <- IH.
    rewrite <- (concat_insert (i mod R) (g i)
                  (fun r => flat_map g (filter (fun i => (i mod R =? r)%Z) pos))
                  (py_range 0 R)).
    + erewrite map_ext; [reflexivity|]. intros r. cbn [filter].
      destruct (i mod R =? r)%Z; reflexivity.
    + apply py_range_NoDup.
    + apply py_range_In. pose proof (Z.mod_pos_bound i R HR). lia.
Qed.

Lemma residue_classes_perm {A} (l : list A) R :
  (0 < R)%Z ->
  Permutation (concat (map (fun r => residue_class R r l) (py_range 0 R))) l.
Proof.
  intros HR. unfold residue_class.
  rewrite (residue_classes_partition (item_at l) R _ HR).
  now rewrite items_all.
Qed.

Lemma items_length {A} (l : list A) (ps : list Z) :
  Forall (fun i => (0 <= i < len l)%Z) ps ->
  List.length (flat_map (item_at l) ps) = List.length ps.
Proof.
  induction 1 as [|i ps Hi _ IH]; [reflexivity|]. cbn [flat_map].
  rewrite length_app, IH. unfold item_at.
  destruct (nth_error l (Z.to_nat i)) eqn:E; [reflexivity|].
  apply nth_error_None in E. unfold len in Hi. lia.
Qed.

Lemma residue_class_length {A} (l : list A) R r :
  (0 <= r < R)%Z ->
  len (residue_class R r l) = stride_count r R (len l).
Proof.
  intros Hr. unfold residue_class, len at 1. rewrite items_length.
  - rewrite <- stride_positions by assumption.
    rewrite length_map, length_seq. fold (len l).
    pose proof (stride_count_nonneg r R (len l)). lia.
  - apply Forall_forall. intros i Hi. apply filter_In in Hi.
    destruct Hi as [Hi _]. apply in_map_iff in Hi.
    destruct Hi as (n & <- & Hn). apply in_seq in Hn. unfold len. lia.
Qed.

Lemma stride_count_full r R m :
  (0 <= r < R)%Z -> (0 <= m)%Z -> stride_count r R (R * m) = m.
Proof.
  intros Hr Hm. unfold stride_count.
  destruct (Z.ltb_spec r (R * m)) as [Hlt|Hge].
  - assert (1 <= m)%Z by nia.
    replace (R * m - r - 1)%Z with ((m - 1) * R + (R - r - 1))%Z by lia.
    rewrite Z.div_add_l, (Z.div_small (R - r - 1)) by lia. lia.
  - nia.
Qed.

(** ** IterDistributedSampler: epochs and shards *)

Lemma NoDup_firstn {A} (n : nat) (l : list A) : NoDup l -> NoDup (firstn n l).
Proof.
  intros H. rewrite <- (firstn_skipn n l) in H.
  eapply NoDup_app_remove_r. exact H.
Qed.

Lemma total_size_nonneg dataset batch_size num_replicas :
  (0 <= total_size_of dataset batch_size num_replicas)%Z.
Proof.
  unfold total_size_of. set (e := (num_replicas * batch_size)%Z).
  assert (Hn : (0 <= len dataset)%Z) by (unfold len; lia).
  destruct (Z.lt_trichotomy e 0) as [Hneg|[Hz|Hpos]].
  - assert (len dataset / e <= 0)%Z.
    { Z.to_euclidean_division_equations; nia. }
    nia.
  - rewrite Hz. lia.
  - pose proof (Z.div_pos (len dataset) e Hn Hpos). nia.
Qed.

Lemma epoch_permutation_NoDup t dataset shuffle ep :
  torch_ok t -> NoDup (epoch_permutation t dataset shuffle ep).
Proof.
  intros Ht. unfold epoch_permutation. destruct shuffle.
  - eapply Permutation_NoDup; [symmetry; apply Ht|apply py_range_NoDup].
  - apply py_range_NoDup.
Qed.

(** The indices of an epoch: its permutation cut to [total_size]. *)
Lemma epoch_indices_Ok G t dataset shuffle T ep g :
  torch G = Some t -> (0 <= T)%Z ->
  IterDistributedSampler.epoch_indices G dataset shuffle T ep g
  = Ok (firstn (Z.to_nat T) (epoch_permutation t dataset shuffle ep), g).
Proof.
  intros Ht HT. unfold IterDistributedSampler.epoch_indices, global_torch.
  rewrite Ht. unfold bind at 1. cbn [ret]. unfold epoch_permutation.
  destruct shuffle.
  - rewrite (bind_eq_Ok _ (py_slice_prefix _ T g HT)).
    rewrite py_slice_prefix by assumption.
    rewrite firstn_firstn, Nat.min_id. reflexivity.
  - unfold bind at 1. cbn [ret]. now rewrite py_slice_prefix.
Qed.

Lemma firstn_len {A} (l : list A) T :
  (0 <= T)%Z -> (len (firstn (Z.to_nat T) l) <= T)%Z.
Proof.
  intros HT. unfold len. rewrite length_firstn. lia.
Qed.

(** The shard of a rank in an epoch. *)
Lemma subsample_Ok {A} (l : list A) rank T num_replicas g :
  (0 <= rank < num_replicas)%Z -> (0 <= T)%Z ->
  py_slice (firstn (Z.to_nat T) l) (Some rank) (Some T) num_replicas g
  = Ok (residue_class num_replicas rank (firstn (Z.to_nat T) l), g).
Proof.
  intros Hr HT. apply py_slice_stride; [assumption|now apply firstn_len].
Qed.

Lemma epoch_step_Ok G t dataset shuffle T rank num_replicas ep acc g :
  torch G = Some t -> (0 <= T)%Z -> (0 <= rank < num_replicas)%Z ->
  IterDistributedSampler.epoch_step G dataset shuffle T rank num_replicas
    ep acc g
  = Ok (acc ++ residue_class num_replicas rank
                 (firstn (Z.to_nat T) (epoch_permutation t dataset shuffle ep)),
        g).
Proof.
  intros Ht HT Hr. unfold IterDistributedSampler.epoch_step.
  rewrite (bind_eq_Ok _ (epoch_indices_Ok G t dataset shuffle T ep g Ht HT)).
  unfold IterDistributedSampler.subsample.
  rewrite (bind_eq_Ok _ (subsample_Ok _ rank T num_replicas g Hr HT)).
  reflexivity.
Qed.

Lemma epochs_Ok G t dataset shuffle T rank num_replicas eps : forall acc g,
  torch G = Some t -> (0 <= T)%Z -> (0 <= rank < num_replicas)%Z ->
  for_each eps
    (IterDistributedSampler.epoch_step G dataset shuffle T rank num_replicas)
    acc g
  = Ok (acc ++ concat (map (fun ep =>
                 residue_class num_replicas rank
                   (firstn (Z.to_nat T)
                           (epoch_permutation t dataset shuffle ep))) eps),
        g).
Proof.
  induction eps as [|ep eps IH]; intros acc g Ht HT Hr; cbn [for_each].
  - cbn. now rewrite app_nil_r.
  - rewrite (bind_eq_Ok _ (epoch_step_Ok G t dataset shuffle T rank
                             num_replicas ep acc g Ht HT Hr)).
    rewrite IH by assumption. cbn [map concat]. now rewrite <- app_assoc.
Qed.

(** What a successful construction has checked and stored. *)
Lemma distributed_init_Ok G dataset total_epochs batch_size num_replicas rank
      shuffle g s g' :
  IterDistributedSampler.init G dataset total_epochs batch_size
    (Some num_replicas) (Some rank) shuffle g = Ok (s, g') ->
  let T := total_size_of dataset batch_size num_replicas in
  (1 <= total_epochs)%Z /\ (num_replicas * batch_size <> 0)%Z /\
  IterDistributedSampler.build_indices G dataset shuffle T rank num_replicas
    total_epochs g = Ok (IterDistributedSampler.indices s, g') /\
  len (IterDistributedSampler.indices s)
  = (T / num_replicas * total_epochs)%Z /\
  s = IterDistributedSampler.mk dataset batch_size num_replicas rank 0 shuffle
        (num_replicas * batch_size) T (T / num_replicas * total_epochs)
        (IterDistributedSampler.indices s).
Proof.
  unfold IterDistributedSampler.init. cbn [default_num_replicas default_rank].
  intros H. inv_ok.
  repeat match goal with
    | Hb : (_ <=? _)%Z = true |- _ => apply Z.leb_le in Hb
    | Hb : (_ =? _)%Z = true |- _ => apply Z.eqb_eq in Hb
    end.
  cbv zeta. cbn [IterDistributedSampler.indices].
  unfold total_size_of.
  split; [assumption|]. split; [assumption|]. split; [assumption|].
  split; [assumption|reflexivity].
Qed.

(** A list of the wrong length is refused by the final assertion. *)
Lemma distributed_init_violation G dataset total_epochs batch_size
      num_replicas rank shuffle g indices g' :
  (1 <= total_epochs)%Z -> (num_replicas * batch_size <> 0)%Z ->
  let T := total_size_of dataset batch_size num_replicas in
  IterDistributedSampler.build_indices G dataset shuffle T rank num_replicas
    total_epochs g = Ok (indices, g') ->
  len indices <> (T / num_replicas * total_epochs)%Z ->
  IterDistributedSampler.init G dataset total_epochs batch_size
    (Some num_replicas) (Some rank) shuffle g = Raise AssertionError.
Proof.
  intros Hep Hnz T Hb Hlen. unfold IterDistributedSampler.init.
  cbn [default_num_replicas default_rank].
  unfold bind at 1. cbn [ret]. unfold bind at 1. cbn [ret].
  unfold py_assert. destruct (Z.leb_spec 1 total_epochs); [|lia].
  unfold bind at 1. cbn [ret]. unfold floordiv.
  destruct (Z.eqb_spec (num_replicas * batch_size) 0); [contradiction|].
  unfold bind at 1. cbn [ret].
  destruct (Z.eqb_spec num_replicas 0) as [->|Hn]; [lia|].
  unfold bind at 1. cbn [ret]. fold (total_size_of dataset batch_size num_replicas).
  fold T. rewrite (bind_eq_Ok _ Hb).
  destruct (Z.eqb_spec (len indices) (T / num_replicas * total_epochs));
    [contradiction|reflexivity].
Qed.

Lemma concat_const_length {A B} (f : A -> list B) (l : list A) m :
  (forall x, In x l -> len (f x) = m) ->
  len (concat (map f l)) = (m * len l)%Z.
Proof.
  induction l as [|x l IH]; intros H; cbn [map concat].
  - unfold len. cbn. lia.
  - pose proof (IH (fun y Hy => H y (or_intror Hy))) as IH'.
    pose proof (H x (or_introl eq_refl)) as Hx.
    unfold len in *. rewrite length_app. cbn [List.length].
    rewrite Nat2Z.inj_add, Nat2Z.inj_succ, IH', Hx. lia.
Qed.

(** With positive [num_replicas] and [batch_size], every shard of every
    epoch holds [total_size / num_replicas] indices. *)
Lemma epoch_shard_length t dataset shuffle batch_size num_replicas rank ep :
  torch_ok t ->
  (0 < num_replicas)%Z -> (0 < batch_size)%Z -> (0 <= rank < num_replicas)%Z ->
  let T := total_size_of dataset batch_size num_replicas in
  len (epoch_shard t dataset shuffle T num_replicas rank ep)
  = (T / num_replicas)%Z.
Proof.
  intros Ht HR Hbs Hr T. unfold epoch_shard.
  rewrite residue_class_length by assumption.
  assert (Hperm : len (epoch_permutation t dataset shuffle ep) = len dataset).
  { unfold epoch_permutation. destruct shuffle.
    - unfold len. rewrite (Permutation_length (Ht _ _)).
      fold (len (py_range 0 (Z.of_nat (List.length dataset)))).
      rewrite py_range_length. lia.
    - rewrite py_range_length. unfold len. lia. }
  assert (HT : (0 <= T <= len dataset)%Z).
  { split; [apply total_size_nonneg|]. unfold T, total_size_of.
    rewrite Z.mul_comm. apply Z.mul_div_le. nia. }
  assert (Hlen : len (firstn (Z.to_nat T)
                        (epoch_permutation t dataset shuffle ep)) = T).
  { unfold len in *. rewrite length_firstn. lia. }
  rewrite Hlen. unfold T, total_size_of.
  set (q := (len dataset / (num_replicas * batch_size))%Z).
  assert (Hq : (0 <= q)%Z) by (apply Z.div_pos; [unfold len; lia|nia]).
  replace (q * (num_replicas * batch_size))%Z
    with (num_replicas * (q * batch_size))%Z by ring.
  rewrite stride_count_full by nia.
  symmetry. rewrite (Z.mul_comm num_replicas). apply Z.div_mul. lia.
Qed.

(** In a valid configuration the construction succeeds, and the rank
    emits its shard of every epoch, in the order of the epochs. *)
Lemma distributed_init_total G t dataset total_epochs batch_size num_replicas
      rank shuffle g :
  torch G = Some t -> torch_ok t ->
  (0 < num_replicas)%Z -> (0 < batch_size)%Z ->
  (0 <= rank < num_replicas)%Z -> (1 <= total_epochs)%Z ->
  let T := total_size_of dataset batch_size num_replicas in
  exists s,
    IterDistributedSampler.init G dataset total_epochs batch_size
      (Some num_replicas) (Some rank) shuffle g = Ok (s, g) /\
    IterDistributedSampler.iter s
    = concat (map (epoch_shard t dataset shuffle T num_replicas rank)
                  (py_range 0 total_epochs)).
Proof.
  intros HG Ht HR Hbs Hr Hep T.
  pose proof (total_size_nonneg dataset batch_size num_replicas) as HT.
  fold T in HT.
  assert (Hb : IterDistributedSampler.build_indices G dataset shuffle T rank
                 num_replicas total_epochs g
               = Ok (concat (map (epoch_shard t dataset shuffle T
                                    num_replicas rank)
                                 (py_range 0 total_epochs)), g)).
  { unfold IterDistributedSampler.build_indices.
    rewrite (epochs_Ok G t dataset shuffle T rank num_replicas _ [] g HG HT Hr).
    reflexivity. }
  assert (Hlen : len (concat (map (epoch_shard t dataset shuffle T
                                     num_replicas rank)
                                  (py_range 0 total_epochs)))
                 = (T / num_replicas * total_epochs)%Z).
  { rewrite (concat_const_length _ _ (T / num_replicas)%Z).
    - rewrite py_range_length. lia.
    - intros ep _. now apply epoch_shard_length. }
  eexists. split.
  - unfold IterDistributedSampler.init. cbn [default_num_replicas default_rank].
    unfold bind at 1. cbn [ret]. unfold bind at 1. cbn [ret].
    unfold py_assert. destruct (Z.leb_spec 1 total_epochs); [|lia].
    unfold bind at 1. cbn [ret]. unfold floordiv.
    destruct (Z.eqb_spec (num_replicas * batch_size) 0); [nia|].
    unfold bind at 1. cbn [ret].
    destruct (Z.eqb_spec num_replicas 0); [lia|].
    unfold bind at 1. cbn [ret].
    fold (total_size_of dataset batch_size num_replicas). fold T.
    rewrite (bind_eq_Ok _ Hb). rewrite Hlen, Z.eqb_refl.
    unfold bind at 1. cbn [ret]. reflexivity.
  - reflexivity.
Qed.

Lemma demo_torch_ok : torch_ok demo_torch.
Proof.
  intros n seed. cbn. unfold rotate.
  rewrite Permutation_app_comm, firstn_skipn. symmetry. apply Permutation_rev.
Qed.

(** C5.  With [torch] bound to a [randperm] that permutes [range(n)], and
    [num_replicas] positive: for every epoch [e], the indices of the epoch
    are the seed-[e] permutation cut to
    [total_size = floor(len(dataset) / (num_replicas * batch_size))
                  * num_replicas * batch_size];
    the strided shards [indices[rank:total_size:num_replicas]] of the ranks
    [0 .. num_replicas - 1] together are a rearrangement of these indices,
    with no index twice; a sampler that has been constructed emits exactly
    [(total_size / num_replicas) * total_epochs] indices, and a list of any
    other length makes the constructor fail on its final assertion. *)
Theorem distributed_shards :
  forall G t dataset total_epochs batch_size num_replicas shuffle,
    torch G = Some t -> torch_ok t -> (0 < num_replicas)%Z ->
    let total_size := total_size_of dataset batch_size num_replicas in
    (forall ep g,
        let trunc := firstn (Z.to_nat total_size)
                            (epoch_permutation t dataset shuffle ep) in
        IterDistributedSampler.epoch_indices G dataset shuffle total_size ep g
        = Ok (trunc, g) /\
        NoDup trunc /\
        (forall rank,
            (0 <= rank < num_replicas)%Z ->
            IterDistributedSampler.subsample trunc rank total_size
              num_replicas g
            = Ok (epoch_shard t dataset shuffle total_size num_replicas
                              rank ep, g)) /\
        Permutation
          (concat (map (fun rank => epoch_shard t dataset shuffle total_size
                                      num_replicas rank ep)
                       (py_range 0 num_replicas)))
          trunc /\
        NoDup
          (concat (map (fun rank => epoch_shard t dataset shuffle total_size
                                      num_replicas rank ep)
                       (py_range 0 num_replicas)))) /\
    (forall rank g s g',
        IterDistributedSampler.init G dataset total_epochs batch_size
          (Some num_replicas) (Some rank) shuffle g = Ok (s, g') ->
        IterDistributedSampler.total_size s = total_size /\
        len (IterDistributedSampler.iter s)
        = (total_size / num_replicas * total_epochs)%Z) /\
    (forall rank g indices g',
        (1 <= total_epochs)%Z -> batch_size <> 0%Z ->
        IterDistributedSampler.build_indices G dataset shuffle total_size
          rank num_replicas total_epochs g = Ok (indices, g') ->
        len indices <> (total_size / num_replicas * total_epochs)%Z ->
        IterDistributedSampler.init G dataset total_epochs batch_size
          (Some num_replicas) (Some rank) shuffle g = Raise AssertionError) /\
    (forall rank g,
        (0 <= rank < num_replicas)%Z -> (0 < batch_size)%Z ->
        (1 <= total_epochs)%Z ->
        exists s,
          IterDistributedSampler.init G dataset total_epochs batch_size
            (Some num_replicas) (Some rank) shuffle g = Ok (s, g) /\
          IterDistributedSampler.iter s
          = concat (map (epoch_shard t dataset shuffle total_size
                                     num_replicas rank)
                        (py_range 0 total_epochs))).
Proof.
  intros G t dataset total_epochs batch_size R shuffle HG Ht HR total_size.
  pose proof (total_size_nonneg dataset batch_size R) as HT.
  fold total_size in HT.
  split; [|split; [|split]].
  - intros ep g trunc.
    assert (Hnd : NoDup trunc).
    { apply NoDup_firstn. now apply epoch_permutation_NoDup. }
    assert (Hperm : Permutation
              (concat (map (fun rank => epoch_shard t dataset shuffle
                              total_size R rank ep) (py_range 0 R))) trunc).
    { unfold epoch_shard. fold trunc. now apply residue_classes_perm. }
    split; [now apply epoch_indices_Ok|]. split; [exact Hnd|].
    split; [|split; [exact Hperm|]].
    + intros rank Hr. unfold IterDistributedSampler.subsample, epoch_shard.
      now apply subsample_Ok.
    + eapply Permutation_NoDup; [symmetry; exact Hperm|exact Hnd].
  - intros rank g s g' Hinit. apply distributed_init_Ok in Hinit.
    destruct Hinit as (_ & _ & _ & Hlen & Hs). fold total_size in Hlen, Hs.
    split; [rewrite Hs; reflexivity|exact Hlen].
  - intros rank g indices g' Hep Hbs Hb Hlen.
    eapply distributed_init_violation; try eassumption. nia.
  - intros rank g Hr Hbs Hep. now apply distributed_init_total.
Qed.

Lemma distributed_shards_witness :
  IterDistributedSampler.epoch_indices demo_globals ex_items10 true 8 1 []
  = Ok ([8; 7; 6; 5; 4; 3; 2; 1]%Z, []) /\
  IterDistributedSampler.subsample [8; 7; 6; 5; 4; 3; 2; 1]%Z 0 8 2 []
  = Ok ([8; 6; 4; 2]%Z, []) /\
  IterDistributedSampler.subsample [8; 7; 6; 5; 4; 3; 2; 1]%Z 1 8 2 []
  = Ok ([7; 5; 3; 1]%Z, []) /\
  Permutation ([8; 6; 4; 2] ++ [7; 5; 3; 1])%Z [8; 7; 6; 5; 4; 3; 2; 1]%Z /\
  NoDup ([8; 6; 4; 2] ++ [7; 5; 3; 1])%Z /\
  (exists s,
      IterDistributedSampler.init demo_globals ex_items10 2 2 (Some 2%Z)
        (Some 1%Z) true [] = Ok (s, []) /\
      IterDistributedSampler.iter s = [8; 6; 4; 2; 7; 5; 3; 1]%Z /\
      len (IterDistributedSampler.iter s) = (8 / 2 * 2)%Z).
Proof.
  destruct (distributed_shards demo_globals demo_torch ex_items10 2 2 2 true
              eq_refl demo_torch_ok ltac:(lia))
    as (Hep & Hlen & _ & Htot).
  destruct (Hep 1%Z []) as (Hidx & _ & Hsub & Hperm & Hnd).
  split; [exact Hidx|].
  split; [exact (Hsub 0%Z ltac:(lia))|].
  split; [exact (Hsub 1%Z ltac:(lia))|].
  split; [exact Hperm|]. split; [exact Hnd|].
  destruct (Htot 1%Z [] ltac:(lia) ltac:(lia) ltac:(lia)) as (s & Hs & Hit).
  exists s. split; [exact Hs|]. split.
  - rewrite Hit. vm_compute. reflexivity.
  - exact (proj2 (Hlen 1%Z [] s [] Hs)).
Defined.

(** ** IterDistributedSampler: determinism *)

Lemma rng_free_ret {A} (a : A) : rng_free (ret a).
Proof. exists (Ok a). reflexivity. Qed.

Lemma rng_free_raise {A} (e : exn) : rng_free (@raise A e).
Proof. exists (Raise e). reflexivity. Qed.

Lemma rng_free_bind {A B} (m : M A) (k : A -> M B) :
  rng_free m -> (forall a, rng_free (k a)) -> rng_free (bind m k).
Proof.
  intros [r Hr] Hk. destruct r as [a|e|].
  - destruct (Hk a) as [r' Hr']. exists r'. intros g.
    unfold bind. rewrite Hr. apply Hr'.
  - exists (Raise e). intros g. unfold bind. now rewrite Hr.
  - exists OutOfFuel. intros g. unfold bind. now rewrite Hr.
Qed.

Lemma rng_free_for_each {A S} (body : A -> S -> M S) (l : list A) :
  (forall x s, rng_free (body x s)) -> forall s, rng_free (for_each l body s).
Proof.
  intros Hb. induction l as [|x l IH]; intros s; cbn.
  - apply rng_free_ret.
  - apply rng_free_bind; [apply Hb|assumption].
Qed.

Lemma rng_free_assert c : rng_free (py_assert c).
Proof. destruct c; [apply rng_free_ret|apply rng_free_raise]. Qed.

Lemma rng_free_floordiv a b : rng_free (floordiv a b).
Proof.
  unfold floordiv. destruct (b =? 0)%Z;
    [apply rng_free_raise|apply rng_free_ret].
Qed.

Lemma rng_free_slice {A} (l : list A) start stop step :
  rng_free (py_slice l start stop step).
Proof.
  unfold py_slice. destruct (step =? 0)%Z; [apply rng_free_raise|].
  destruct (slice_indices (len l) start stop step). apply rng_free_ret.
Qed.

Lemma rng_free_global_torch G : rng_free (global_torch G).
Proof.
  unfold global_torch. destruct (torch G);
    [apply rng_free_ret|apply rng_free_raise].
Qed.

Lemma rng_free_global_dist G : rng_free (global_dist G).
Proof.
  unfold global_dist. destruct (dist G);
    [apply rng_free_ret|apply rng_free_raise].
Qed.

Lemma rng_free_default_num_replicas G n : rng_free (default_num_replicas G n).
Proof.
  destruct n; cbn; [apply rng_free_ret|].
  apply rng_free_bind; [apply rng_free_global_dist|].
  intros d. destruct (is_available d); cbn;
    [apply rng_free_ret|apply rng_free_raise].
Qed.

Lemma rng_free_default_rank G r : rng_free (default_rank G r).
Proof.
  destruct r; cbn; [apply rng_free_ret|].
  apply rng_free_bind; [apply rng_free_global_dist|].
  intros d. destruct (is_available d); cbn;
    [apply rng_free_ret|apply rng_free_raise].
Qed.

Create HintDb rng_free.
#[local] Hint Resolve rng_free_ret rng_free_raise rng_free_assert
  rng_free_floordiv rng_free_slice rng_free_global_torch
  rng_free_default_num_replicas rng_free_default_rank : rng_free.

Lemma rng_free_epoch_step G dataset shuffle T rank R ep acc :
  rng_free (IterDistributedSampler.epoch_step G dataset shuffle T rank R
              ep acc).
Proof.
  unfold IterDistributedSampler.epoch_step,
    IterDistributedSampler.epoch_indices, IterDistributedSampler.subsample.
  repeat (apply rng_free_bind; [|intros ?]); auto with rng_free.
  destruct shuffle; auto with rng_free.
Qed.

(** The constructor neither reads nor advances the random state. *)
Lemma rng_free_distributed_init G dataset total_epochs batch_size num_replicas
      rank shuffle :
  rng_free (IterDistributedSampler.init G dataset total_epochs batch_size
              num_replicas rank shuffle).
Proof.
  unfold IterDistributedSampler.init, IterDistributedSampler.build_indices.
  repeat (apply rng_free_bind; [|intros ?]); auto with rng_free.
  apply rng_free_for_each. intros ep acc. apply rng_free_epoch_step.
Qed.

(** The constructor reads the dataset through its size only. *)
Lemma distributed_init_by_size G ds1 ds2 total_epochs batch_size num_replicas
      rank shuffle g s1 g' :
  List.length ds1 = List.length ds2 ->
  IterDistributedSampler.init G ds1 total_epochs batch_size num_replicas rank
    shuffle g = Ok (s1, g') ->
  exists s2,
    IterDistributedSampler.init G ds2 total_epochs batch_size num_replicas rank
      shuffle g = Ok (s2, g') /\
    IterDistributedSampler.indices s2 = IterDistributedSampler.indices s1 /\
    IterDistributedSampler.num_samples s2
    = IterDistributedSampler.num_samples s1.
Proof.
  intros Hlen H.
  unfold IterDistributedSampler.init, IterDistributedSampler.build_indices,
    IterDistributedSampler.epoch_step, IterDistributedSampler.epoch_indices,
    len in *.
  rewrite Hlen in H.
  repeat (apply bind_Ok in H;
          let x := fresh "x" in let g1 := fresh "g" in
          let Hs := fresh "Hs" in
          destruct H as (x & g1 & Hs & H);
          rewrite (bind_eq_Ok _ Hs)).
  apply ret_Ok in H. inversion H; subst. eexists. split; [reflexivity|].
  split; reflexivity.
Qed.

(** C6.  Two constructions of [IterDistributedSampler] with datasets of the
    same size and the same [total_epochs], [batch_size], [num_replicas],
    [rank] and [shuffle] emit the same index sequence, whatever the
    process-wide random state is at either construction, and leave that
    state as it was: the permutation of an epoch depends on the epoch number
    alone.  With the same dataset the two samplers are equal. *)
Theorem distributed_deterministic :
  forall G ds1 ds2 total_epochs batch_size num_replicas rank shuffle
         g1 g2 s1 s2 g1' g2',
    List.length ds1 = List.length ds2 ->
    IterDistributedSampler.init G ds1 total_epochs batch_size
      num_replicas rank shuffle g1 = Ok (s1, g1') ->
    IterDistributedSampler.init G ds2 total_epochs batch_size
      num_replicas rank shuffle g2 = Ok (s2, g2') ->
    IterDistributedSampler.iter s1 = IterDistributedSampler.iter s2 /\
    IterDistributedSampler.__len__ s1 = IterDistributedSampler.__len__ s2 /\
    g1' = g1 /\ g2' = g2 /\
    (ds1 = ds2 -> s1 = s2).
Proof.
  intros G ds1 ds2 total_epochs batch_size num_replicas rank shuffle
         g1 g2 s1 s2 g1' g2' Hsize H1 H2.
  assert (Hpure : forall ds g g' s,
             IterDistributedSampler.init G ds total_epochs batch_size
               num_replicas rank shuffle g = Ok (s, g') ->
             g' = g /\
             forall g0,
               IterDistributedSampler.init G ds total_epochs batch_size
                 num_replicas rank shuffle g0 = Ok (s, g0)).
  { intros ds g g' s H.
    destruct (rng_free_distributed_init G ds total_epochs batch_size
                num_replicas rank shuffle) as [r Hr].
    rewrite Hr in H. destruct r as [s0|e|]; try discriminate.
    inversion H; subst. split; [reflexivity|]. intros g0. apply Hr. }
  destruct (Hpure _ _ _ _ H1) as [Hg1 _].
  destruct (Hpure _ _ _ _ H2) as [Hg2 Hany2]. subst g1' g2'.
  destruct (distributed_init_by_size _ _ _ _ _ _ _ _ _ _ _ Hsize H1)
    as (s2' & Hinit2 & Hidx & Hnum).
  rewrite (Hany2 g1) in Hinit2.
  assert (s2' = s2) by congruence. subst s2'.
  split; [symmetry; exact Hidx|]. split; [symmetry; exact Hnum|].
  split; [reflexivity|]. split; [reflexivity|].
  intros ->. rewrite (Hany2 g1) in H1. congruence.
Qed.

Lemma distributed_deterministic_witness :
  IterDistributedSampler.iter ex_distributed_sampler
  = [9; 7; 5; 3; 8; 6; 4; 2]%Z /\
  IterDistributedSampler.__len__ ex_distributed_sampler = 8%Z.
Proof.
  pose proof (distributed_deterministic demo_globals ex_items10
                (rev ex_items10) 2 2 (Some 2%Z) (Some 0%Z) true [] [5; 7]
                ex_distributed_sampler
                (IterDistributedSampler.mk (rev ex_items10) 2 2 0 0 true 4 8 8
                   [9; 7; 5; 3; 8; 6; 4; 2]%Z)
                [] [5; 7] eq_refl
                ltac:(vm_compute; reflexivity)
                ltac:(vm_compute; reflexivity)) as (Hiter & Hlen & _).
  split; [exact Hiter|exact Hlen].
Defined.

(** ** Reported lengths *)

(** *** RandomIdentitySampler: the estimate bounds the pass *)

Lemma zsum_app l1 l2 : zsum (l1 ++ l2) = (zsum l1 + zsum l2)%Z.
Proof.
  unfold zsum. induction l1 as [|x l1 IH]; cbn; [reflexivity|].
  rewrite IH. lia.
Qed.

Lemma zsum_cons x l : zsum (x :: l) = (x + zsum l)%Z.
Proof. reflexivity. Qed.

Lemma zsum_le {A} (f g : A -> Z) (l : list A) :
  (forall x, In x l -> (f x <= g x)%Z) ->
  (zsum (map f l) <= zsum (map g l))%Z.
Proof.
  induction l as [|x l IH]; intros H; cbn [map]; [cbn; lia|].
  rewrite !zsum_cons.
  pose proof (H x (or_introl eq_refl)).
  pose proof (IH (fun y Hy => H y (or_intror Hy))). lia.
Qed.

Lemma zsum_indicator_out (x : Z) (l : list Z) :
  ~ In x l ->
  zsum (map (fun p => if Z.eq_dec x p then 1 else 0)%Z l) = 0%Z.
Proof.
  induction l as [|z l IH]; intros Hout; [reflexivity|].
  cbn [map]. rewrite zsum_cons.
  destruct (Z.eq_dec x z) as [->|_]; [exfalso; apply Hout; now left|].
  rewrite IH; [reflexivity|]. intros Hin. apply Hout. now right.
Qed.

Lemma zsum_indicator (x : Z) (l : list Z) :
  NoDup l -> In x l ->
  zsum (map (fun p => if Z.eq_dec x p then 1 else 0)%Z l) = 1%Z.
Proof.
  induction l as [|y l IH]; intros Hnd Hin; [destruct Hin|].
  inversion Hnd; subst. cbn [map]. rewrite zsum_cons.
  destruct (Z.eq_dec x y) as [->|Hne].
  - rewrite zsum_indicator_out by assumption. reflexivity.
  - destruct Hin as [Heq|Hin]; [congruence|].
    rewrite (IH H2 Hin). reflexivity.
Qed.

Lemma zsum_map_add {A} (f g : A -> Z) (l : list A) :
  zsum (map (fun x => f x + g x)%Z l) = (zsum (map f l) + zsum (map g l))%Z.
Proof.
  induction l as [|x l IH]; cbn [map]; [reflexivity|].
  rewrite !zsum_cons, IH. lia.
Qed.

(** Counting a list by the values it takes. *)
Lemma length_by_value (xs l : list Z) :
  NoDup l -> incl xs l ->
  len xs = zsum (map (fun p => Z.of_nat (count_occ Z.eq_dec xs p)) l).
Proof.
  intros Hnd. induction xs as [|x xs IH]; intros Hincl.
  - cbn [count_occ]. clear. induction l as [|y l IHl]; [reflexivity|].
    cbn [map]. rewrite zsum_cons, <- IHl. reflexivity.
  - assert (Hx : In x l) by (apply Hincl; now left).
    assert (Hxs : incl xs l) by (intros y Hy; apply Hincl; now right).
    unfold len in *. cbn [List.length]. rewrite Nat2Z.inj_succ, (IH Hxs).
    rewrite <- Z.add_1_r, <- (zsum_indicator x l Hnd Hx) at 1.
    rewrite <- zsum_map_add. f_equal.
    apply map_ext. intros p. cbn [count_occ].
    destruct (Z.eq_dec x p); lia.
Qed.

Lemma fold_estimate index_dic ni l : forall acc,
  fold_left (RandomIdentitySampler.estimate_step index_dic ni) l acc
  = (acc + zsum (map (fun p =>
                   let num := Z.max (len (dict_get index_dic p)) ni in
                   num - num mod ni) l))%Z.
Proof.
  induction l as [|p l IH]; intros acc; cbn [fold_left map].
  - cbn. lia.
  - rewrite IH, zsum_cons. unfold RandomIdentitySampler.estimate_step.
    cbv zeta. destruct (Z.ltb_spec (len (dict_get index_dic p)) ni).
    + rewrite Z.max_r by lia. lia.
    + rewrite Z.max_l by lia. lia.
Qed.

(** The reported length is the sum of the terms of the identities. *)
Lemma identity_len_sum data_source batch_size num_instances g s g' :
  RandomIdentitySampler.init data_source batch_size num_instances g
    = Ok (s, g') ->
  RandomIdentitySampler.__len__ s
  = zsum (map (estimate_term data_source num_instances)
              (keys (index_by pid data_source))).
Proof.
  intros H. apply init_Ok in H. destruct H as (_ & _ & _ & _ & ->).
  unfold RandomIdentitySampler.__len__. cbn.
  rewrite fold_estimate. cbn. f_equal. apply map_ext. intros p.
  unfold estimate_term, len. now rewrite index_by_count.
Qed.

Lemma estimate_term_multiple data_source num_instances p :
  num_instances <> 0%Z ->
  estimate_term data_source num_instances p
  = (num_instances
     * (Z.max (Z.of_nat (count_label pid data_source p)) num_instances
        / num_instances))%Z.
Proof.
  intros Hnz. unfold estimate_term. cbv zeta.
  pose proof (Z.div_mod
                (Z.max (Z.of_nat (count_label pid data_source p)) num_instances)
                num_instances Hnz). lia.
Qed.

Lemma zsum_divide ni (f : Z -> Z) (l : list Z) :
  (forall p, (ni | f p)%Z) -> (ni | zsum (map f l))%Z.
Proof.
  intros H. induction l as [|p l IH]; cbn [map].
  - apply Z.divide_0_r.
  - rewrite zsum_cons. apply Z.divide_add_r; [apply H|exact IH].
Qed.

Lemma zsum_scale {A} (c : Z) (f : A -> Z) (l : list A) :
  zsum (map (fun x => c * f x)%Z l) = (c * zsum (map f l))%Z.
Proof.
  induction l as [|x l IH]; cbn [map]; [cbn; lia|].
  rewrite !zsum_cons, IH. lia.
Qed.

(** The identity of a block is one of the sampler's identities. *)
Lemma block_label_known data_source batch_size num_instances g s g' b :
  RandomIdentitySampler.init data_source batch_size num_instances g
    = Ok (s, g') ->
  (0 < num_instances)%Z ->
  block_ok s b -> In (fst b) (RandomIdentitySampler.pids s).
Proof.
  intros Hinit Hpos [Hl Hin]. apply init_Ok in Hinit.
  destruct Hinit as (_ & _ & _ & _ & ->). cbn in *.
  destruct (snd b) as [|i c]; [unfold len in Hl; cbn in Hl; lia|].
  specialize (Hin i (or_introl eq_refl)). apply index_by_In in Hin.
  destruct Hin as (it & Hn & Hp). apply index_by_keys.
  exists it. split; [eapply nth_error_In; eassumption|assumption].
Qed.

(** A pass is no longer than the estimate; both are multiples of
    [num_instances]. *)
Lemma identity_pass_bound data_source batch_size num_instances g0 s g1 :
  RandomIdentitySampler.init data_source batch_size num_instances g0
    = Ok (s, g1) ->
  (num_instances | RandomIdentitySampler.__len__ s)%Z /\
  forall fuel g out g',
    RandomIdentitySampler.iter s fuel g = Ok (out, g') ->
    (len out <= RandomIdentitySampler.__len__ s)%Z /\
    (num_instances | len out)%Z.
Proof.
  intros Hinit.
  pose proof (init_Ok _ _ _ _ _ _ Hinit) as (_ & Hle & Hnz & Hnpb & Hs).
  pose proof (identity_len_sum _ _ _ _ _ _ Hinit) as Hlen.
  assert (Hnd : NoDup (RandomIdentitySampler.pids s)).
  { subst s. cbn. apply index_by_keys_NoDup. }
  split.
  { rewrite Hlen. apply zsum_divide. intros p.
    rewrite estimate_term_multiple by assumption. apply Z.divide_factor_l. }
  intros fuel g out g' Hiter.
  destruct (Z.lt_trichotomy num_instances 0) as [Hneg|[Hz|Hpos]];
    [|contradiction|].
  { exfalso. revert Hiter. apply iter_negative; subst s; cbn; assumption. }
  destruct (iter_inv s fuel g out g' Hnd Hiter)
    as (st & blocks & Hout & Hfin & Hblocks & _ & Hbud).
  assert (Hni : RandomIdentitySampler.num_instances s = num_instances)
    by (subst s; reflexivity).
  assert (Hpids : RandomIdentitySampler.pids s
                  = keys (index_by pid data_source))
    by (subst s; reflexivity).
  assert (Hcount : len out = (num_instances * len blocks)%Z).
  { rewrite Hout, Hfin. apply concat_const_length.
    intros b Hb. rewrite Forall_forall in Hblocks.
    destruct (Hblocks b Hb) as [Hl _]. now rewrite <- Hni. }
  split; [|rewrite Hcount; apply Z.divide_factor_l].
  assert (Hlab : incl (map fst blocks) (RandomIdentitySampler.pids s)).
  { intros p Hp. apply in_map_iff in Hp. destruct Hp as (b & <- & Hb).
    rewrite Forall_forall in Hblocks.
    eapply block_label_known; eauto. }
  assert (Hlenb : len blocks = len (map fst blocks)).
  { unfold len. now rewrite length_map. }
  rewrite Hcount, Hlenb, (length_by_value _ _ Hnd Hlab), <- zsum_scale.
  rewrite Hlen, <- Hpids. apply zsum_le. intros p _.
  rewrite estimate_term_multiple by assumption.
  rewrite Hni in Hbud. specialize (Hbud Hpos p).
  fold (emitted_by blocks p).
  assert (Hgroup : len (dict_get (RandomIdentitySampler.index_dic s) p)
                   = Z.of_nat (count_label pid data_source p)).
  { subst s. cbn. unfold len. now rewrite index_by_count. }
  rewrite Hgroup in Hbud.
  apply Z.mul_le_mono_nonneg_l; [lia|].
  apply Z.div_le_lower_bound; [assumption|].
  pose proof (Zle_0_nat (List.length
    (dict_get (RandomIdentitySampler.batch_idxs_dict st) p))).
  unfold len in Hbud. nia.
Qed.

(** *** RandomDomainSampler and RandomDatasetSampler: the measured pass *)

Lemma existsb_agree {A} (f h : A -> bool) (l : list A) :
  (forall x, In x l -> f x = h x) -> existsb f l = existsb h l.
Proof.
  induction l as [|x l IH]; intros H; cbn; [reflexivity|].
  rewrite (H x (or_introl eq_refl)), IH; [reflexivity|].
  intros y Hy. apply H. now right.
Qed.

Lemma existsb_perm {A} (f : A -> bool) (l l' : list A) :
  Permutation l l' -> existsb f l = existsb f l'.
Proof.
  induction 1 as [|x l l' _ IH|x y l|l l' l'' _ IH1 _ IH2]; cbn.
  - reflexivity.
  - now rewrite IH.
  - destruct (f x), (f y); reflexivity.
  - congruence.
Qed.

Lemma sample_round_sizes n_img selected : forall st g st' drs g',
  sample_round n_img selected st g = Ok ((st', drs), g') ->
  NoDup selected ->
  (forall k, In k selected ->
     len (dict_get (cur_dict st') k)
     = (len (dict_get (cur_dict st) k) - n_img)%Z) /\
  (forall k, ~ In k selected ->
     dict_get (cur_dict st') k = dict_get (cur_dict st) k) /\
  stop_sampling st'
  = existsb (fun k => (len (dict_get (cur_dict st) k) - n_img <? n_img)%Z)
            selected
    || stop_sampling st /\
  len (final_idxs st') = (len (final_idxs st) + len selected * n_img)%Z.
Proof.
  induction selected as [|k selected IH]; intros st g st' drs g' H Hnd.
  - cbn in H. inv_ok. cbn. repeat split; try tauto. unfold len. cbn. lia.
  - cbn [sample_round] in H. inv_ok_pairs. inversion Hnd; subst.
    apply draw_domain_Ok in Hm.
    destruct Hm as (sel & rest & _ & -> & Hl & Hp).
    apply IH in Hm0; [|assumption]. cbn in Hm0.
    destruct Hm0 as (Hin & Hout & Hstop & Hlen).
    assert (Hrest : len rest
                    = (len (dict_get (cur_dict st) k) - n_img)%Z).
    { apply Permutation_length in Hp. rewrite length_app in Hp.
      unfold len in *. lia. }
    split; [|split; [|split]].
    + intros q [<-|Hq].
      * rewrite Hout by assumption. now rewrite dict_get_set_same.
      * rewrite (Hin q Hq). rewrite dict_get_set_other; [reflexivity|].
        intros ->. contradiction.
    + intros q Hq. rewrite Hout by (intros Hc; apply Hq; now right).
      apply dict_get_set_other. intros ->. apply Hq. now left.
    + rewrite Hstop. cbn [existsb]. rewrite Hrest.
      rewrite (existsb_agree _
        (fun q => (len (dict_get (cur_dict st) q) - n_img <? n_img)%Z)).
      * destruct (len (dict_get (cur_dict st) k) - n_img <? n_img)%Z;
          cbn; [now rewrite orb_true_r|reflexivity].
      * intros q Hq. rewrite dict_get_set_other; [reflexivity|].
        intros ->. contradiction.
    + rewrite Hlen. unfold len in *. rewrite length_app. cbn [List.length].
      lia.
Qed.

(** A draw of as many labels as there are selects them all. *)
Lemma sample_all (domains : list Z) g selected g' :
  random_sample domains (len domains) g = Ok (selected, g') ->
  Permutation domains selected.
Proof.
  intros H. apply random_sample_Ok in H. destruct H as (_ & Hl & rest & Hp).
  assert (rest = []).
  { apply Permutation_length in Hp. rewrite length_app in Hp.
    unfold len in Hl. destruct rest; [reflexivity|]. cbn in Hp. lia. }
  subst. now rewrite app_nil_r in Hp.
Qed.

(** When every label is drawn in every round, the length of a pass does
    not depend on the draws. *)
Lemma while_loop_same_length domains n_img fuel1 :
  forall fuel2 st1 st2 g1 g2 st1' rounds1 g1' st2' rounds2 g2',
    NoDup domains ->
    sizes_agree domains st1 st2 ->
    stop_sampling st1 = stop_sampling st2 ->
    while_loop fuel1 domains (len domains) n_img st1 g1
    = Ok ((st1', rounds1), g1') ->
    while_loop fuel2 domains (len domains) n_img st2 g2
    = Ok ((st2', rounds2), g2') ->
    (len (final_idxs st1') - len (final_idxs st1)
     = len (final_idxs st2') - len (final_idxs st2))%Z.
Proof.
  induction fuel1 as [|fuel1 IH];
    intros fuel2 st1 st2 g1 g2 st1' rounds1 g1' st2' rounds2 g2'
           Hnd Hsz Hstop H1 H2; [discriminate|].
  destruct fuel2 as [|fuel2]; [discriminate|].
  cbn [while_loop] in H1, H2. rewrite <- Hstop in H2.
  destruct (stop_sampling st1) eqn:Hs1; cbn [negb] in H1, H2.
  - inv_ok. lia.
  - apply bind_Ok in H1. destruct H1 as (sel1 & ga & Hm1 & H1).
    apply bind_Ok in H1. destruct H1 as ([sta r1] & gb & Hr1 & H1).
    apply bind_Ok in H1. destruct H1 as ([stc rs1] & gc & Hw1 & H1).
    apply ret_Ok in H1. inversion H1; subst st1' rounds1 g1'. clear H1.
    apply bind_Ok in H2. destruct H2 as (sel2 & gd & Hm2 & H2).
    apply bind_Ok in H2. destruct H2 as ([ste r2] & ge & Hr2 & H2).
    apply bind_Ok in H2. destruct H2 as ([stf rs2] & gf & Hw2 & H2).
    apply ret_Ok in H2. inversion H2; subst st2' rounds2 g2'. clear H2.
    pose proof (sample_all _ _ _ _ Hm1) as Hp1.
    pose proof (sample_all _ _ _ _ Hm2) as Hp2.
    assert (Hnd1 : NoDup sel1) by (eapply Permutation_NoDup; eassumption).
    assert (Hnd2 : NoDup sel2) by (eapply Permutation_NoDup; eassumption).
    apply sample_round_sizes in Hr1; [|assumption].
    apply sample_round_sizes in Hr2; [|assumption].
    destruct Hr1 as (Hin1 & _ & Hst1 & Hlen1).
    destruct Hr2 as (Hin2 & _ & Hst2 & Hlen2).
    assert (Hlen_sel : len sel1 = len sel2).
    { unfold len. now rewrite <- (Permutation_length Hp1),
                              <- (Permutation_length Hp2). }
    assert (Hsz' : sizes_agree domains sta ste).
    { intros k Hk.
      rewrite Hin1 by (eapply Permutation_in; eassumption).
      rewrite Hin2 by (eapply Permutation_in; eassumption).
      now rewrite (Hsz k Hk). }
    assert (Hstop' : stop_sampling sta = stop_sampling ste).
    { rewrite Hst1, Hst2, <- Hstop, Hs1.
      rewrite <- (existsb_perm _ _ _ Hp1), <- (existsb_perm _ _ _ Hp2).
      f_equal. apply existsb_agree. intros k Hk. now rewrite (Hsz k Hk). }
    pose proof (IH fuel2 sta ste _ _ _ _ _ _ _ _ Hnd Hsz' Hstop' Hw1 Hw2).
    lia.
Qed.

(** The pass that the constructor measures. *)
Lemma balanced_len_measured label data_source batch_size n_domain0 fuel g0 s g1 :
  init label data_source batch_size n_domain0 fuel g0 = Ok (s, g1) ->
  exists out, iter s fuel g0 = Ok (out, g1) /\ __len__ s = len out.
Proof.
  intros H. apply balanced_init_Ok in H.
  destruct H as (_ & _ & out & Hout & ->). exists out.
  split; [exact Hout|reflexivity].
Qed.

Lemma iter_same_length s fuel1 g1 out1 g1' fuel2 g2 out2 g2' :
  NoDup (domains s) ->
  n_domain s = len (domains s) ->
  iter s fuel1 g1 = Ok (out1, g1') ->
  iter s fuel2 g2 = Ok (out2, g2') ->
  len out1 = len out2.
Proof.
  intros Hnd Hall H1 H2.
  apply iter_rounds_of in H1. destruct H1 as (st1 & r1 & Hr1 & -> & _).
  apply iter_rounds_of in H2. destruct H2 as (st2 & r2 & Hr2 & -> & _).
  unfold run_pass in Hr1, Hr2. rewrite Hall in Hr1, Hr2.
  pose proof (while_loop_same_length _ _ _ _ _ _ _ _ _ _ _ _ _ _ Hnd
                (fun k _ => eq_refl) eq_refl Hr1 Hr2) as H.
  cbn in H. unfold len in *. cbn in H. lia.
Qed.

Lemma distributed_len_exact G dataset total_epochs batch_size num_replicas
      rank shuffle g s g' :
  IterDistributedSampler.init G dataset total_epochs batch_size num_replicas
    rank shuffle g = Ok (s, g') ->
  IterDistributedSampler.__len__ s = len (IterDistributedSampler.iter s).
Proof.
  unfold IterDistributedSampler.init. intros H. inv_ok.
  repeat match goal with
    | Hb : (_ =? _)%Z = true |- _ => apply Z.eqb_eq in Hb
    end.
  cbn. congruence.
Qed.

(** C4, as the code has it.  [RandomDomainSampler] and
    [RandomDatasetSampler] report the length of the pass their constructor
    ran, which is the length of every pass when every label is drawn in
    every round ([n_domain] equal to the number of labels);
    [IterDistributedSampler] and [InferenceSampler] report exactly what
    they emit; [RandomIdentitySampler] reports the sum over the identities
    of [max(count, num_instances) - max(count, num_instances) %
    num_instances], which no pass exceeds, the report and the length of a
    pass being multiples of [num_instances]. *)
Theorem reported_lengths :
  (forall label data_source batch_size n_domain0 fuel g0 s g1,
      init label data_source batch_size n_domain0 fuel g0 = Ok (s, g1) ->
      (exists out, iter s fuel g0 = Ok (out, g1) /\ __len__ s = len out) /\
      (n_domain s = len (domains s) ->
       forall fuel' g out g',
         iter s fuel' g = Ok (out, g') -> __len__ s = len out)) /\
  (forall G dataset total_epochs batch_size num_replicas rank shuffle g s g',
      IterDistributedSampler.init G dataset total_epochs batch_size
        num_replicas rank shuffle g = Ok (s, g') ->
      IterDistributedSampler.__len__ s
      = len (IterDistributedSampler.iter s)) /\
  (forall G data_num num_replicas rank g s g',
      InferenceSampler.init G data_num num_replicas rank g = Ok (s, g') ->
      InferenceSampler.__len__ s = len (InferenceSampler.iter s)) /\
  (forall data_source batch_size num_instances g0 s g1,
      RandomIdentitySampler.init data_source batch_size num_instances g0
        = Ok (s, g1) ->
      RandomIdentitySampler.__len__ s
      = zsum (map (estimate_term data_source num_instances)
                  (keys (index_by pid data_source))) /\
      (num_instances | RandomIdentitySampler.__len__ s)%Z /\
      forall fuel g out g',
        RandomIdentitySampler.iter s fuel g = Ok (out, g') ->
        (len out <= RandomIdentitySampler.__len__ s)%Z /\
        (num_instances | len out)%Z).
Proof.
  split; [|split; [|split]].
  - intros label ds bs nd fuel g0 s g1 Hinit.
    pose proof (balanced_len_measured _ _ _ _ _ _ _ _ Hinit)
      as (out0 & Hout0 & Hlen0).
    split; [eauto|]. intros Hall fuel' g out g' Hiter.
    apply balanced_init_wf in Hinit. destruct Hinit as [Hnd _].
    rewrite Hlen0. eapply iter_same_length; eassumption.
  - intros. eapply distributed_len_exact. eassumption.
  - intros. reflexivity.
  - intros ds bs ni g0 s g1 Hinit.
    split; [eapply identity_len_sum; eassumption|].
    exact (identity_pass_bound ds bs ni g0 s g1 Hinit).
Qed.

Lemma reported_lengths_witness :
  (exists out, iter ex_domain_sampler 10 [] = Ok (out, [])
               /\ __len__ ex_domain_sampler = len out) /\
  (iter ex_all_domains_sampler 10 [3; 1; 4; 1; 5; 9; 2; 6]
   = Ok ([4; 1; 5; 0], []) /\
   __len__ ex_all_domains_sampler = len [4; 1; 5; 0]) /\
  IterDistributedSampler.__len__ ex_distributed_sampler
  = len (IterDistributedSampler.iter ex_distributed_sampler) /\
  InferenceSampler.__len__ ex_inference_sampler
  = len (InferenceSampler.iter ex_inference_sampler) /\
  (len [1; 0; 3; 3] <= RandomIdentitySampler.__len__ ex_identity_sampler)%Z.
Proof.
  destruct reported_lengths as (Hbal & Hdist & Hinf & Hid).
  split; [|split; [|split; [|split]]].
  - refine (proj1 (Hbal camid ex_cams 2%Z (Some 1%Z) 10 []
                        ex_domain_sampler [] _)).
    vm_compute. reflexivity.
  - split; [vm_compute; reflexivity|].
    refine (proj2 (Hbal camid ex_cams 2%Z None 10 []
                        ex_all_domains_sampler [] _) _
                  10 [3; 1; 4; 1; 5; 9; 2; 6] [4; 1; 5; 0] [] _);
      vm_compute; reflexivity.
  - refine (Hdist demo_globals ex_items10 2%Z 2%Z (Some 2%Z) (Some 0%Z)
                  true []
                  ex_distributed_sampler [] _).
    vm_compute. reflexivity.
  - refine (Hinf module_globals 10%Z (Some 3%Z) (Some 2%Z) []
                 ex_inference_sampler [] _).
    vm_compute. reflexivity.
  - refine (proj1 (proj2 (proj2 (Hid ex_items 4%Z 2%Z []
                                     ex_identity_sampler [] _))
                         10 [1; 2; 0; 5; 3; 1] [1; 0; 3; 3] [] _));
      vm_compute; reflexivity.
Defined.

(** C4 as stated fails for [RandomDomainSampler]: with one of the two
    cameras of [ex_cams] drawn per round, the constructor's pass draws
    camera 1 and stops after 2 indices, and the next pass draws camera 0
    twice and emits 4. *)
Lemma domain_len_is_not_pass_length :
  exists s g1 out g2,
    RandomDomainSampler.init ex_cams 2 (Some 1%Z) 10 [1] = Ok (s, g1) /\
    RandomDomainSampler.iter s 10 g1 = Ok (out, g2) /\
    RandomDomainSampler.__len__ s = 2%Z /\
    len out = 4%Z /\
    RandomDomainSampler.__len__ s <> len out.
Proof.
  do 4 eexists. split; [vm_compute; reflexivity|].
  split; [vm_compute; reflexivity|].
  split; [reflexivity|]. split; [reflexivity|]. vm_compute. discriminate.
Qed.

(** ** RandomIdentitySampler: a pass is produced *)

Section IdentityProgress.
Import RandomIdentitySampler.

Lemma prepare_pid_total s p d g :
  (0 < num_instances s)%Z ->
  dict_get (index_dic s) p <> [] ->
  exists d' g', prepare_pid s p d g = Ok (d', g').
Proof.
  intros Hni Hne. unfold prepare_pid.
  assert (Hpad : exists idxs1 g1,
             (if (len (dict_get (index_dic s) p) <? num_instances s)%Z
              then np_random_choice (dict_get (index_dic s) p)
                                    (num_instances s)
              else ret (dict_get (index_dic s) p)) g = Ok (idxs1, g1)).
  { destruct (len (dict_get (index_dic s) p) <? num_instances s)%Z.
    - unfold np_random_choice. destruct (Z.ltb_spec (num_instances s) 0);
        [lia|].
      destruct (dict_get (index_dic s) p) as [|d0 l]; [congruence|].
      apply choice_loop_total.
    - eexists _, _. reflexivity. }
  destruct Hpad as (idxs1 & g1 & Hpad). rewrite (bind_eq_Ok _ Hpad).
  destruct (random_shuffle_total idxs1 g1) as (idxs2 & g2 & Hsh).
  rewrite (bind_eq_Ok _ Hsh). eexists _, _. reflexivity.
Qed.

(** After [prepare_pid] the identity has a chunk queued. *)
Lemma prepare_pid_queued s p d g d' g' :
  (0 < num_instances s)%Z ->
  prepare_pid s p d g = Ok (d', g') ->
  dict_get d' p <> [] /\
  forall q, dict_get d q <> [] -> dict_get d' q <> [].
Proof.
  intros Hni H. unfold prepare_pid in H. inv_ok.
  rename a into idxs1, a0 into idxs2.
  assert (Hlen : (num_instances s <= len idxs1)%Z).
  { destruct (Z.ltb_spec (len (dict_get (index_dic s) p)) (num_instances s)).
    - apply np_random_choice_Ok in Hm. lia.
    - inv_ok. lia. }
  apply random_shuffle_Ok in Hm0. apply Permutation_length in Hm0.
  destruct (fold_left (chunk_step (num_instances s) p) idxs2 ([], d))
    as [acc' d''] eqn:Hf.
  cbn. apply chunk_fold in Hf.
  destruct Hf as [Hoth (new & Hget & _ & Hcnt)].
  destruct (Hcnt Hni) as [Hc1 Hc2]; [unfold len; cbn; lia|].
  assert (Hnew : new <> []).
  { intros ->. unfold len in *. cbn in *. lia. }
  split.
  - rewrite Hget. intros Happ. apply app_eq_nil in Happ. tauto.
  - intros q Hq. destruct (Z.eq_dec q p) as [->|Hqp].
    + rewrite Hget. intros Happ. apply app_eq_nil in Happ. tauto.
    + now rewrite Hoth.
Qed.

Lemma prepare_all_total s l : forall d g,
  (0 < num_instances s)%Z ->
  (forall p, In p l -> dict_get (index_dic s) p <> []) ->
  exists d' g',
    for_each l (prepare_pid s) d g = Ok (d', g') /\
    (forall p, In p l -> dict_get d' p <> []) /\
    (forall q, dict_get d q <> [] -> dict_get d' q <> []).
Proof.
  induction l as [|p l IH]; intros d g Hni Hgroups; cbn [for_each].
  - exists d, g. split; [reflexivity|]. split; [intros p []|auto].
  - destruct (prepare_pid_total s p d g Hni (Hgroups p (or_introl eq_refl)))
      as (d1 & g1 & H1).
    rewrite (bind_eq_Ok _ H1).
    destruct (prepare_pid_queued _ _ _ _ _ _ Hni H1) as [Hp Hkeep].
    destruct (IH d1 g1 Hni (fun q Hq => Hgroups q (or_intror Hq)))
      as (d' & g' & Hrest & Hl & Hkeep').
    exists d', g'. split; [exact Hrest|]. split.
    + intros q [<-|Hq]; [now apply Hkeep'|now apply Hl].
    + intros q Hq. apply Hkeep'. now apply Hkeep.
Qed.

Lemma list_sum_perm l l' : Permutation l l' -> list_sum l = list_sum l'.
Proof.
  unfold list_sum.
  induction 1 as [|x l l' _ IH|x y l|l l' l'' _ IH1 _ IH2]; cbn; lia.
Qed.

(** One queue shortened by one: the sum over distinct keys drops by one. *)
Lemma list_sum_shorten (f f' : Z -> nat) (p : Z) (l : list Z) :
  NoDup l -> In p l ->
  S (f' p) = f p ->
  (forall q, q <> p -> f' q = f q) ->
  S (list_sum (map f' l)) = list_sum (map f l).
Proof.
  induction l as [|y l IH]; intros Hnd Hin Hp Hoth; [destruct Hin|].
  inversion Hnd; subst. cbn [map list_sum fold_right].
  destruct (Z.eq_dec y p) as [->|Hne].
  - assert (Hsame : map f' l = map f l).
    { apply map_ext_in. intros q Hq. apply Hoth. intros ->. contradiction. }
    unfold list_sum in *. cbn. rewrite Hsame. lia.
  - destruct Hin as [Heq|Hin]; [congruence|].
    specialize (IH H2 Hin Hp Hoth). rewrite (Hoth y Hne).
    unfold list_sum in *. cbn. lia.
Qed.

(** Popping a chunk of an available identity succeeds, keeps the loop
    state well formed and takes one chunk off the queues. *)
Lemma take_chunk_progress p st g :
  loop_wf st -> In p (avai_pids st) ->
  exists st',
    take_chunk p st g = Ok (st', g) /\
    loop_wf st' /\
    S (queued st') = queued st /\
    (forall q, In q (avai_pids st) -> q <> p -> In q (avai_pids st')).
Proof.
  intros [Hnd Hne] Hin. unfold take_chunk.
  destruct (dict_get (batch_idxs_dict st) p) as [|c rest] eqn:Hq.
  { exfalso. now apply (Hne p Hin). }
  destruct (Z.eqb_spec (len rest) 0) as [Hz|Hnz].
  - assert (rest = []) by (destruct rest; [reflexivity|discriminate]).
    subst rest.
    destruct (list_remove_In _ _ Z.eqb_eq p (avai_pids st) Hin) as [avai Hrem].
    rewrite Hrem. eexists. split; [reflexivity|].
    apply (list_remove_perm _ _ Z.eqb_eq) in Hrem.
    assert (Hnd' : NoDup (p :: avai)) by (eapply Permutation_NoDup; eassumption).
    inversion Hnd'; subst.
    split; [|split].
    + split; [assumption|]. cbn. intros q Hqa.
      rewrite dict_get_set_other by (intros ->; contradiction).
      apply Hne. eapply Permutation_in; [symmetry; exact Hrem|now right].
    + unfold queued. cbn.
      rewrite (list_sum_perm _ _ (Permutation_map _ Hrem)). cbn. rewrite Hq.
      cbn. f_equal. f_equal. apply map_ext_in. intros q Hqa.
      rewrite dict_get_set_other by (intros ->; contradiction). reflexivity.
    + cbn. intros q Hqa Hqp.
      apply (Permutation_in _ Hrem) in Hqa. destruct Hqa; congruence.
  - eexists. split; [reflexivity|]. split; [|split].
    + split; [assumption|]. cbn. intros q Hqa.
      rewrite dict_get_set. destruct (Z.eqb_spec p q).
      * intros ->. apply Hnz. reflexivity.
      * now apply Hne.
    + unfold queued. cbn. apply list_sum_shorten with (p := p); try assumption.
      * rewrite dict_get_set_same, Hq. reflexivity.
      * intros q Hqp. rewrite dict_get_set_other by congruence. reflexivity.
    + cbn. auto.
Qed.

Lemma take_chunks_progress selected : forall st g,
  loop_wf st -> NoDup selected -> incl selected (avai_pids st) ->
  exists st',
    for_each selected take_chunk st g = Ok (st', g) /\
    loop_wf st' /\
    List.length selected + queued st' = queued st.
Proof.
  induction selected as [|p selected IH]; intros st g Hwf Hnd Hincl;
    cbn [for_each].
  - exists st. split; [reflexivity|]. split; [assumption|reflexivity].
  - apply NoDup_cons_iff in Hnd. destruct Hnd as [Hout Hnd].
    destruct (take_chunk_progress p st g Hwf (Hincl p (or_introl eq_refl)))
      as (st1 & Htake & Hwf1 & Hq1 & Hkeep).
    rewrite (bind_eq_Ok _ Htake).
    destruct (IH st1 g Hwf1 Hnd) as (st' & Hrest & Hwf' & Hq').
    { intros q Hq. apply Hkeep; [apply Hincl; now right|].
      intros ->. contradiction. }
    exists st'. split; [exact Hrest|]. split; [assumption|].
    cbn [List.length]. lia.
Qed.

(** The loop leaves within as many turns as chunks are queued. *)
Lemma while_loop_terminates npb fuel : forall st g,
  (0 < npb)%Z -> loop_wf st -> queued st < fuel ->
  exists out g', while_loop fuel npb st g = Ok (out, g').
Proof.
  induction fuel as [|fuel IH]; intros st g Hnpb Hwf Hq; [lia|].
  cbn [while_loop].
  destruct (Z.leb_spec npb (len (avai_pids st))) as [Hle|Hgt].
  - destruct (random_sample_total (avai_pids st) npb g ltac:(lia))
      as (selected & g1 & Hs).
    rewrite (bind_eq_Ok _ Hs).
    destruct (sample_Ok_NoDup _ _ _ _ _ Hs (proj1 Hwf)) as (Hl & Hnd & Hincl).
    destruct (take_chunks_progress selected st g1 Hwf Hnd Hincl)
      as (st' & Hrun & Hwf' & Hq').
    rewrite (bind_eq_Ok _ Hrun). apply IH; try assumption.
    unfold len in Hl. lia.
  - eexists _, _. reflexivity.
Qed.

(** With a positive [num_instances], a constructed sampler produces a
    pass, on every random tape. *)
Lemma identity_pass_exists ds bs ni g0 s g1 :
  init ds bs ni g0 = Ok (s, g1) ->
  (0 < ni)%Z ->
  forall g, exists fuel out g', iter s fuel g = Ok (out, g').
Proof.
  intros Hinit Hpos g.
  pose proof (init_Ok _ _ _ _ _ _ Hinit) as (_ & Hle & Hnz & Hnpb & Hs).
  assert (Hni : num_instances s = ni) by (subst s; reflexivity).
  assert (Hgroups : forall p, In p (pids s) -> dict_get (index_dic s) p <> []).
  { subst s. cbn. intros p Hp. apply index_by_keys in Hp.
    destruct Hp as (it & Hin & Hl). apply In_nth_error in Hin.
    destruct Hin as [i Hi].
    assert (Hg : In i (dict_get (index_by pid ds) p))
      by (apply index_by_In; eauto).
    intros Hnil. rewrite Hnil in Hg. destruct Hg. }
  destruct (prepare_all_total s (pids s) [] g ltac:(lia) Hgroups)
    as (d & g' & Hprep & Hqueued & _).
  assert (Hwf : loop_wf (mkLoop d (pids s) [])).
  { split; [|exact Hqueued]. subst s. cbn. apply index_by_keys_NoDup. }
  assert (Hnpb_pos : (0 < num_pids_per_batch s)%Z).
  { subst s. cbn. apply Z.div_str_pos. lia. }
  destruct (while_loop_terminates (num_pids_per_batch s)
              (S (queued (mkLoop d (pids s) []))) _ g' Hnpb_pos Hwf
              ltac:(lia)) as (out & g'' & Hloop).
  exists (S (queued (mkLoop d (pids s) []))), out, g''.
  unfold iter. rewrite (bind_eq_Ok _ Hprep). exact Hloop.
Qed.

End IdentityProgress.

(** C1.  In a valid configuration ([batch_size >= num_instances], at least
    [batch_size // num_instances] distinct identities) every pass that
    [RandomIdentitySampler.__iter__] produces is a concatenation of blocks
    of exactly [num_instances] positions; the positions of a block are all
    of items of one identity, so every emitted position belongs to exactly
    one identity; and no identity gives more blocks than its chunk budget
    [floor(max(count, num_instances) / num_instances)].  With a positive
    [num_instances] such a pass is produced on every random tape. *)
Theorem identity_pass_blocks :
  forall data_source batch_size num_instances g0 s g1,
    (num_instances <= batch_size)%Z ->
    (batch_size / num_instances <= len (keys (index_by pid data_source)))%Z ->
    RandomIdentitySampler.init data_source batch_size num_instances g0
      = Ok (s, g1) ->
    (forall fuel g out g',
        RandomIdentitySampler.iter s fuel g = Ok (out, g') ->
        exists blocks : list (Z * list nat),
          out = concat (map snd blocks) /\
          Forall (identity_block data_source num_instances) blocks /\
          (forall i, In i out ->
             exists! p, exists it,
               nth_error data_source i = Some it /\ pid it = p) /\
          (forall p, (Z.of_nat (emitted_by blocks p)
                      <= chunk_budget data_source num_instances p)%Z)) /\
    ((0 < num_instances)%Z ->
     forall g, exists fuel out g',
       RandomIdentitySampler.iter s fuel g = Ok (out, g')).
Proof.
  intros ds bs ni g0 s g1 _ _ Hinit.
  split; [|intros Hpos; eapply identity_pass_exists; eassumption].
  intros fuel g out g' Hiter.
  pose proof (init_Ok _ _ _ _ _ _ Hinit) as (_ & Hle & Hnz & Hnpb & Hs).
  assert (Hnd : NoDup (RandomIdentitySampler.pids s)).
  { subst s. cbn. apply index_by_keys_NoDup. }
  destruct (Z.lt_trichotomy ni 0) as [Hneg|[Hz|Hpos]]; [|contradiction|].
  - exfalso. revert Hiter. apply iter_negative; subst s; cbn; assumption.
  - destruct (iter_inv s fuel g out g' Hnd Hiter)
      as (st & blocks & Hout & Hinv).
    destruct Hinv as (Hfin & Hblocks & _ & Hbud).
    assert (Hid : Forall (identity_block ds ni) blocks).
    { eapply Forall_impl; [|exact Hblocks].
      intros b Hb. eapply block_ok_identity; eassumption. }
    exists blocks. split; [congruence|]. split; [exact Hid|]. split.
    + intros i Hi. rewrite Hout, Hfin in Hi. apply in_concat in Hi.
      destruct Hi as (c & Hc & Hic). apply in_map_iff in Hc.
      destruct Hc as ([p c'] & Hpc & Hb). cbn in Hpc. subst c'.
      rewrite Forall_forall in Hid. destruct (Hid _ Hb) as [_ Hit].
      destruct (Hit i Hic) as (it & Hn & Hp). cbn in Hp.
      exists p. split; [eauto|].
      intros p' (it' & Hn' & Hp'). congruence.
    + intros p. unfold chunk_budget.
      assert (Hni : (0 < RandomIdentitySampler.num_instances s)%Z)
        by (subst s; exact Hpos).
      specialize (Hbud Hni p). subst s. cbn in Hbud.
      unfold len in Hbud. rewrite index_by_count in Hbud.
      apply Z.div_le_lower_bound; [assumption|].
      pose proof (Zle_0_nat (List.length
        (dict_get (RandomIdentitySampler.batch_idxs_dict st) p))). nia.
Qed.

Lemma identity_pass_blocks_witness :
  exists blocks : list (Z * list nat),
    [1; 0; 3; 3] = concat (map snd blocks) /\
    Forall (identity_block ex_items 2) blocks /\
    (forall i, In i [1; 0; 3; 3] ->
       exists! p, exists it, nth_error ex_items i = Some it /\ pid it = p) /\
    (forall p, (Z.of_nat (emitted_by blocks p)
                <= chunk_budget ex_items 2 p)%Z).
Proof.
  refine (proj1 (identity_pass_blocks ex_items 4 2 [] ex_identity_sampler []
                   _ _ _)
                10 [1; 2; 0; 5; 3; 1] [1; 0; 3; 3] [] _).
  - lia.
  - vm_compute. discriminate.
  - vm_compute. reflexivity.
  - vm_compute. reflexivity.
Defined.

(** * Further properties *)

(** ** The index of a label *)

Lemma dict_values_by_key {A} (d : dict (list A)) :
  NoDup (keys d) -> map snd d = map (dict_get d) (keys d).
Proof.
  induction d as [|[k v] d IH]; intros Hnd; [reflexivity|].
  cbn in Hnd. inversion Hnd; subst. cbn. rewrite Z.eqb_refl. f_equal.
  rewrite IH by assumption. apply map_ext_in. intros q Hq.
  destruct (Z.eqb_spec k q) as [->|_]; [contradiction|reflexivity].
Qed.

(** Filtering by each of a list of distinct keys splits a list whose
    elements all carry one of the keys. *)
Lemma filter_by_key_partition {A} (f : A -> Z) (l : list A) (ks : list Z) :
  NoDup ks -> (forall x, In x l -> In (f x) ks) ->
  Permutation (concat (map (fun k => filter (fun x => (f x =? k)%Z) l) ks)) l.
Proof.
  intros Hnd. induction l as [|x l IH]; intros Hin.
  - cbn. clear. induction ks as [|k ks IHk]; [reflexivity|exact IHk].
  - transitivity
      ([x] ++ concat (map (fun k => filter (fun y => (f y =? k)%Z) l) ks)).
    + rewrite <- (concat_insert (f x) [x]
                    (fun k => filter (fun y => (f y =? k)%Z) l) ks Hnd
                    (Hin x (or_introl eq_refl))).
      apply Permutation_refl'. f_equal. apply map_ext. intros k.
      cbn [filter]. destruct (f x =? k)%Z; reflexivity.
    + cbn [app]. constructor. apply IH. intros y Hy. apply Hin. now right.
Qed.

Lemma index_by_group_nonempty (label : Item -> Z) data_source k :
  In k (keys (index_by label data_source)) ->
  dict_get (index_by label data_source) k <> [].
Proof.
  intros Hk Hnil. apply index_by_keys in Hk.
  destruct Hk as (it & Hin & Hl). apply In_nth_error in Hin.
  destruct Hin as [i Hi].
  assert (Hg : In i (dict_get (index_by label data_source) k))
    by (apply index_by_In; eauto).
  rewrite Hnil in Hg. destruct Hg.
Qed.

(** Together the groups hold every position once. *)
Lemma index_by_pooled (label : Item -> Z) data_source :
  Permutation (pooled (index_by label data_source))
              (seq 0 (List.length data_source)).
Proof.
  unfold pooled.
  rewrite (dict_values_by_key _ (index_by_keys_NoDup label data_source)).
  rewrite <- (enumerate_fst data_source).
  transitivity
    (map fst (concat (map (fun k => filter (fun p => (label (snd p) =? k)%Z)
                                           (enumerate data_source))
                          (keys (index_by label data_source))))).
  - rewrite concat_map, map_map. apply Permutation_refl'.
    f_equal. apply map_ext. intros k. apply index_by_get.
  - apply Permutation_map. apply filter_by_key_partition.
    + apply index_by_keys_NoDup.
    + intros [i it] Hp. apply (in_enumerate label) in Hp.
      apply index_by_keys.
      exists it. split; [eapply nth_error_In; eassumption|reflexivity].
Qed.

(** X1.  The groups of [index_by] split the positions [0 .. n - 1]: the labels
    are distinct and are those of the items; the group of a label lists, in
    increasing order, the positions of the items that carry it and is not
    empty; together the groups hold every position once. *)
Theorem index_by_partition :
  forall (label : Item -> Z) (data_source : list Item),
    let d := index_by label data_source in
    NoDup (keys d) /\
    (forall k, In k (keys d) <->
               exists it, In it data_source /\ label it = k) /\
    (forall k, dict_get d k
               = map fst (filter (has_label label k) (enumerate data_source))) /\
    (forall k, In k (keys d) -> dict_get d k <> []) /\
    (forall i k, In i (dict_get d k) <->
                 exists it, nth_error data_source i = Some it /\ label it = k) /\
    Permutation (pooled d) (seq 0 (List.length data_source)).
Proof.
  intros label ds d. subst d.
  split; [apply index_by_keys_NoDup|].
  split; [intros k; apply index_by_keys|].
  split; [intros k; apply index_by_get|].
  split; [intros k; apply index_by_group_nonempty|].
  split; [intros i k; apply index_by_In|].
  apply index_by_pooled.
Qed.

(** ** RandomDomainSampler and RandomDatasetSampler: what a pass emits *)

(** Taking [sel] out of the pool of [k] moves it out of the pooled
    positions. *)
Lemma pooled_set (d : dict (list nat)) k sel rest :
  Permutation (dict_get d k) (sel ++ rest) ->
  Permutation (sel ++ pooled (dict_set d k rest)) (pooled d).
Proof.
  unfold pooled. induction d as [|[k0 v0] d IH]; intros Hp; cbn in *.
  - apply Permutation_nil in Hp. apply app_eq_nil in Hp.
    destruct Hp as [-> ->]. reflexivity.
  - destruct (Z.eqb_spec k0 k) as [->|Hne]; cbn.
    + rewrite app_assoc. apply Permutation_app_tail. now symmetry.
    + rewrite Permutation_app_swap_app. apply Permutation_app_head.
      now apply IH.
Qed.

(** The positions emitted so far and the positions still pooled are,
    together, the positions the pass started with. *)
Lemma draw_domain_conserves n_img k st g st' dr g' :
  draw_domain n_img k st g = Ok ((st', dr), g') ->
  Permutation (final_idxs st' ++ pooled (cur_dict st'))
              (final_idxs st ++ pooled (cur_dict st)).
Proof.
  intros H. apply draw_domain_Ok in H.
  destruct H as (sel & rest & _ & -> & _ & Hp). cbn.
  rewrite <- app_assoc. apply Permutation_app_head. now apply pooled_set.
Qed.

Lemma sample_round_conserves n_img selected : forall st g st' drs g',
  sample_round n_img selected st g = Ok ((st', drs), g') ->
  Permutation (final_idxs st' ++ pooled (cur_dict st'))
              (final_idxs st ++ pooled (cur_dict st)).
Proof.
  induction selected as [|k selected IH]; intros st g st' drs g' H.
  - cbn in H. inv_ok. reflexivity.
  - cbn [sample_round] in H. inv_ok_pairs.
    apply draw_domain_conserves in Hm. apply IH in Hm0.
    etransitivity; eassumption.
Qed.

Lemma while_loop_conserves domains n_domain n_img fuel :
  forall st g st' rounds g',
    while_loop fuel domains n_domain n_img st g = Ok ((st', rounds), g') ->
    Permutation (final_idxs st' ++ pooled (cur_dict st'))
                (final_idxs st ++ pooled (cur_dict st)).
Proof.
  induction fuel as [|fuel IH]; intros st g st' rounds g' H; [discriminate|].
  cbn [while_loop] in H. destruct (stop_sampling st); cbn [negb] in H.
  - inv_ok. reflexivity.
  - inv_ok_pairs. apply sample_round_conserves in Hm0. apply IH in Hm1.
    etransitivity; eassumption.
Qed.

(** X2.  A pass of a constructed sampler emits positions of the data source,
    none of them twice; so it is no longer than the data source, and
    neither is the reported length. *)
Theorem balanced_pass_distinct :
  forall label data_source batch_size n_domain0 fuel0 g0 s g1,
    init label data_source batch_size n_domain0 fuel0 g0 = Ok (s, g1) ->
    (forall fuel g out g',
        iter s fuel g = Ok (out, g') ->
        NoDup out /\
        (forall i, In i out -> i < List.length data_source) /\
        (len out <= len data_source)%Z) /\
    (0 <= __len__ s <= len data_source)%Z.
Proof.
  intros label ds bs nd fuel0 g0 s g1 Hinit.
  assert (Hpass : forall fuel g out g',
             iter s fuel g = Ok (out, g') ->
             NoDup out /\
             (forall i, In i out -> i < List.length ds) /\
             (len out <= len ds)%Z).
  { intros fuel g out g' Hiter.
    apply iter_rounds_of in Hiter.
    destruct Hiter as (st & rounds & Hrun & -> & _).
    unfold run_pass in Hrun. apply while_loop_conserves in Hrun.
    cbn in Hrun.
    apply balanced_init_Ok in Hinit.
    destruct Hinit as (_ & _ & out0 & _ & ->). cbn in Hrun.
    rewrite (index_by_pooled label ds) in Hrun.
    assert (Hnd : NoDup (final_idxs st ++ pooled (cur_dict st))).
    { eapply Permutation_NoDup; [symmetry; exact Hrun|apply seq_NoDup]. }
    split; [eapply NoDup_app_remove_r; exact Hnd|]. split.
    - intros i Hi.
      assert (Hin : In i (seq 0 (List.length ds))).
      { eapply Permutation_in; [exact Hrun|]. apply in_app_iff. now left. }
      apply in_seq in Hin. lia.
    - apply Permutation_length in Hrun.
      rewrite length_app, length_seq in Hrun. unfold len. lia. }
  split; [exact Hpass|].
  destruct (balanced_len_measured _ _ _ _ _ _ _ _ Hinit)
    as (out0 & Hout0 & Hlen0).
  rewrite Hlen0. destruct (Hpass _ _ _ _ Hout0) as (_ & _ & Hle).
  unfold len in *. lia.
Qed.

Lemma balanced_pass_distinct_witness :
  NoDup [4; 1; 5; 0] /\
  (forall i, In i [4; 1; 5; 0] -> i < List.length ex_cams) /\
  (len [4; 1; 5; 0] <= len ex_cams)%Z.
Proof.
  refine (proj1 (balanced_pass_distinct camid ex_cams 2 None 10 []
                   ex_all_domains_sampler [] _)
                10 [3; 1; 4; 1; 5; 9; 2; 6] [4; 1; 5; 0] [] _);
    vm_compute; reflexivity.
Defined.

(** ** RandomDomainSampler and RandomDatasetSampler: the end of a pass *)

Lemma sample_round_cases n_img selected : forall st g,
  (exists st' drs g', sample_round n_img selected st g = Ok ((st', drs), g'))
  \/ sample_round n_img selected st g = Raise ValueError.
Proof.
  induction selected as [|k selected IH]; intros st g; cbn [sample_round].
  - left. eexists _, _, _. reflexivity.
  - destruct (draw_domain_cases n_img k st g) as [(st1 & dr & g1 & Hd)|Hd].
    + rewrite (bind_eq_Ok _ Hd).
      destruct (IH st1 g1) as [(st2 & drs & g2 & Hr)|Hr].
      * left. rewrite (bind_eq_Ok _ Hr). eexists _, _, _. reflexivity.
      * right. now rewrite (bind_eq_Raise _ Hr).
    + right. now rewrite (bind_eq_Raise _ Hd).
Qed.

Lemma sample_round_emitted n_img selected : forall st g st' drs g',
  sample_round n_img selected st g = Ok ((st', drs), g') ->
  len (final_idxs st')
  = (len (final_idxs st) + len selected * n_img)%Z.
Proof.
  induction selected as [|k selected IH]; intros st g st' drs g' H.
  - cbn in H. inv_ok. unfold len. cbn. lia.
  - cbn [sample_round] in H. inv_ok_pairs.
    apply draw_domain_Ok in Hm. destruct Hm as (sel & rest & _ & -> & Hl & _).
    apply IH in Hm0. cbn in Hm0. rewrite Hm0.
    unfold len in *. rewrite length_app. cbn [List.length]. lia.
Qed.

(** With positive [n_domain] and [n_img_per_domain] every round takes
    positions out of the pools, so the loop ends within as many rounds as
    positions are pooled: it returns, or a draw raises. *)
Lemma while_loop_ends domains n_domain n_img fuel : forall st g,
  (0 < n_domain)%Z -> (0 < n_img)%Z ->
  List.length (pooled (cur_dict st)) < fuel ->
  (exists st' rounds g',
      while_loop fuel domains n_domain n_img st g = Ok ((st', rounds), g'))
  \/ while_loop fuel domains n_domain n_img st g = Raise ValueError.
Proof.
  induction fuel as [|fuel IH]; intros st g Hn Hk Hfuel; [lia|].
  cbn [while_loop]. destruct (stop_sampling st); cbn [negb].
  { left. eexists _, _, _. reflexivity. }
  destruct (random_sample_cases domains n_domain g) as [(sel & g1 & Hs)|Hs].
  2:{ right. now rewrite (bind_eq_Raise _ Hs). }
  rewrite (bind_eq_Ok _ Hs).
  destruct (sample_round_cases n_img sel st g1)
    as [(st1 & round & g2 & Hr)|Hr].
  2:{ right. now rewrite (bind_eq_Raise _ Hr). }
  rewrite (bind_eq_Ok _ Hr). cbv beta iota.
  assert (Hless : List.length (pooled (cur_dict st1)) < fuel).
  { pose proof (sample_round_conserves _ _ _ _ _ _ _ Hr) as Hc.
    pose proof (sample_round_emitted _ _ _ _ _ _ _ Hr) as He.
    apply random_sample_Ok in Hs. destruct Hs as (_ & Hl & _).
    apply Permutation_length in Hc. rewrite !length_app in Hc.
    unfold len in *. nia. }
  destruct (IH st1 g2 Hn Hk Hless) as [(st2 & rounds & g3 & Hw)|Hw].
  - left. rewrite (bind_eq_Ok _ Hw). eexists _, _, _. reflexivity.
  - right. now rewrite (bind_eq_Raise _ Hw).
Qed.

(** A draw of nothing succeeds and leaves the stop flag alone. *)
Lemma draw_domain_nothing k st g :
  exists st' dr,
    draw_domain 0 k st g = Ok ((st', dr), g) /\
    stop_sampling st' = stop_sampling st.
Proof.
  unfold draw_domain.
  assert (Hpool : (len (dict_get (cur_dict st) k) <? 0)%Z = false).
  { apply Z.ltb_ge. unfold len. lia. }
  assert (Hs : random_sample (dict_get (cur_dict st) k) 0 g = Ok ([], g)).
  { unfold random_sample. rewrite Hpool. reflexivity. }
  rewrite (bind_eq_Ok _ Hs). cbn [remove_all]. rewrite Hpool.
  eexists _, _. split; reflexivity.
Qed.

Lemma sample_round_nothing selected : forall st g,
  exists st' drs,
    sample_round 0 selected st g = Ok ((st', drs), g) /\
    stop_sampling st' = stop_sampling st.
Proof.
  induction selected as [|k selected IH]; intros st g; cbn [sample_round].
  - eexists _, _. split; reflexivity.
  - destruct (draw_domain_nothing k st g) as (st1 & dr & Hd & Hstop1).
    rewrite (bind_eq_Ok _ Hd). cbv beta iota.
    destruct (IH st1 g) as (st' & drs & Hr & Hstop).
    rewrite (bind_eq_Ok _ Hr). eexists _, _. split; [reflexivity|].
    congruence.
Qed.

(** With [n_img_per_domain = 0] the loop never sets its flag. *)
Lemma while_loop_zero_share domains n_domain fuel : forall st g,
  stop_sampling st = false ->
  (0 <= n_domain <= len domains)%Z ->
  while_loop fuel domains n_domain 0 st g = OutOfFuel.
Proof.
  induction fuel as [|fuel IH]; intros st g Hstop Hn; [reflexivity|].
  cbn [while_loop]. rewrite Hstop. cbn [negb].
  destruct (random_sample_total domains n_domain g Hn) as (sel & g1 & Hs).
  rewrite (bind_eq_Ok _ Hs).
  destruct (sample_round_nothing sel st g1) as (st1 & drs & Hr & Hstop1).
  rewrite (bind_eq_Ok _ Hr). cbv beta iota.
  unfold bind. rewrite IH; [reflexivity|congruence|assumption].
Qed.

(** With a share that is not positive the loop never returns. *)
Lemma while_loop_needs_share domains n_domain n_img fuel st g r :
  stop_sampling st = false ->
  (0 < n_domain)%Z -> (n_img <= 0)%Z ->
  while_loop fuel domains n_domain n_img st g <> Ok r.
Proof.
  intros Hstop Hn Hk H.
  destruct (Z.eq_dec n_img 0) as [->|Hneg].
  - destruct (Z_le_gt_dec n_domain (len domains)) as [Hle|Hgt].
    + rewrite while_loop_zero_share in H by (assumption || lia).
      discriminate.
    + destruct fuel as [|fuel]; [discriminate|].
      cbn [while_loop] in H. rewrite Hstop in H. cbn [negb] in H.
      rewrite (bind_eq_Raise _ (random_sample_Raise domains n_domain g
                                  ltac:(lia))) in H.
      discriminate.
  - destruct fuel as [|fuel]; [discriminate|].
    cbn [while_loop] in H. rewrite Hstop in H. cbn [negb] in H.
    apply bind_Ok in H. destruct H as (sel & g1 & Hs & H).
    apply random_sample_Ok in Hs. destruct Hs as (_ & Hl & _).
    destruct sel as [|k sel]; [unfold len in Hl; cbn in Hl; lia|].
    cbn [sample_round] in H.
    apply bind_Ok in H. destruct H as (x & g2 & H & _).
    apply bind_Ok in H. destruct H as (y & g3 & Hd & _).
    unfold draw_domain in Hd.
    rewrite (bind_eq_Raise _ (random_sample_Raise _ n_img g1 ltac:(lia)))
      in Hd.
    discriminate.
Qed.

Lemma effective_n_domain_pos domains n_domain :
  effective_n_domain domains n_domain <> 0%Z ->
  (0 < effective_n_domain domains n_domain)%Z.
Proof.
  unfold effective_n_domain. intros H.
  assert (0 <= len domains)%Z by (unfold len; lia).
  destruct n_domain as [m|]; [|lia].
  destruct (Z.leb_spec m 0); lia.
Qed.

Lemma iter_of_first_sample domain_dict domains n_domain n_img fuel g out g' :
  iter_of domain_dict domains n_domain n_img fuel g = Ok (out, g') ->
  (0 <= n_domain <= len domains)%Z.
Proof.
  unfold iter_of, run_pass. intros H. inv_ok_pairs.
  destruct fuel as [|fuel]; [discriminate|].
  cbn [while_loop stop_sampling negb] in Hm.
  apply bind_Ok in Hm. destruct Hm as (sel & g1 & Hs & _).
  apply random_sample_Ok in Hs. tauto.
Qed.

Lemma iter_of_needs_share domain_dict domains n_domain n_img fuel g out g' :
  (0 < n_domain)%Z ->
  iter_of domain_dict domains n_domain n_img fuel g = Ok (out, g') ->
  (0 < n_img)%Z.
Proof.
  unfold iter_of, run_pass. intros Hn H. inv_ok_pairs.
  destruct (Z_lt_le_dec 0 n_img) as [Hpos|Hle]; [assumption|].
  exfalso. revert Hm. now apply while_loop_needs_share.
Qed.

(** A pass is no longer than the positions pooled at its start. *)
Lemma iter_of_length domain_dict domains n_domain n_img fuel g out g' :
  iter_of domain_dict domains n_domain n_img fuel g = Ok (out, g') ->
  List.length out <= List.length (pooled domain_dict).
Proof.
  unfold iter_of, run_pass. intros H. inv_ok_pairs.
  apply while_loop_conserves in Hm. cbn in Hm.
  apply Permutation_length in Hm. rewrite length_app in Hm.
  unfold pooled in *. lia.
Qed.

Lemma stops_at_last_rounds n_img rounds :
  stops_at_last n_img rounds -> (1 <= len rounds)%Z.
Proof.
  destruct rounds as [|round rounds]; [contradiction|].
  intros _. unfold len. cbn [List.length]. lia.
Qed.

(** X3.  A constructed sampler has a positive share per label, draws at least
    one and at most all of the labels per round, and has
    [batch_size = n_img_per_domain * n_domain]; the pass of its constructor
    made at least one round, so the data source holds a batch and the
    reported length is a positive multiple of [batch_size]. *)
Theorem balanced_constructed :
  forall label ds bs n_domain0 fuel g0 s g1,
    init label ds bs n_domain0 fuel g0 = Ok (s, g1) ->
    data_source s = ds /\
    domain_dict s = index_by label ds /\
    domains s = keys (index_by label ds) /\
    batch_size s = bs /\
    n_domain s = effective_n_domain (domains s) n_domain0 /\
    (0 < n_img_per_domain s)%Z /\
    (0 < n_domain s <= len (domains s))%Z /\
    batch_size s = (n_img_per_domain s * n_domain s)%Z /\
    (exists r, (0 < r)%Z /\ __len__ s = (r * batch_size s)%Z) /\
    (0 < batch_size s <= __len__ s)%Z /\
    (__len__ s <= len ds)%Z.
Proof.
  intros label ds bs nd fuel g0 s g1 Hinit.
  pose proof (balanced_init_wf _ _ _ _ _ _ _ _ Hinit) as (Hnd & Hpools).
  pose proof (balanced_init_Ok _ _ _ _ _ _ _ _ Hinit) as Hi.
  cbv zeta in Hi. destruct Hi as (Hn0 & Hmod & out & Hout0 & Hs).
  assert (Hiter : iter s fuel g0 = Ok (out, g1)) by (rewrite Hs; exact Hout0).
  apply effective_n_domain_pos in Hn0.
  pose proof (iter_of_first_sample _ _ _ _ _ _ _ _ Hout0) as Hn.
  pose proof (iter_of_needs_share _ _ _ _ _ _ _ _ Hn0 Hout0) as Hk.
  pose proof (iter_of_length _ _ _ _ _ _ _ _ Hout0) as Hle.
  rewrite (Permutation_length (index_by_pooled label ds)), length_seq in Hle.
  apply iter_rounds_of in Hiter.
  destruct Hiter as (st & rounds & Hrun & Hout & _).
  apply run_pass_rounds in Hrun; [|assumption..].
  destruct Hrun as ((_ & Hrounds & _) & Hstop).
  apply stops_at_last_rounds in Hstop. rewrite <- Hout in Hrounds.
  rewrite Hs in *. cbn in *.
  assert (Hbs : bs = (bs / effective_n_domain (keys (index_by label ds)) nd
                      * effective_n_domain (keys (index_by label ds)) nd)%Z).
  { rewrite Z.mul_comm. apply Z.div_exact; lia. }
  split; [reflexivity|]. split; [reflexivity|]. split; [reflexivity|].
  split; [reflexivity|]. split; [reflexivity|].
  split; [assumption|]. split; [lia|]. split; [exact Hbs|].
  split.
  - exists (len rounds). split; [lia|]. rewrite Hrounds, <- Hbs.
    reflexivity.
  - split; [nia|]. unfold len in *. lia.
Qed.

Lemma balanced_constructed_witness :
  data_source ex_all_domains_sampler = ex_cams /\
  domain_dict ex_all_domains_sampler = index_by camid ex_cams /\
  domains ex_all_domains_sampler = keys (index_by camid ex_cams) /\
  batch_size ex_all_domains_sampler = 2%Z /\
  n_domain ex_all_domains_sampler
  = effective_n_domain (domains ex_all_domains_sampler) None /\
  (0 < n_img_per_domain ex_all_domains_sampler)%Z /\
  (0 < n_domain ex_all_domains_sampler
   <= len (domains ex_all_domains_sampler))%Z /\
  batch_size ex_all_domains_sampler
  = (n_img_per_domain ex_all_domains_sampler
     * n_domain ex_all_domains_sampler)%Z /\
  (exists r, (0 < r)%Z /\
     __len__ ex_all_domains_sampler
     = (r * batch_size ex_all_domains_sampler)%Z) /\
  (0 < batch_size ex_all_domains_sampler
   <= __len__ ex_all_domains_sampler)%Z /\
  (__len__ ex_all_domains_sampler <= len ex_cams)%Z.
Proof.
  refine (balanced_constructed camid ex_cams 2 None 10 []
            ex_all_domains_sampler [] _).
  vm_compute; reflexivity.
Defined.

(** ** RandomDomainSampler and RandomDatasetSampler: the constructor's pass *)

(** Past its two checks the constructor is the pass that measures the
    length. *)
Lemma balanced_init_pass label ds bs nd fuel g :
  effective_n_domain (keys (index_by label ds)) nd <> 0%Z ->
  (bs mod effective_n_domain (keys (index_by label ds)) nd = 0)%Z ->
  init label ds bs nd fuel g
  = match iter_of (index_by label ds) (keys (index_by label ds))
                  (effective_n_domain (keys (index_by label ds)) nd)
                  (bs / effective_n_domain (keys (index_by label ds)) nd)
                  fuel g with
    | Ok (out, g') =>
        Ok (mkSampler ds (index_by label ds) (keys (index_by label ds))
              (bs / effective_n_domain (keys (index_by label ds)) nd) bs
              (effective_n_domain (keys (index_by label ds)) nd) (len out),
            g')
    | Raise e => Raise e
    | OutOfFuel => OutOfFuel
    end.
Proof.
  intros Hn Hmod. unfold init, pymod, floordiv, bind.
  apply Z.eqb_neq in Hn. rewrite Hn. unfold ret at 1. rewrite Hmod.
  cbn [Z.eqb py_assert]. unfold ret at 1. unfold ret at 1.
  destruct (iter_of _ _ _ _ fuel g) as [[out g']| |]; reflexivity.
Qed.

(** X4.  A pass of a constructed sampler ends within as many rounds as the data
    source has items: it returns its positions, or a draw from a label
    with too few positions left raises [ValueError]. *)
Theorem balanced_pass_ends :
  forall label ds bs n_domain0 fuel0 g0 s g1,
    init label ds bs n_domain0 fuel0 g0 = Ok (s, g1) ->
    forall fuel g,
      List.length ds < fuel ->
      (exists out g', iter s fuel g = Ok (out, g')) \/
      iter s fuel g = Raise ValueError.
Proof.
  intros label ds bs nd fuel0 g0 s g1 Hinit fuel g Hfuel.
  pose proof (balanced_init_Ok _ _ _ _ _ _ _ _ Hinit) as Hi.
  cbv zeta in Hi. destruct Hi as (Hn0 & _ & out & Hout0 & Hs).
  apply effective_n_domain_pos in Hn0.
  pose proof (iter_of_needs_share _ _ _ _ _ _ _ _ Hn0 Hout0) as Hk.
  rewrite Hs. unfold iter, iter_of, run_pass.
  cbn [domain_dict domains n_domain n_img_per_domain].
  destruct (while_loop_ends (keys (index_by label ds))
              (effective_n_domain (keys (index_by label ds)) nd)
              (bs / effective_n_domain (keys (index_by label ds)) nd)
              fuel (mkPass (index_by label ds) [] false) g Hn0 Hk)
    as [(st & rounds & g' & Hw)|Hw].
  - cbn [cur_dict].
    rewrite (Permutation_length (index_by_pooled label ds)), length_seq.
    exact Hfuel.
  - left. rewrite (bind_eq_Ok _ Hw). eexists _, _. reflexivity.
  - right. now rewrite (bind_eq_Raise _ Hw).
Qed.

Lemma balanced_pass_ends_witness :
  (exists out g', iter ex_short_sampler 8 [0; 0; 0; 1] = Ok (out, g')) \/
  iter ex_short_sampler 8 [0; 0; 0; 1] = Raise ValueError.
Proof.
  refine (balanced_pass_ends camid ex_cams_short 2 (Some 1%Z) 10 []
            ex_short_sampler [] _ 8 [0; 0; 0; 1] _).
  - vm_compute; reflexivity.
  - vm_compute; lia.
Defined.

(** X5.  With [batch_size = 0] and a count of labels per round that the labels
    can fill, the constructor never returns: every round draws nothing,
    so no pool falls below the share and the flag of the loop is never
    set. *)
Theorem balanced_zero_batch_never_returns :
  forall label ds n_domain0 fuel g,
    (0 < effective_n_domain (keys (index_by label ds)) n_domain0
     <= len (keys (index_by label ds)))%Z ->
    init label ds 0 n_domain0 fuel g = OutOfFuel.
Proof.
  intros label ds nd fuel g Hn.
  rewrite balanced_init_pass; [|lia|apply Z.mod_0_l; lia].
  rewrite Z.div_0_l by lia. unfold iter_of, run_pass, bind.
  rewrite while_loop_zero_share; [reflexivity|reflexivity|lia].
Qed.

Lemma balanced_zero_batch_never_returns_witness :
  init camid ex_cams 0 None 1000 [] = OutOfFuel.
Proof.
  apply balanced_zero_batch_never_returns. vm_compute. split; [reflexivity|].
  discriminate.
Defined.

(** X6.  When every label is drawn in every round (the default), a label with
    fewer items than [batch_size // n_domain] makes the constructor raise
    [ValueError] in its first round. *)
Theorem balanced_every_label_short :
  forall label ds bs n_domain0 fuel g k,
    effective_n_domain (keys (index_by label ds)) n_domain0
    = len (keys (index_by label ds)) ->
    (bs mod len (keys (index_by label ds)) = 0)%Z ->
    In k (keys (index_by label ds)) ->
    (Z.of_nat (count_label label ds k)
     < bs / len (keys (index_by label ds)))%Z ->
    0 < fuel ->
    init label ds bs n_domain0 fuel g = Raise ValueError.
Proof.
  intros label ds bs nd fuel g k Hall Hmod Hk Hshort Hfuel.
  assert (Hpos : (0 < len (keys (index_by label ds)))%Z).
  { destruct (keys (index_by label ds)); [destruct Hk|].
    unfold len. cbn [List.length]. lia. }
  rewrite balanced_init_pass; rewrite Hall; [|lia|assumption].
  destruct fuel as [|fuel]; [lia|].
  unfold iter_of, run_pass. cbn [while_loop stop_sampling negb].
  destruct (random_sample_total (keys (index_by label ds))
              (len (keys (index_by label ds))) g ltac:(lia))
    as (sel & g1 & Hs).
  unfold bind at 1. unfold bind at 1. rewrite Hs.
  pose proof (sample_all _ _ _ _ Hs) as Hperm.
  unfold bind at 1.
  rewrite (sample_round_short _ k); [reflexivity| |].
  - eapply Permutation_in; eassumption.
  - cbn [cur_dict]. unfold len at 1. now rewrite index_by_count.
Qed.

Lemma balanced_every_label_short_witness :
  init camid ex_cams_short 4 None 10 [] = Raise ValueError.
Proof.
  apply (balanced_every_label_short camid ex_cams_short 4 None 10 [] 1%Z).
  - vm_compute; reflexivity.
  - vm_compute; reflexivity.
  - vm_compute. right. left. reflexivity.
  - vm_compute; reflexivity.
  - lia.
Defined.

(** ** RandomDomainSampler and RandomDatasetSampler: every label in every
    round *)

(** When every round draws from every label, the loop makes as many rounds
    as the smallest pool holds shares. *)
Lemma while_loop_full_rounds domains n_img fuel :
  forall st g st' rounds g',
    NoDup domains ->
    stop_sampling st = false ->
    while_loop fuel domains (len domains) n_img st g
    = Ok ((st', rounds), g') ->
    (forall k, In k domains ->
       (len rounds * n_img <= len (dict_get (cur_dict st) k))%Z) /\
    (exists k, In k domains /\
       (len (dict_get (cur_dict st) k) < (len rounds + 1) * n_img)%Z).
Proof.
  induction fuel as [|fuel IH]; intros st g st' rounds g' Hnd Hstop H;
    [discriminate|].
  cbn [while_loop] in H. rewrite Hstop in H. cbn [negb] in H.
  apply bind_Ok in H. destruct H as (sel & ga & Hm & H).
  apply bind_Ok in H. destruct H as ([st1 round] & gb & Hr & H).
  apply bind_Ok in H. destruct H as ([st2 rest] & gc & Hw & H).
  apply ret_Ok in H. inversion H; subst st' rounds g'. clear H.
  pose proof (sample_all _ _ _ _ Hm) as Hp.
  assert (Hnds : NoDup sel) by (eapply Permutation_NoDup; eassumption).
  apply sample_round_sizes in Hr; [|assumption].
  destruct Hr as (Hin & _ & Hst & _).
  rewrite Hstop, orb_false_r in Hst.
  assert (Hsize : forall k, In k domains ->
            len (dict_get (cur_dict st1) k)
            = (len (dict_get (cur_dict st) k) - n_img)%Z).
  { intros k Hk. apply Hin. eapply Permutation_in; eassumption. }
  assert (Hlen : len (round :: rest) = (len rest + 1)%Z).
  { unfold len. cbn [List.length]. lia. }
  rewrite Hlen.
  destruct (stop_sampling st1) eqn:Hs1.
  - destruct (while_loop_stopped _ _ _ _ _ _ _ _ _ Hs1 Hw) as (_ & ->).
    symmetry in Hst. apply existsb_exists in Hst.
    destruct Hst as (k & Hk & Hlt). apply Z.ltb_lt in Hlt.
    assert (Hkd : In k domains)
      by (eapply Permutation_in; [symmetry|]; eassumption).
    split.
    + intros q Hq. specialize (Hsize q Hq).
      assert (0 <= len (dict_get (cur_dict st1) q))%Z by (unfold len; lia).
      unfold len at 1. cbn [List.length]. lia.
    + exists k. split; [assumption|]. unfold len at 2. cbn [List.length].
      lia.
  - destruct (IH _ _ _ _ _ Hnd Hs1 Hw) as (Hall & k & Hk & Hlt).
    split.
    + intros q Hq. specialize (Hall q Hq). rewrite (Hsize q Hq) in Hall.
      lia.
    + exists k. split; [assumption|]. rewrite (Hsize k Hk) in Hlt. lia.
Qed.

(** X7.  When a constructed sampler draws from every label in every round (the
    default), the number [r] of rounds of a pass is the smallest number of
    shares a label holds, [min over the labels of count // n_img_per_domain];
    the reported length and the length of every pass are [r * batch_size]. *)
Theorem balanced_full_rounds :
  forall label ds bs n_domain0 fuel0 g0 s g1,
    init label ds bs n_domain0 fuel0 g0 = Ok (s, g1) ->
    n_domain s = len (domains s) ->
    exists r,
      (forall k, In k (domains s) ->
         (r <= Z.of_nat (count_label label ds k) / n_img_per_domain s)%Z) /\
      (exists k, In k (domains s) /\
         r = (Z.of_nat (count_label label ds k) / n_img_per_domain s)%Z) /\
      __len__ s = (r * batch_size s)%Z /\
      (forall fuel g out g',
          iter s fuel g = Ok (out, g') -> len out = (r * batch_size s)%Z).
Proof.
  intros label ds bs nd fuel0 g0 s g1 Hinit Hfull.
  pose proof (balanced_init_wf _ _ _ _ _ _ _ _ Hinit) as (Hnd & Hpools).
  destruct (balanced_len_measured _ _ _ _ _ _ _ _ Hinit)
    as (out & Hiter & Hlen).
  pose proof (balanced_init_Ok _ _ _ _ _ _ _ _ Hinit) as Hi.
  cbv zeta in Hi. destruct Hi as (Hn0 & Hmod & out0 & Hout0 & Hs).
  apply effective_n_domain_pos in Hn0.
  pose proof (iter_of_needs_share _ _ _ _ _ _ _ _ Hn0 Hout0) as Hk.
  assert (Hbs : batch_size s = (n_img_per_domain s * n_domain s)%Z).
  { rewrite Hs. cbn. rewrite Z.mul_comm. apply Z.div_exact; lia. }
  assert (Hshare : (0 < n_img_per_domain s)%Z) by (rewrite Hs; exact Hk).
  assert (Hcount : forall k,
            len (dict_get (domain_dict s) k)
            = Z.of_nat (count_label label ds k)).
  { intros k. rewrite Hs. cbn [domain_dict]. unfold len.
    now rewrite index_by_count. }
  pose proof Hiter as Hiter0.
  apply iter_rounds_of in Hiter.
  destruct Hiter as (st & rounds & Hrun & Hout & _).
  pose proof (run_pass_rounds _ _ _ _ _ _ Hnd Hpools Hrun)
    as ((_ & Hrounds & _) & _).
  unfold run_pass in Hrun. rewrite Hfull in Hrun.
  apply while_loop_full_rounds in Hrun; [|assumption|reflexivity].
  cbn [cur_dict] in Hrun. destruct Hrun as (Hall & k & Hkin & Hlt).
  exists (len rounds). split; [|split; [|split]].
  - intros q Hq. specialize (Hall q Hq). rewrite Hcount in Hall.
    apply Z.div_le_lower_bound; lia.
  - exists k. split; [assumption|]. specialize (Hall k Hkin).
    rewrite Hcount in Hall, Hlt.
    apply Z.div_unique
      with (r := (Z.of_nat (count_label label ds k)
                  - n_img_per_domain s * len rounds)%Z); lia.
  - rewrite Hlen, Hout, Hrounds, Hbs. reflexivity.
  - intros fuel g out' g' Hiter'.
    rewrite (iter_same_length _ _ _ _ _ _ _ _ _ Hnd Hfull Hiter' Hiter0).
    rewrite Hout, Hrounds, Hbs. reflexivity.
Qed.

Lemma balanced_full_rounds_witness :
  exists r,
    (forall k, In k (domains ex_all_domains_sampler) ->
       (r <= Z.of_nat (count_label camid ex_cams k)
             / n_img_per_domain ex_all_domains_sampler)%Z) /\
    (exists k, In k (domains ex_all_domains_sampler) /\
       r = (Z.of_nat (count_label camid ex_cams k)
            / n_img_per_domain ex_all_domains_sampler)%Z) /\
    __len__ ex_all_domains_sampler
    = (r * batch_size ex_all_domains_sampler)%Z /\
    len [4; 1; 5; 0] = (r * batch_size ex_all_domains_sampler)%Z.
Proof.
  destruct (balanced_full_rounds camid ex_cams 2 None 10 []
              ex_all_domains_sampler []
              ltac:(vm_compute; reflexivity) ltac:(vm_compute; reflexivity))
    as (r & Hall & Hmin & Hlen & Hpass).
  exists r. split; [exact Hall|]. split; [exact Hmin|].
  split; [exact Hlen|].
  refine (Hpass 10 [3; 1; 4; 1; 5; 9; 2; 6] [4; 1; 5; 0] [] _).
  vm_compute; reflexivity.
Defined.

(** ** RandomIdentitySampler: batches of distinct identities *)

Section IdentityBatches.
Import RandomIdentitySampler.

Lemma blocks_of_app p l1 l2 :
  blocks_of p (l1 ++ l2) = blocks_of p l1 ++ blocks_of p l2.
Proof. unfold blocks_of. now rewrite filter_app, map_app. Qed.

Lemma blocks_of_cons q p c round :
  blocks_of q ((p, c) :: round)
  = (if (p =? q)%Z then [c] else []) ++ blocks_of q round.
Proof.
  unfold blocks_of. cbn [filter fst]. destruct (p =? q)%Z; reflexivity.
Qed.

(** What a successful [take_chunk] did. *)
Lemma take_chunk_Ok p st g st' g' :
  take_chunk p st g = Ok (st', g') ->
  NoDup (avai_pids st) ->
  exists c rest,
    dict_get (batch_idxs_dict st) p = c :: rest /\
    batch_idxs_dict st' = dict_set (batch_idxs_dict st) p rest /\
    final_idxs st' = final_idxs st ++ c /\
    NoDup (avai_pids st') /\
    incl (avai_pids st') (avai_pids st) /\
    (forall q, In q (avai_pids st) -> ~ In q (avai_pids st') ->
               q = p /\ rest = []).
Proof.
  unfold take_chunk. intros H Hnd.
  destruct (dict_get (batch_idxs_dict st) p) as [|c rest] eqn:Hq;
    [discriminate|].
  exists c, rest. split; [reflexivity|].
  destruct (Z.eqb_spec (len rest) 0) as [Hz|Hnz].
  - destruct (list_remove Z.eqb p (avai_pids st)) as [avai|] eqn:Hrem;
      [|discriminate].
    inv_ok. cbn [batch_idxs_dict final_idxs avai_pids].
    apply (list_remove_perm _ _ Z.eqb_eq) in Hrem.
    assert (Hnd' : NoDup (p :: avai))
      by (eapply Permutation_NoDup; eassumption).
    apply NoDup_cons_iff in Hnd'. destruct Hnd' as [Hout Hnd'].
    split; [reflexivity|]. split; [reflexivity|]. split; [assumption|].
    split.
    + intros q Hq'. eapply Permutation_in; [symmetry; exact Hrem|now right].
    + intros q Hin Hnot. apply (Permutation_in _ Hrem) in Hin.
      destruct Hin as [<-|Hin]; [|contradiction].
      split; [reflexivity|]. destruct rest; [reflexivity|discriminate].
  - inv_ok. cbn [batch_idxs_dict final_idxs avai_pids].
    split; [reflexivity|]. split; [reflexivity|]. split; [assumption|].
    split; [apply incl_refl|]. intros q Hin Hnot. contradiction.
Qed.

(** One turn of the loop pops, for each selected identity in turn, the
    chunk at the head of its queue. *)
Lemma take_chunks_round selected : forall st g st' g',
  for_each selected take_chunk st g = Ok (st', g') ->
  NoDup (avai_pids st) ->
  exists round,
    map fst round = selected /\
    final_idxs st' = final_idxs st ++ concat (map snd round) /\
    (forall p, blocks_of p round ++ dict_get (batch_idxs_dict st') p
               = dict_get (batch_idxs_dict st) p) /\
    NoDup (avai_pids st') /\
    incl (avai_pids st') (avai_pids st) /\
    ((forall q, ~ In q (avai_pids st) ->
                dict_get (batch_idxs_dict st) q = []) ->
     forall q, ~ In q (avai_pids st') ->
               dict_get (batch_idxs_dict st') q = []).
Proof.
  induction selected as [|p selected IH]; intros st g st' g' H Hnd.
  - cbn in H. inv_ok. exists []. cbn. rewrite app_nil_r.
    split; [reflexivity|]. split; [reflexivity|]. split; [reflexivity|].
    split; [assumption|]. split; [apply incl_refl|auto].
  - cbn [for_each] in H. apply bind_Ok in H.
    destruct H as (st1 & g1 & Htake & Hrest).
    apply take_chunk_Ok in Htake; [|assumption].
    destruct Htake as (c & rest & Hq & Hd & Hf & Hnd1 & Hincl1 & Hgone).
    destruct (IH _ _ _ _ Hrest Hnd1)
      as (round & Hfst & Hfin & Hfifo & Hnd' & Hincl' & Hempty).
    exists ((p, c) :: round). cbn [map fst snd concat].
    split; [now rewrite Hfst|]. split; [now rewrite Hfin, Hf, app_assoc|].
    split; [|split; [assumption|split]].
    + intros q. rewrite blocks_of_cons.
      destruct (Z.eqb_spec p q) as [<-|Hne]; cbn [app].
      * rewrite Hfifo, Hd, dict_get_set_same. now rewrite Hq.
      * rewrite Hfifo, Hd, dict_get_set_other by assumption. reflexivity.
    + intros q Hq'. apply Hincl1, Hincl'. assumption.
    + intros Hinit. apply Hempty. intros q Hq1. rewrite Hd.
      destruct (in_dec Z.eq_dec q (avai_pids st)) as [Hin|Hout].
      * destruct (Hgone q Hin Hq1) as [-> ->]. apply dict_get_set_same.
      * rewrite dict_get_set. destruct (Z.eqb_spec p q) as [<-|Hne].
        -- assert (Hp : dict_get (batch_idxs_dict st) p = [])
             by (apply Hinit; assumption).
           rewrite Hp in Hq. discriminate.
        -- now apply Hinit.
Qed.

(** The loop emits whole batches, one for each turn, each of
    [num_pids_per_batch] distinct identities, and leaves with fewer
    identities available than a batch needs. *)
Lemma while_loop_batches npb fuel : forall st g out g',
  while_loop fuel npb st g = Ok (out, g') ->
  NoDup (avai_pids st) ->
  exists batches st',
    out = final_idxs st ++ concat (map snd (concat batches)) /\
    Forall (fun b => len b = npb /\ NoDup (map fst b)) batches /\
    (forall p, blocks_of p (concat batches)
               ++ dict_get (batch_idxs_dict st') p
               = dict_get (batch_idxs_dict st) p) /\
    (len (avai_pids st') < npb)%Z /\
    ((forall q, ~ In q (avai_pids st) ->
                dict_get (batch_idxs_dict st) q = []) ->
     forall q, ~ In q (avai_pids st') ->
               dict_get (batch_idxs_dict st') q = []) /\
    NoDup (avai_pids st') /\
    incl (avai_pids st') (avai_pids st).
Proof.
  induction fuel as [|fuel IH]; intros st g out g' H Hnd; [discriminate|].
  cbn [while_loop] in H.
  destruct (Z.leb_spec npb (len (avai_pids st))) as [Hle|Hgt].
  - apply bind_Ok in H. destruct H as (sel & g1 & Hs & H).
    apply bind_Ok in H. destruct H as (st1 & g2 & Hr & Hw).
    destruct (sample_Ok_NoDup _ _ _ _ _ Hs Hnd) as (Hl & Hnds & _).
    destruct (take_chunks_round _ _ _ _ _ Hr Hnd)
      as (round & Hfst & Hfin & Hfifo & Hnd1 & Hincl1 & Hempty).
    destruct (IH _ _ _ _ Hw Hnd1)
      as (batches & st' & Hout & Hall & Hfifo' & Hexit & Hempty' & Hnd'
          & Hincl').
    exists (round :: batches), st'. cbn [concat].
    split; [|split; [|split; [|split; [|split; [|split]]]]].
    + rewrite Hout, Hfin, map_app, concat_app, app_assoc. reflexivity.
    + constructor; [|assumption]. rewrite Hfst. split; [|assumption].
      rewrite <- Hl, <- Hfst. unfold len. now rewrite length_map.
    + intros p. rewrite blocks_of_app, <- app_assoc, Hfifo'. apply Hfifo.
    + assumption.
    + intros Hinit. apply Hempty', Hempty, Hinit.
    + assumption.
    + intros q Hq. apply Hincl1, Hincl'. assumption.
  - inv_ok. exists [], st. cbn. rewrite app_nil_r.
    split; [reflexivity|]. split; [constructor|]. split; [reflexivity|].
    split; [assumption|]. split; [auto|]. split; [assumption|].
    apply incl_refl.
Qed.

(** The chunks cut for an identity are, in order, consecutive slices of
    its shuffled list. *)
Lemma chunk_fold_concat ni p idxs : forall acc d acc' d',
  fold_left (chunk_step ni p) idxs (acc, d) = (acc', d') ->
  exists new,
    dict_get d' p = dict_get d p ++ new /\
    concat new ++ acc' = acc ++ idxs.
Proof.
  induction idxs as [|idx idxs IH]; intros acc d acc' d' H.
  - cbn in H. inversion H; subst. exists []. now rewrite !app_nil_r.
  - cbn [fold_left] in H. unfold chunk_step at 2 in H.
    destruct (len (acc ++ [idx]) =? ni)%Z.
    + apply IH in H. destruct H as (new & Hget & Hcat).
      exists ((acc ++ [idx]) :: new). split.
      * rewrite Hget, dict_get_append, Z.eqb_refl, <- app_assoc. reflexivity.
      * cbn [concat]. rewrite <- !app_assoc, Hcat. reflexivity.
    + apply IH in H. destruct H as (new & Hget & Hcat).
      exists new. split; [assumption|]. now rewrite Hcat, <- app_assoc.
Qed.

(** The queue that [prepare_pid] builds for its identity. *)
Lemma prepare_pid_chunks s p d g d' g' :
  prepare_pid s p d g = Ok (d', g') ->
  (forall q, q <> p -> dict_get d' q = dict_get d q) /\
  exists new,
    dict_get d' p = dict_get d p ++ new /\
    Forall (chunk_ok s p) new /\
    ((0 < num_instances s)%Z ->
     len new = (Z.max (len (dict_get (index_dic s) p)) (num_instances s)
                / num_instances s)%Z) /\
    ((num_instances s <= len (dict_get (index_dic s) p))%Z ->
     NoDup (dict_get (index_dic s) p) -> NoDup (concat new)).
Proof.
  intros H. pose proof (prepare_pid_Ok _ _ _ _ _ _ H) as (Hoth & new & Hget & Hall & _).
  split; [assumption|]. exists new. split; [assumption|].
  split; [assumption|].
  unfold prepare_pid in H. inv_ok. rename a into idxs1, a0 into idxs2.
  assert (Hpad : len idxs1 = Z.max (len (dict_get (index_dic s) p))
                                   (num_instances s) /\
                 ((num_instances s <= len (dict_get (index_dic s) p))%Z ->
                  idxs1 = dict_get (index_dic s) p)).
  { destruct (Z.ltb_spec (len (dict_get (index_dic s) p)) (num_instances s)).
    - apply np_random_choice_Ok in Hm. destruct Hm as [Hl _].
      split; [lia|lia].
    - inv_ok. split; [lia|reflexivity]. }
  destruct Hpad as [Hlen Hsame].
  apply random_shuffle_Ok in Hm0.
  destruct (fold_left (chunk_step (num_instances s) p) idxs2 ([], d))
    as [acc' d''] eqn:Hf.
  cbn [snd] in Hget.
  pose proof (chunk_fold _ _ _ _ _ _ _ Hf) as (_ & new1 & Hget1 & _ & Hcnt).
  pose proof (chunk_fold_concat _ _ _ _ _ _ _ Hf) as (new2 & Hget2 & Hcat).
  assert (new1 = new)
    by (apply (app_inv_head (dict_get d p)); congruence).
  assert (new2 = new)
    by (apply (app_inv_head (dict_get d p)); congruence).
  subst new1 new2. split.
  - intros Hni. destruct (Hcnt Hni) as [Hc1 Hc2]; [unfold len; cbn; lia|].
    apply Permutation_length in Hm0.
    assert (0 <= len acc')%Z by (unfold len; lia).
    apply Z.div_unique with (r := len acc'); [lia|].
    rewrite <- Hlen. unfold len in *. cbn [List.length] in *. lia.
  - intros Hle Hnd. rewrite (Hsame Hle) in Hm0. cbn [app] in Hcat.
    assert (Hnd2 : NoDup (concat new ++ acc')).
    { rewrite Hcat. eapply Permutation_NoDup; eassumption. }
    eapply NoDup_app_remove_r; exact Hnd2.
Qed.

(** The queues when the loop starts: one for each identity, none for
    anything else. *)
Lemma prepare_all_chunks s l : forall d g d' g',
  for_each l (prepare_pid s) d g = Ok (d', g') ->
  NoDup l ->
  (forall p, In p l -> dict_get d p = []) ->
  (forall q, ~ In q l -> dict_get d' q = dict_get d q) /\
  (forall p, In p l ->
     Forall (chunk_ok s p) (dict_get d' p) /\
     ((0 < num_instances s)%Z ->
      len (dict_get d' p)
      = (Z.max (len (dict_get (index_dic s) p)) (num_instances s)
         / num_instances s)%Z) /\
     ((num_instances s <= len (dict_get (index_dic s) p))%Z ->
      NoDup (dict_get (index_dic s) p) ->
      NoDup (concat (dict_get d' p)))).
Proof.
  induction l as [|p l IH]; intros d g d' g' H Hnd Hempty.
  - cbn in H. inv_ok. split; [reflexivity|]. intros p [].
  - cbn [for_each] in H. apply bind_Ok in H.
    destruct H as (d1 & g1 & Hprep & Hrest).
    apply NoDup_cons_iff in Hnd. destruct Hnd as [Hout Hnd].
    apply prepare_pid_chunks in Hprep.
    destruct Hprep as (Hoth & new & Hget & Hprops).
    rewrite (Hempty p (or_introl eq_refl)) in Hget. cbn [app] in Hget.
    destruct (IH _ _ _ _ Hrest Hnd) as (Hout' & Hin').
    { intros q Hq. rewrite Hoth; [apply Hempty; now right|].
      intros ->. contradiction. }
    split.
    + intros q Hq. rewrite Hout' by (intros Hc; apply Hq; now right).
      apply Hoth. intros ->. apply Hq. now left.
    + intros q [<-|Hq]; [|now apply Hin'].
      rewrite (Hout' p Hout), Hget. exact Hprops.
Qed.

Lemma in_blocks_of (b : Z * list nat) blocks :
  In b blocks -> In (snd b) (blocks_of (fst b) blocks).
Proof.
  intros Hb. unfold blocks_of. apply in_map. apply filter_In.
  split; [assumption|apply Z.eqb_refl].
Qed.

(** A pass, its batches and the queues it started from and stopped with. *)
Lemma iter_batches s fuel g out g' :
  NoDup (pids s) ->
  iter s fuel g = Ok (out, g') ->
  exists d0 g1 batches st',
    for_each (pids s) (prepare_pid s) [] g = Ok (d0, g1) /\
    out = concat (map snd (concat batches)) /\
    Forall (fun b => len b = num_pids_per_batch s /\ NoDup (map fst b))
           batches /\
    Forall (block_ok s) (concat batches) /\
    (forall p, blocks_of p (concat batches)
               ++ dict_get (batch_idxs_dict st') p
               = dict_get d0 p) /\
    (len (avai_pids st') < num_pids_per_batch s)%Z /\
    (forall q, ~ In q (avai_pids st') ->
               dict_get (batch_idxs_dict st') q = []) /\
    NoDup (avai_pids st') /\
    incl (avai_pids st') (pids s).
Proof.
  unfold iter. intros Hnd H. apply bind_Ok in H.
  destruct H as (d0 & g1 & Hprep & Hloop).
  pose proof (prepare_all_chunks _ _ _ _ _ _ Hprep Hnd (fun _ _ => eq_refl))
    as (Hout & Hin).
  apply while_loop_batches in Hloop; [|exact Hnd].
  cbn [final_idxs avai_pids batch_idxs_dict app] in Hloop.
  destruct Hloop as (batches & st' & Hres & Hall & Hfifo & Hexit & Hempty
                     & Hnd' & Hincl').
  exists d0, g1, batches, st'. split; [assumption|]. split; [assumption|].
  split; [assumption|].
  split; [|split; [assumption|split; [assumption|split;
                                        [|split; assumption]]]].
  - apply Forall_forall. intros b Hb.
    pose proof (in_blocks_of _ _ Hb) as Hc.
    assert (Hq : In (snd b) (dict_get d0 (fst b))).
    { rewrite <- Hfifo. apply in_app_iff. now left. }
    destruct (in_dec Z.eq_dec (fst b) (pids s)) as [Hp|Hp].
    + destruct (Hin _ Hp) as (Hok & _). rewrite Forall_forall in Hok.
      now apply Hok.
    + rewrite (Hout _ Hp) in Hq. destruct Hq.
  - apply Hempty. intros q Hq. now rewrite (Hout q Hq).
Qed.

End IdentityBatches.

(** X8.  A pass of a constructed [RandomIdentitySampler] is made of batches:
    each holds one block of [num_instances] positions for each of
    [batch_size // num_instances] pairwise distinct identities, so the
    pass is a whole number of batches of
    [(batch_size // num_instances) * num_instances] positions, a size that
    is at most [batch_size] and misses it by less than [num_instances]. *)
Theorem identity_pass_batches :
  forall data_source batch_size num_instances g0 s g1,
    RandomIdentitySampler.init data_source batch_size num_instances g0
      = Ok (s, g1) ->
    ((0 < num_instances)%Z ->
     (batch_size - num_instances
      < batch_size / num_instances * num_instances <= batch_size)%Z) /\
    forall fuel g out g',
      RandomIdentitySampler.iter s fuel g = Ok (out, g') ->
      exists batches : list (list (Z * list nat)),
        out = concat (map snd (concat batches)) /\
        Forall (identity_batch data_source (batch_size / num_instances)
                               num_instances) batches /\
        len out
        = (len batches * (batch_size / num_instances * num_instances))%Z.
Proof.
  intros ds bs ni g0 s g1 Hinit.
  pose proof (init_Ok _ _ _ _ _ _ Hinit) as (_ & Hle & Hnz & Hnpb & Hs).
  split.
  { intros Hpos. pose proof (Z.div_mod bs ni Hnz).
    pose proof (Z.mod_pos_bound bs ni Hpos). lia. }
  intros fuel g out g' Hiter.
  assert (Hnd : NoDup (RandomIdentitySampler.pids s)).
  { subst s. cbn. apply index_by_keys_NoDup. }
  destruct (iter_batches s fuel g out g' Hnd Hiter)
    as (d0 & g2 & batches & st' & _ & Hout & Hall & Hblocks & _).
  assert (Hni : RandomIdentitySampler.num_instances s = ni)
    by (subst s; reflexivity).
  assert (Hn : RandomIdentitySampler.num_pids_per_batch s = (bs / ni)%Z)
    by (subst s; reflexivity).
  rewrite Hn in Hall.
  exists batches. split; [assumption|]. split; [|].
  - apply Forall_forall. intros b Hb. rewrite Forall_forall in Hall.
    destruct (Hall b Hb) as [Hl Hd]. split; [assumption|].
    split; [assumption|]. apply Forall_forall. intros blk Hblk.
    eapply block_ok_identity; [exact Hinit|].
    rewrite Forall_forall in Hblocks. apply Hblocks.
    apply in_concat. exists b. split; assumption.
  - rewrite Hout.
    rewrite (concat_const_length snd (concat batches) ni).
    + rewrite <- (map_id batches) at 1.
      rewrite (concat_const_length (fun b => b) batches (bs / ni)%Z).
      * lia.
      * intros b Hb. rewrite Forall_forall in Hall. now apply Hall.
    + intros blk Hblk. rewrite Forall_forall in Hblocks.
      destruct (Hblocks blk Hblk) as [Hl _]. now rewrite <- Hni.
Qed.

Lemma identity_pass_batches_witness :
  (4 - 2 < 4 / 2 * 2 <= 4)%Z /\
  exists batches : list (list (Z * list nat)),
    [1; 0; 3; 3] = concat (map snd (concat batches)) /\
    Forall (identity_batch ex_items (4 / 2) 2) batches /\
    len [1; 0; 3; 3] = (len batches * (4 / 2 * 2))%Z.
Proof.
  destruct (identity_pass_batches ex_items 4 2 [] ex_identity_sampler []
              ltac:(vm_compute; reflexivity)) as [Hsize Hpass].
  split; [apply Hsize; lia|].
  refine (Hpass 10 [1; 2; 0; 5; 3; 1] [1; 0; 3; 3] [] _).
  vm_compute; reflexivity.
Defined.

(** ** RandomIdentitySampler: which positions repeat *)






(** ** RandomIdentitySampler: how far the reported length is off *)






(** ** InferenceSampler: ranks outside [0 .. num_replicas - 1] *)

(** X11.  [InferenceSampler] does not check [rank].  With [data_num > 0] and
    [num_replicas > 0] the constructor succeeds for every [rank] and the
    sampler holds at most [shard_size = ceil(data_num / num_replicas)]
    indices: none for a rank of [num_replicas] or more; [shard_size]
    negative ones for a negative rank; for a rank in range, positions of
    the data only, and [shard_size] of them when the shard ends within the
    data. *)
Theorem inference_rank_unchecked :
  forall G data_num num_replicas rank g,
    (0 < data_num)%Z -> (0 < num_replicas)%Z ->
    let shard_size := ((data_num + num_replicas - 1) / num_replicas)%Z in
    exists s,
      InferenceSampler.init G data_num (Some num_replicas) (Some rank) g
      = Ok (s, g) /\
      (0 < shard_size <= data_num)%Z /\
      (InferenceSampler.__len__ s <= shard_size)%Z /\
      ((num_replicas <= rank)%Z ->
       InferenceSampler.iter s = [] /\ InferenceSampler.__len__ s = 0%Z) /\
      ((rank < 0)%Z ->
       InferenceSampler.iter s
       = py_range (shard_size * rank) (shard_size * (rank + 1)) /\
       InferenceSampler.__len__ s = shard_size /\
       forall i, In i (InferenceSampler.iter s) -> (i < 0)%Z) /\
      ((0 <= rank < num_replicas)%Z ->
       forall i, In i (InferenceSampler.iter s) -> (0 <= i < data_num)%Z) /\
      ((0 <= rank)%Z -> (shard_size * (rank + 1) <= data_num)%Z ->
       InferenceSampler.__len__ s = shard_size).
Proof.
  intros G data_num R rank g Hd HR shard_size.
  pose proof (ceil_div_bounds data_num R HR) as Hceil.
  fold shard_size in Hceil.
  assert (Hpos : (0 < shard_size)%Z) by nia.
  assert (Hle : (shard_size <= data_num)%Z).
  { unfold shard_size. apply Z.div_le_upper_bound; [assumption|]. nia. }
  eexists. split; [apply inference_init_Ok; lia|].
  unfold InferenceSampler.__len__, InferenceSampler.iter.
  cbn [InferenceSampler.indices]. unfold inference_shard.
  fold shard_size. rewrite py_range_length.
  split; [lia|]. split; [nia|]. split; [|split; [|split]].
  - intros Hout. split; [apply py_range_empty; nia|nia].
  - intros Hneg.
    assert (Hmin : Z.min (shard_size * (rank + 1)) data_num
                   = (shard_size * (rank + 1))%Z) by nia.
    rewrite Hmin. split; [reflexivity|]. split; [nia|].
    intros i Hi. apply py_range_In in Hi. nia.
  - intros Hin i Hi. apply py_range_In in Hi. nia.
  - intros Hin Hfull. nia.
Qed.

Lemma inference_rank_unchecked_witness :
  exists s,
    InferenceSampler.init module_globals 10 (Some 3%Z) (Some (-1)%Z) []
    = Ok (s, []) /\
    InferenceSampler.iter s = py_range (-4) 0 /\
    InferenceSampler.__len__ s = 4%Z.
Proof.
  destruct (inference_rank_unchecked module_globals 10 3 (-1) []
              ltac:(lia) ltac:(lia))
    as (s & Hinit & _ & _ & _ & Hneg & _).
  exists s. split; [exact Hinit|].
  destruct (Hneg ltac:(lia)) as (Hiter & Hlen & _).
  split; [exact Hiter|exact Hlen].
Defined.

(** ** IterDistributedSampler: the indices of a shard *)

Lemma item_at_In {A} (l : list A) i x : In x (item_at l i) -> In x l.
Proof.
  unfold item_at. destruct (nth_error l (Z.to_nat i)) as [y|] eqn:E;
    [|intros []].
  intros [<-|[]]. eapply nth_error_In; eassumption.
Qed.

Lemma residue_class_incl {A} R r (l : list A) : incl (residue_class R r l) l.
Proof.
  intros x Hx. unfold residue_class in Hx. apply in_flat_map in Hx.
  destruct Hx as (i & _ & Hx). eapply item_at_In; eassumption.
Qed.

Lemma NoDup_concat_In {A} (ls : list (list A)) l :
  NoDup (concat ls) -> In l ls -> NoDup l.
Proof.
  induction ls as [|l0 ls IH]; intros Hnd Hin; [destruct Hin|].
  cbn [concat] in Hnd. apply NoDup_app_parts in Hnd.
  destruct Hnd as (H0 & Hrest & _).
  destruct Hin as [<-|Hin]; [assumption|now apply IH].
Qed.

Lemma residue_class_NoDup {A} R r (l : list A) :
  (0 <= r < R)%Z -> NoDup l -> NoDup (residue_class R r l).
Proof.
  intros Hr Hnd.
  apply (NoDup_concat_In
           (map (fun r => residue_class R r l) (py_range 0 R))).
  - eapply Permutation_NoDup; [|exact Hnd].
    symmetry. apply residue_classes_perm. lia.
  - apply in_map_iff. exists r. split; [reflexivity|].
    apply py_range_In. lia.
Qed.

Lemma count_occ_concat_le (ls : list (list Z)) x :
  (forall l, In l ls -> NoDup l) ->
  count_occ Z.eq_dec (concat ls) x <= List.length ls.
Proof.
  induction ls as [|l ls IH]; intros Hnd; [cbn; lia|].
  cbn [concat List.length]. rewrite count_occ_app.
  pose proof (proj1 (NoDup_count_occ Z.eq_dec l) (Hnd l (or_introl eq_refl)) x).
  pose proof (IH (fun l' Hl' => Hnd l' (or_intror Hl'))). lia.
Qed.

Lemma firstn_incl {A} (n : nat) (l : list A) : incl (firstn n l) l.
Proof.
  intros x Hx. rewrite <- (firstn_skipn n l). apply in_app_iff. now left.
Qed.

Lemma epoch_permutation_range t dataset shuffle ep i :
  torch_ok t ->
  In i (epoch_permutation t dataset shuffle ep) ->
  (0 <= i < len dataset)%Z.
Proof.
  intros Ht Hi. unfold epoch_permutation in Hi.
  assert (Hin : In i (py_range 0 (len dataset))).
  { destruct shuffle; [|assumption].
    eapply Permutation_in; [apply Ht|exact Hi]. }
  apply py_range_In in Hin. lia.
Qed.

(** X12.  A constructed [IterDistributedSampler] (positive [num_replicas] and
    [batch_size], [rank] in range, [torch] bound to a [randperm] that
    permutes) drops fewer than [num_replicas * batch_size] items at the end
    of each epoch's permutation; it holds for its rank a whole number of
    batches for each epoch; every index it emits is a position of the
    dataset, emitted at most once for each epoch; and a dataset smaller
    than [num_replicas * batch_size] gives a sampler that emits nothing. *)
Theorem distributed_indices_valid :
  forall G t dataset total_epochs batch_size num_replicas rank shuffle g s g',
    torch G = Some t -> torch_ok t ->
    (0 < num_replicas)%Z -> (0 < batch_size)%Z ->
    (0 <= rank < num_replicas)%Z ->
    IterDistributedSampler.init G dataset total_epochs batch_size
      (Some num_replicas) (Some rank) shuffle g = Ok (s, g') ->
    (0 <= len dataset - IterDistributedSampler.total_size s
     < num_replicas * batch_size)%Z /\
    IterDistributedSampler.__len__ s
    = (len dataset / (num_replicas * batch_size) * batch_size
       * total_epochs)%Z /\
    (forall i, In i (IterDistributedSampler.iter s) ->
               (0 <= i < len dataset)%Z) /\
    (forall i, (Z.of_nat (count_occ Z.eq_dec (IterDistributedSampler.iter s) i)
                <= total_epochs)%Z) /\
    ((len dataset < num_replicas * batch_size)%Z ->
     IterDistributedSampler.iter s = []).
Proof.
  intros G t ds epochs B R rank shuffle g s g' HG Ht HR HB Hrank Hinit.
  pose proof (distributed_init_Ok _ _ _ _ _ _ _ _ _ _ Hinit) as Hi.
  cbv zeta in Hi. destruct Hi as (Hep & Hnz & _ & Hlen & Hs).
  destruct (distributed_init_total G t ds epochs B R rank shuffle g
              HG Ht HR HB Hrank Hep) as (s' & Hinit' & Hiter).
  assert (s' = s) by congruence. subst s'.
  set (T := total_size_of ds B R) in *.
  assert (Hsize : IterDistributedSampler.total_size s = T)
    by (rewrite Hs; reflexivity).
  assert (Hnum : IterDistributedSampler.__len__ s = (T / R * epochs)%Z)
    by (rewrite Hs; reflexivity).
  assert (HRB : (0 < R * B)%Z) by nia.
  assert (HT : T = (len ds / (R * B) * (R * B))%Z) by reflexivity.
  pose proof (Z.div_mod (len ds) (R * B) ltac:(lia)) as Hdm.
  pose proof (Z.mod_pos_bound (len ds) (R * B) HRB) as Hmod.
  assert (HTR : (T / R = len ds / (R * B) * B)%Z).
  { rewrite HT.
    replace (len ds / (R * B) * (R * B))%Z
      with (len ds / (R * B) * B * R)%Z by ring.
    apply Z.div_mul. lia. }
  split; [rewrite Hsize; lia|]. split; [now rewrite Hnum, HTR|].
  split; [|split].
  - intros i Hi. rewrite Hiter in Hi. apply in_concat in Hi.
    destruct Hi as (l & Hl & Hi). apply in_map_iff in Hl.
    destruct Hl as (ep & <- & _). unfold epoch_shard in Hi.
    apply residue_class_incl in Hi. apply firstn_incl in Hi.
    eapply epoch_permutation_range; eassumption.
  - intros i. rewrite Hiter.
    etransitivity;
      [apply inj_le; apply count_occ_concat_le|].
    + intros l Hl. apply in_map_iff in Hl. destruct Hl as (ep & <- & _).
      unfold epoch_shard. apply residue_class_NoDup; [assumption|].
      apply NoDup_firstn. now apply epoch_permutation_NoDup.
    + rewrite length_map. fold (len (py_range 0 epochs)).
      rewrite py_range_length. lia.
  - intros Hsmall.
    assert (Hq : (len ds / (R * B) = 0)%Z).
    { apply Z.div_small. unfold len in *. lia. }
    unfold IterDistributedSampler.iter.
    rewrite HTR, Hq in Hlen.
    destruct (IterDistributedSampler.indices s); [reflexivity|].
    unfold len in Hlen. cbn [List.length] in Hlen. lia.
Qed.

Lemma distributed_indices_valid_witness :
  (0 <= len ex_items10 - IterDistributedSampler.total_size
                           ex_distributed_sampler < 2 * 2)%Z /\
  IterDistributedSampler.__len__ ex_distributed_sampler
  = (len ex_items10 / (2 * 2) * 2 * 2)%Z /\
  (forall i, In i (IterDistributedSampler.iter ex_distributed_sampler) ->
             (0 <= i < len ex_items10)%Z) /\
  (forall i,
      (Z.of_nat (count_occ Z.eq_dec
                   (IterDistributedSampler.iter ex_distributed_sampler) i)
       <= 2)%Z).
Proof.
  destruct (distributed_indices_valid demo_globals demo_torch ex_items10 2 2
              2 0 true [] ex_distributed_sampler []
              eq_refl demo_torch_ok ltac:(lia) ltac:(lia) ltac:(lia)
              ltac:(vm_compute; reflexivity))
    as (Hdrop & Hlen & Hrange & Hcount & _).
  split; [exact Hdrop|]. split; [exact Hlen|].
  split; [exact Hrange|exact Hcount].
Defined.

Lemma flat_map_singletons {A} (f : A -> list A) (l : list A) :
  (forall x, In x l -> f x = [x]) -> flat_map f l = l.
Proof.
  induction l as [|x l IH]; intros H; [reflexivity|].
  cbn [flat_map]. rewrite (H x (or_introl eq_refl)).
  rewrite IH by (intros y Hy; apply H; now right). reflexivity.
Qed.

Lemma firstn_py_range T n :
  (0 <= T <= n)%Z -> firstn (Z.to_nat T) (py_range 0 n) = py_range 0 T.
Proof.
  intros H. rewrite <- (py_range_app 0 T n) by lia.
  assert (Hlen : Z.to_nat T = List.length (py_range 0 T)).
  { pose proof (py_range_length 0 T) as Hl. unfold len in Hl. lia. }
  rewrite Hlen, firstn_app, firstn_all, Nat.sub_diag. cbn [firstn].
  apply app_nil_r.
Qed.

Lemma item_at_py_range T i :
  (0 <= i < T)%Z -> item_at (py_range 0 T) i = [i].
Proof.
  intros H. unfold item_at, py_range.
  rewrite nth_error_map, nth_error_seq.
  destruct (Nat.ltb_spec (Z.to_nat i) (Z.to_nat (T - 0))); [|lia].
  cbn [option_map]. f_equal. lia.
Qed.

(** In [range(T)] the positions congruent to [r] modulo [R] are
    [r, r + R, r + 2 R, ...]. *)
Lemma residue_class_range R r T :
  (0 <= r < R)%Z -> (0 <= T)%Z ->
  residue_class R r (py_range 0 T)
  = map (fun j => (r + Z.of_nat j * R)%Z)
        (seq 0 (Z.to_nat (stride_count r R T))).
Proof.
  intros Hr HT. unfold residue_class.
  assert (Hlen : List.length (py_range 0 T) = Z.to_nat T).
  { pose proof (py_range_length 0 T) as Hl. unfold len in Hl. lia. }
  rewrite Hlen. rewrite flat_map_singletons.
  - rewrite <- (stride_positions r R (Z.to_nat T) Hr).
    now rewrite Z2Nat.id by assumption.
  - intros i Hi. apply filter_In in Hi. destruct Hi as [Hi _].
    apply in_map_iff in Hi. destruct Hi as (k & <- & Hk).
    apply in_seq in Hk. apply item_at_py_range. lia.
Qed.

(** X13.  Without shuffling, a constructed [IterDistributedSampler] emits for
    every epoch the same indices: [rank], [rank + num_replicas],
    [rank + 2 num_replicas], ..., as many as
    [(len(dataset) // (num_replicas * batch_size)) * batch_size]. *)
Theorem distributed_unshuffled :
  forall G t dataset total_epochs batch_size num_replicas rank g s g',
    torch G = Some t ->
    (0 < num_replicas)%Z -> (0 < batch_size)%Z ->
    (0 <= rank < num_replicas)%Z ->
    IterDistributedSampler.init G dataset total_epochs batch_size
      (Some num_replicas) (Some rank) false g = Ok (s, g') ->
    IterDistributedSampler.iter s
    = concat
        (repeat
           (map (fun j => (rank + Z.of_nat j * num_replicas)%Z)
                (seq 0 (Z.to_nat (len dataset / (num_replicas * batch_size)
                                  * batch_size))))
           (Z.to_nat total_epochs)).
Proof.
  intros G t ds epochs B R rank g s g' HG HR HB Hrank Hinit.
  pose proof (distributed_init_Ok _ _ _ _ _ _ _ _ _ _ Hinit) as Hi.
  cbv zeta in Hi. destruct Hi as (Hep & Hnz & Hbuild & _).
  set (T := total_size_of ds B R) in *.
  pose proof (total_size_nonneg ds B R) as HT0. fold T in HT0.
  unfold IterDistributedSampler.build_indices in Hbuild.
  rewrite (epochs_Ok G t ds false T rank R _ [] g HG HT0 Hrank) in Hbuild.
  cbn [app] in Hbuild. inversion Hbuild as [[Hidx Hg]].
  unfold IterDistributedSampler.iter. rewrite <- Hidx.
  assert (HRB : (0 < R * B)%Z) by nia.
  assert (Hq : (0 <= len ds / (R * B))%Z)
    by (apply Z.div_pos; [unfold len; lia|assumption]).
  assert (HT : (T <= len ds)%Z).
  { unfold T, total_size_of. rewrite Z.mul_comm. apply Z.mul_div_le.
    assumption. }
  assert (Hshard : forall ep : Z,
            residue_class R rank
              (firstn (Z.to_nat T) (epoch_permutation t ds false ep))
            = map (fun j => (rank + Z.of_nat j * R)%Z)
                  (seq 0 (Z.to_nat (len ds / (R * B) * B)))).
  { intros ep. unfold epoch_permutation.
    rewrite firstn_py_range by lia.
    rewrite residue_class_range by assumption.
    f_equal. f_equal. f_equal. unfold T, total_size_of.
    replace (len ds / (R * B) * (R * B))%Z
      with (R * (len ds / (R * B) * B))%Z by ring.
    apply stride_count_full; [assumption|nia]. }
  rewrite (map_ext _ _ Hshard), map_const. f_equal. f_equal.
  pose proof (py_range_length 0 epochs) as Hl. unfold len in Hl. lia.
Qed.

Lemma distributed_unshuffled_witness :
  IterDistributedSampler.iter ex_unshuffled_sampler
  = concat
      (repeat
         (map (fun j => (1 + Z.of_nat j * 2)%Z)
              (seq 0 (Z.to_nat (len ex_items10 / (2 * 2) * 2))))
         (Z.to_nat 2)).
Proof.
  refine (distributed_unshuffled demo_globals demo_torch ex_items10 2 2 2 1
            [] ex_unshuffled_sampler [] eq_refl _ _ _ _).
  - lia.
  - lia.
  - lia.
  - vm_compute; reflexivity.
Defined.

(** ** build_train_sampler *)


Lemma sample_round_raises n_img selected : forall st g e,
  sample_round n_img selected st g = Raise e -> e = ValueError.
Proof.
  intros st g e H.
  destruct (sample_round_cases n_img selected st g)
    as [(st' & drs & g' & Hok)|Hr]; congruence.
Qed.







(** ** The distributed runtime as the source of [num_replicas] and [rank] *)

(** X15.  With [dist] bound: when the distributed package is available, an
    [IterDistributedSampler] or [InferenceSampler] built without
    [num_replicas] and [rank] is the one built with the world size and
    the rank of the process; when it is not available, leaving either one
    out raises [RuntimeError], in [IterDistributedSampler] before any
    other check and in [InferenceSampler] after the check of
    [data_num]. *)
Theorem dist_defaults :
  forall G d,
    dist G = Some d ->
    (is_available d = true ->
     (forall dataset total_epochs batch_size shuffle g,
         IterDistributedSampler.init G dataset total_epochs batch_size
           None None shuffle g
         = IterDistributedSampler.init G dataset total_epochs batch_size
             (Some (get_world_size d)) (Some (get_rank d)) shuffle g) /\
     (forall data_num g,
         InferenceSampler.init G data_num None None g
         = InferenceSampler.init G data_num (Some (get_world_size d))
             (Some (get_rank d)) g)) /\
    (is_available d = false ->
     forall num_replicas rank,
       num_replicas = None \/ rank = None ->
       (forall dataset total_epochs batch_size shuffle g,
           IterDistributedSampler.init G dataset total_epochs batch_size
             num_replicas rank shuffle g = Raise RuntimeError) /\
       (forall data_num g,
           InferenceSampler.init G data_num num_replicas rank g
           = if (0 <? data_num)%Z then Raise RuntimeError
             else Raise AssertionError)).
Proof.
  intros G d HG. split.
  - intros Ha. split.
    + intros. unfold IterDistributedSampler.init, default_num_replicas,
        default_rank, global_dist. rewrite HG. unfold bind, ret.
      rewrite Ha. reflexivity.
    + intros. unfold InferenceSampler.init, default_num_replicas,
        default_rank, global_dist. rewrite HG. unfold bind, ret.
      rewrite Ha. reflexivity.
  - intros Ha nr rk Hnone. split.
    + intros. unfold IterDistributedSampler.init, default_num_replicas,
        default_rank, global_dist. rewrite HG. unfold bind, ret, raise.
      rewrite Ha. cbn [negb].
      destruct nr as [n|]; [|reflexivity].
      destruct rk as [r|]; [|reflexivity].
      destruct Hnone; discriminate.
    + intros. unfold InferenceSampler.init, default_num_replicas,
        default_rank, global_dist, py_assert. rewrite HG.
      unfold bind, ret, raise. rewrite Ha. cbn [negb].
      destruct (0 <? data_num)%Z; [|reflexivity].
      destruct nr as [n|]; [|reflexivity].
      destruct rk as [r|]; [|reflexivity].
      destruct Hnone; discriminate.
Qed.

Lemma dist_defaults_witness :
  IterDistributedSampler.init demo_globals ex_items10 2 2 None None true []
  = IterDistributedSampler.init demo_globals ex_items10 2 2
      (Some 2%Z) (Some 0%Z) true [] /\
  InferenceSampler.init (mkGlobals None (Some (mkDist false 2 0))) 10
    None (Some 0%Z) []
  = Raise RuntimeError.
Proof.
  split.
  - exact (proj1 (proj1 (dist_defaults demo_globals (mkDist true 2 0)
                           eq_refl) eq_refl)
                 ex_items10 2%Z 2%Z true []).
  - exact (proj2 (proj2 (dist_defaults
                           (mkGlobals None (Some (mkDist false 2 0)))
                           (mkDist false 2 0) eq_refl)
                        eq_refl None (Some 0%Z) (or_introl eq_refl))
                 10%Z []).
Defined.
